(** * Presence and message-delivery tracking of the chat server

    A shallow embedding of the Socket.IO event handlers of the chat server
    (the file that sets up [io.on('connection', ...)]), of the helper
    functions they call ([deliverPendingMessages],
    [emitTypingStatusToRelevantUsers], [sendUpdatedConversationData],
    [startHeartbeatCleanup]) and of the part of the PostgreSQL schema these
    handlers read and write.

    Modelling decisions.
    - The four module-level [Map]s are fields of [State].  [connectedUsers],
      [userSockets] and [userTypingStatus] are finite maps; [userHeartbeats],
      the only map the code iterates over, is an association list that keeps
      the insertion order of a JavaScript [Map].
    - A row of a table is a record, a table is the list of its rows in
      insertion order, and every SQL statement of the handlers is a function
      on [Database].  The constraints of the [CREATE TABLE messages]
      statement (NOT NULL on [content], the two foreign keys, the SERIAL
      key) are checked by [insert_message].
    - [Date.now()] and [CURRENT_TIMESTAMP] are read from the clock value
      carried by each input.
    - Every handler returns the new state and the list of effects it
      performed, in order: the Socket.IO emissions exactly as the code
      addresses them, and the writes to the [messages] table.
    - [handle] runs one handler to completion before the next input is
      taken.  The handlers are [async] functions, and the interleaving of
      two of them at an [await] is modelled separately: by [Task] and
      [schedule] for the ['message:send'] handler, and by [start] and
      [event_loop] for the handlers of ['authenticate'], ['heartbeat'],
      ['app_state_change'], ['message:read'] and ['disconnect'] as well.
      A property that is stated over [run] is a property of the server for
      as long as no input is taken while a handler is suspended.
    - A query fails only by violating a constraint of the schema.  The ids
      that a client sends are numbers of any size, while the columns are
      INTEGER: a statement that is given an id outside that range fails in
      the database, and the functions below are meant for ids inside it
      ([in_INTEGER]); the properties that depend on it say so.
    - RETURNING without ORDER BY gives its rows in an order that the
      database chooses; [mark_read] gives them in the order of the table,
      and the properties state the ids up to a permutation.

    The HTTP side of the same file is embedded as well: the
    [authenticateToken] middleware, the routes that get or create a
    conversation, that list the messages of a conversation and that list
    the conversations of a user, and the callback of [server.listen] with
    the connection tests it calls; so is the trigger function that
    [supabase-setup.sql] installs on [messages].
    - A route is a function on [Store] that returns the new store and the
      response; the middleware takes the route as its continuation.
    - A path parameter is given as the database reads it for an integer
      column, [None] when the text is no integer.
    - Where ORDER BY leaves the order of rows with equal keys open, the
      rows keep the order of the table. *)

From stdpp Require Import gmap strings list fin_maps sorting.
From Stdlib Require Import ZArith Lia.

Local Open Scope Z_scope.
Set Warnings "-clear-no-such-hyp".

(** ** Identifiers *)

(** Socket.IO gives every socket a fresh, non-empty identifier; the handlers
    only compare identifiers and test them for truthiness, which a non-empty
    string always passes. *)
Abbreviation SocketId := positive.

(** User, conversation and message identifiers are numbers chosen by the
    database or sent by a client.  [if (userId)] takes every number but 0
    for true. *)
Definition truthy (n : Z) : bool := bool_decide (n ≠ 0).

(** [jwt.verify(token, secret)] either returns the signed payload, of which
    the code reads [userId], or throws. *)
Inductive Token :=
  | SignedFor (userId : Z)
  | Invalid.

Definition jwt_verify (t : Token) : option Z :=
  match t with
  | SignedFor userId => Some userId
  | Invalid => None
  end.

(** ** The store *)

Record User := mkUser {
  user_id : Z;
  name : string;
  is_online : bool;
  last_seen : Z
}.

Record Conversation := mkConversation {
  conv_id : Z;
  user1_id : Z;
  user2_id : Z;
  conv_created_at : Z
}.

Record Message := mkMessage {
  msg_id : Z;
  conversation_id : option Z;
  sender_id : option Z;
  content : string;
  is_delivered : bool;
  is_read : bool;
  delivered_at : option Z;
  read_at : option Z;
  created_at : Z
}.

Record Database := mkDatabase {
  users : list User;
  conversations : list Conversation;
  messages : list Message;
  messages_id_seq : Z
}.

Inductive SqlError :=
  | NotNullViolation
  | ForeignKeyViolation.

Definition set_users (f : list User → list User) (d : Database) : Database :=
  mkDatabase (f (users d)) (conversations d) (messages d) (messages_id_seq d).

Definition set_messages (f : list Message → list Message) (d : Database) : Database :=
  mkDatabase (users d) (conversations d) (f (messages d)) (messages_id_seq d).

(** [SELECT ... FROM users WHERE id = $1] *)
Definition select_user (userId : Z) (d : Database) : list User :=
  filter (λ u, user_id u = userId) (users d).

(** [SELECT user1_id, user2_id FROM conversations WHERE id = $1]; a NULL
    parameter matches no row. *)
Definition select_conversation (conversationId : option Z) (d : Database) : list Conversation :=
  match conversationId with
  | Some c => filter (λ conv, conv_id conv = c) (conversations d)
  | None => []
  end.

(** [SELECT * FROM messages WHERE id = $1] *)
Definition select_message (messageId : Z) (d : Database) : list Message :=
  filter (λ m, msg_id m = messageId) (messages d).

(** [UPDATE users SET is_online = $b, last_seen = CURRENT_TIMESTAMP WHERE id = $1] *)
Definition set_user_online (userId : Z) (online : bool) (now : Z) (d : Database) : Database :=
  set_users (map (λ u, if decide (user_id u = userId)
                       then mkUser (user_id u) (name u) online now else u)) d.

(** [UPDATE users SET last_seen = CURRENT_TIMESTAMP WHERE id = $1] *)
Definition touch_last_seen (userId : Z) (now : Z) (d : Database) : Database :=
  set_users (map (λ u, if decide (user_id u = userId)
                       then mkUser (user_id u) (name u) (is_online u) now else u)) d.

(** A reference to a row that must exist unless the reference is NULL. *)
Definition fk_ok (ref : option Z) (keys : list Z) : bool :=
  match ref with
  | Some k => bool_decide (k ∈ keys)
  | None => true
  end.

(** [INSERT INTO messages (conversation_id, sender_id, content)
     VALUES ($1, $2, $3) RETURNING *]
    against the table declared with
    [id SERIAL PRIMARY KEY],
    [conversation_id INTEGER REFERENCES conversations(id) ON DELETE CASCADE],
    [sender_id INTEGER REFERENCES users(id) ON DELETE CASCADE],
    [content TEXT NOT NULL], [is_delivered BOOLEAN DEFAULT false],
    [is_read BOOLEAN DEFAULT false], [delivered_at TIMESTAMP],
    [read_at TIMESTAMP], [created_at TIMESTAMP DEFAULT CURRENT_TIMESTAMP].
    The SERIAL default draws the next value of the sequence before the
    constraints are checked, so a rejected insert uses up an id.  The ids
    are meant within the INTEGER range: a parameter outside it fails the
    statement before a row is formed, and no id is drawn then. *)
Definition insert_message (conversationId senderId : option Z) (text : option string)
    (now : Z) (d : Database) : Database * (SqlError + Message) :=
  let new_id := messages_id_seq d in
  let d0 := mkDatabase (users d) (conversations d) (messages d) (new_id + 1) in
  match text with
  | None => (d0, inl NotNullViolation)
  | Some txt =>
      if fk_ok conversationId (conv_id <$> conversations d)
         && fk_ok senderId (user_id <$> users d)
      then
        let row := mkMessage new_id conversationId senderId txt false false None None now in
        (set_messages (λ ms, ms ++ [row]) d0, inr row)
      else (d0, inl ForeignKeyViolation)
  end.

Definition deliver (now : Z) (m : Message) : Message :=
  mkMessage (msg_id m) (conversation_id m) (sender_id m) (content m)
            true (is_read m) (Some now) (read_at m) (created_at m).

Definition read (now : Z) (m : Message) : Message :=
  mkMessage (msg_id m) (conversation_id m) (sender_id m) (content m)
            (is_delivered m) true (delivered_at m) (Some now) (created_at m).

(** [UPDATE messages SET is_delivered = true, delivered_at = CURRENT_TIMESTAMP
     WHERE id = $1] *)
Definition mark_delivered (messageId : Z) (now : Z) (d : Database) : Database :=
  set_messages (map (λ m, if decide (msg_id m = messageId) then deliver now m else m)) d.

(** The WHERE clause [conversation_id = $1 AND sender_id != $2 AND
    is_read = false]; a comparison with a NULL column is not true. *)
Definition unread_from_other (conversationId userId : Z) (m : Message) : bool :=
  bool_decide (conversation_id m = Some conversationId)
  && match sender_id m with
     | Some sender => bool_decide (sender ≠ userId)
     | None => false
     end
  && negb (is_read m).

(** [UPDATE messages SET is_read = true, read_at = CURRENT_TIMESTAMP
     WHERE conversation_id = $1 AND sender_id != $2 AND is_read = false
     RETURNING id], for ids within the INTEGER range.  The statement has no
    ORDER BY: the ids come in an order that the database chooses, here the
    order of the table. *)
Definition mark_read (conversationId userId : Z) (now : Z) (d : Database) : Database * list Z :=
  (set_messages (map (λ m, if unread_from_other conversationId userId m
                           then read now m else m)) d,
   msg_id <$> filter (λ m, unread_from_other conversationId userId m = true) (messages d)).

(** The join of [deliverPendingMessages]:
    [SELECT m.*, c.user1_id, c.user2_id FROM messages m
     JOIN conversations c ON m.conversation_id = c.id
     WHERE (c.user1_id = $1 OR c.user2_id = $1)
     AND m.sender_id != $1 AND m.is_delivered = false] *)
Definition pending_row (userId : Z) (m : Message) (c : Conversation) : bool :=
  bool_decide (conversation_id m = Some (conv_id c))
  && (bool_decide (user1_id c = userId) || bool_decide (user2_id c = userId))
  && match sender_id m with
     | Some sender => bool_decide (sender ≠ userId)
     | None => false
     end
  && negb (is_delivered m).

Definition select_pending (userId : Z) (d : Database) : list Message :=
  m ← messages d;
  c ← conversations d;
  if pending_row userId m c then [m] else [].

(** The query of [emitTypingStatusToRelevantUsers]:
    [SELECT CASE WHEN c.user1_id = $1 THEN c.user2_id
                 WHEN c.user2_id = $1 THEN c.user1_id END as other_user_id
     FROM conversations c WHERE c.user1_id = $1 OR c.user2_id = $1] *)
Definition select_partners (userId : Z) (d : Database) : list Z :=
  (λ c, if decide (user1_id c = userId) then user2_id c else user1_id c)
    <$> filter (λ c, user1_id c = userId ∨ user2_id c = userId) (conversations d).

(** [supabase.from('conversations').select(...).or(user1_id.eq.U,user2_id.eq.U)] *)
Definition select_conversations_of (userId : Z) (d : Database) : list Conversation :=
  filter (λ c, user1_id c = userId ∨ user2_id c = userId) (conversations d).

(** ** Events and effects *)

Inductive DeliveryStatus := Sent | Delivered.

(** One entry of the [conversations] array sent by
    [sendUpdatedConversationData]; the fields that the function fills with
    constants, and the e-mail and avatar columns, are left out. *)
Record ConvData := mkConvData {
  cd_conversation_id : Z;
  cd_last_message_time : Z;
  cd_other_user_id : Z;
  cd_other_user_name : string;
  cd_other_user_last_seen : Z;
  cd_other_user_online : bool
}.

(** Server-to-client events.  The name ['message:read'] is used for two
    payloads, the receipt [{conversationId, messageIds, readBy}] and the
    broadcast [{conversationId, userId}]. *)
Inductive ServerEvent :=
  | Authenticated
  | AuthenticationError
  | UserStatusChange (userId : Z) (isOnline : bool)
  | ConversationsUpdated (convs : list ConvData) (userId : Z)
  | MessageNew (row : option Message) (conversationId : option Z) (deliveryStatus : DeliveryStatus)
  | MessageError
  | MessageDelivered (messageId : Z) (conversationId : option Z)
  | MessageReadReceipt (conversationId : Z) (messageIds : list Z) (readBy : Z)
  | MessageReadBroadcast (conversationId userId : Z)
  | ConversationOpenedEvent (conversationId userId : Z)
  | TypingStartEvent (userId conversationId : Z)
  | TypingStopEvent (userId conversationId : Z)
  | UserTypingStatus (userId : Z) (userName : string) (conversationId : Z) (isTyping : bool).

(** Writes to the [messages] table. *)
Inductive MessageWrite :=
  | InsertRow (row : Message)
  | SetDelivered (messageId : Z) (at_time : Z)
  | SetRead (messageIds : list Z) (at_time : Z).

Inductive Effect :=
  | SocketEmit (sid : SocketId) (e : ServerEvent)           (* socket.emit(e) *)
  | SocketTo (sid : SocketId) (room : Z) (e : ServerEvent)  (* socket.to(room).emit(e) *)
  | IoTo (target : option SocketId) (e : ServerEvent)       (* io.to(target).emit(e) *)
  | IoEmit (e : ServerEvent)                                (* io.emit(e) *)
  | SocketJoin (sid : SocketId) (userId : Z)                (* socket.join(`user_${userId}`) *)
  | SocketClose (sid : SocketId)                            (* oldSocket.disconnect() *)
  | Sql (w : MessageWrite).

Inductive AppState := Active | Background | Inactive | OtherAppState.

(** Client-to-server events with their payloads.  A field of the
    ['message:send'] payload may be missing, which reaches the database as
    NULL. *)
Inductive ClientEvent :=
  | Authenticate (token : Token)
  | Heartbeat
  | AppStateChange (state : AppState)
  | TypingStart (conversationId userId : Z)
  | TypingStop (conversationId userId : Z)
  | MessageSend (conversationId : option Z) (text : option string) (senderId : option Z)
  | MessageReadEv (conversationId userId : Z)
  | ConversationOpened (conversationId userId : Z)
  | Disconnect.

Inductive Input :=
  | Connection (sid : SocketId)                           (* a client connects *)
  | FromClient (sid : SocketId) (now : Z) (e : ClientEvent)
  | CleanupTick (now : Z).                                (* the setInterval callback *)

(** ** Server state *)

Record State := mkState {
  connectedUsers : gmap Z SocketId;         (* userId -> socketId *)
  userSockets : gmap SocketId Z;            (* socketId -> userId *)
  userHeartbeats : list (Z * Z);            (* userId -> last heartbeat time *)
  userTypingStatus : gmap Z (Z * Z);        (* userId -> (conversationId, timestamp) *)
  sockets : gset SocketId;                  (* io.sockets.sockets *)
  db : Database
}.

Definition set_db (d : Database) (s : State) : State :=
  mkState (connectedUsers s) (userSockets s) (userHeartbeats s) (userTypingStatus s) (sockets s) d.

Definition set_connectedUsers (m : gmap Z SocketId) (s : State) : State :=
  mkState m (userSockets s) (userHeartbeats s) (userTypingStatus s) (sockets s) (db s).

Definition set_userSockets (m : gmap SocketId Z) (s : State) : State :=
  mkState (connectedUsers s) m (userHeartbeats s) (userTypingStatus s) (sockets s) (db s).

Definition set_userHeartbeats (l : list (Z * Z)) (s : State) : State :=
  mkState (connectedUsers s) (userSockets s) l (userTypingStatus s) (sockets s) (db s).

Definition set_userTypingStatus (m : gmap Z (Z * Z)) (s : State) : State :=
  mkState (connectedUsers s) (userSockets s) (userHeartbeats s) m (sockets s) (db s).

Definition set_sockets (g : gset SocketId) (s : State) : State :=
  mkState (connectedUsers s) (userSockets s) (userHeartbeats s) (userTypingStatus s) g (db s).

(** [Map.prototype.set] and [Map.prototype.delete] on the insertion-ordered
    heartbeat map. *)
Definition hb_set (userId t : Z) (l : list (Z * Z)) : list (Z * Z) :=
  if bool_decide (userId ∈ l.*1)
  then (λ e, if decide (e.1 = userId) then (userId, t) else e) <$> l
  else l ++ [(userId, t)].

Definition hb_delete (userId : Z) (l : list (Z * Z)) : list (Z * Z) :=
  filter (λ e, e.1 ≠ userId) l.

(** The state of the server when it starts listening. *)
Definition init (d : Database) : State :=
  mkState ∅ ∅ [] ∅ ∅ d.

(** ** Helper functions of the server *)

(** The loop of [deliverPendingMessages] over the selected rows. *)
Fixpoint deliver_rows (rows : list Message) (now : Z) (s : State) : State * list Effect :=
  match rows with
  | [] => (s, [])
  | message :: rest =>
      let s1 := set_db (mark_delivered (msg_id message) now (db s)) s in
      let senderSocketId := sender_id message ≫= (λ senderId, connectedUsers s !! senderId) in
      let notify :=
        match senderSocketId with
        | Some socketId =>
            [IoTo (Some socketId) (MessageDelivered (msg_id message) (conversation_id message))]
        | None => []
        end in
      let '(s2, out) := deliver_rows rest now s1 in
      (s2, Sql (SetDelivered (msg_id message) now) :: notify ++ out)
  end.

(** [deliverPendingMessages], in one piece; [deliverPendingMessages_task]
    below is the function cut at its [await]s. *)
Definition deliverPendingMessages (userId : Z) (now : Z) (s : State) : State * list Effect :=
  deliver_rows (select_pending userId (db s)) now s.

(** [userResult.rows[0]?.name || 'Unknown User'] *)
Definition display_name (typingUserId : Z) (d : Database) : string :=
  match select_user typingUserId d with
  | u :: _ => if bool_decide (name u = "") then "Unknown User" else name u
  | [] => "Unknown User"
  end.

Definition emitTypingStatusToRelevantUsers (typingUserId conversationId : Z) (isTyping : bool)
    (s : State) : list Effect :=
  otherUserId ← select_partners typingUserId (db s);
  match connectedUsers s !! otherUserId with
  | Some otherUserSocketId =>
      [IoTo (Some otherUserSocketId)
            (UserTypingStatus typingUserId (display_name typingUserId (db s))
                              conversationId isTyping)]
  | None => []
  end.

(** The loop body of [sendUpdatedConversationData]: [.single()] reports an
    error unless exactly one user row matches, and the loop then moves on
    to the next conversation. *)
Definition conversation_entry (userId : Z) (d : Database) (conv : Conversation) : list ConvData :=
  let otherUserId := if decide (user1_id conv = userId) then user2_id conv else user1_id conv in
  match select_user otherUserId d with
  | [userData] =>
      [mkConvData (conv_id conv) (conv_created_at conv) (user_id userData) (name userData)
                  (last_seen userData) (is_online userData)]
  | _ => []
  end.

Definition sendUpdatedConversationData (userId : Z) (s : State) : list Effect :=
  match select_conversations_of userId (db s) with
  | [] => []
  | convs =>
      match connectedUsers s !! userId with
      | Some userSocketId =>
          [IoTo (Some userSocketId)
                (ConversationsUpdated (convs ≫= conversation_entry userId (db s)) userId)]
      | None => []
      end
  end.

(** ** The handlers of [io.on('connection', socket => ...)] *)

(** [socket.on('disconnect', ...)], in one piece; [disconnect_start] below
    is the handler cut at its [await], which stands between the lookup in
    [userSockets] and the three deletes. *)
Definition on_disconnect (sid : SocketId) (now : Z) (s : State) : State * list Effect :=
  match userSockets s !! sid with
  | Some userId =>
      if truthy userId then
        let s1 := set_db (set_user_online userId false now (db s)) s in
        let s2 := set_connectedUsers (delete userId (connectedUsers s1)) s1 in
        let s3 := set_userSockets (delete sid (userSockets s2)) s2 in
        let s4 := set_userHeartbeats (hb_delete userId (userHeartbeats s3)) s3 in
        match userTypingStatus s4 !! userId with
        | Some typingData =>
            let s5 := set_userTypingStatus (delete userId (userTypingStatus s4)) s4 in
            (* the typing fan-out is not awaited: the status change is
               emitted before the query of the fan-out returns *)
            (s5, IoEmit (UserStatusChange userId false)
                 :: emitTypingStatusToRelevantUsers userId typingData.1 false s5)
        | None => (s4, [IoEmit (UserStatusChange userId false)])
        end
      else (s, [])
  | None => (s, [])
  end.

(** [oldSocket.disconnect()]: the socket leaves [io.sockets.sockets] and its
    ['disconnect'] handler runs. *)
Definition close_socket (sid : SocketId) (now : Z) (s : State) : State * list Effect :=
  let '(s1, out) := on_disconnect sid now (set_sockets (sockets s ∖ {[sid]}) s) in
  (s1, SocketClose sid :: out).

(** The first block of the ['authenticate'] handler: "clean up any existing
    connections for this user to prevent conflicts". *)
Definition cleanup_existing (sid : SocketId) (userId : Z) (now : Z) (s : State)
    : State * list Effect :=
  match connectedUsers s !! userId with
  | Some existingSocketId =>
      if decide (existingSocketId ≠ sid) then
        let s0 := set_userSockets (delete existingSocketId (userSockets s)) s in
        if decide (existingSocketId ∈ sockets s0)
        then close_socket existingSocketId now s0
        else (s0, [])
      else (s, [])
  | None => (s, [])
  end.

(** [socket.on('authenticate', ...)] *)
Definition on_authenticate (sid : SocketId) (token : Token) (now : Z) (s : State)
    : State * list Effect :=
  match jwt_verify token with
  | None => (s, [SocketEmit sid AuthenticationError])
  | Some userId =>
      let '(s1, out1) := cleanup_existing sid userId now s in
      let s2 := set_connectedUsers (<[userId := sid]> (connectedUsers s1)) s1 in
      let s3 := set_userSockets (<[sid := userId]> (userSockets s2)) s2 in
      let s4 := set_userHeartbeats (hb_set userId now (userHeartbeats s3)) s3 in
      let s5 := set_db (set_user_online userId true now (db s4)) s4 in
      let '(s6, out6) := deliverPendingMessages userId now s5 in
      (s6, out1 ++ out6 ++ sendUpdatedConversationData userId s6
           ++ [IoEmit (UserStatusChange userId true);
               SocketEmit sid Authenticated;
               SocketJoin sid userId])
  end.

(** [socket.on('heartbeat', ...)] *)
Definition on_heartbeat (sid : SocketId) (now : Z) (s : State) : State * list Effect :=
  match userSockets s !! sid with
  | Some userId =>
      if truthy userId then
        let s1 := set_userHeartbeats (hb_set userId now (userHeartbeats s)) s in
        (set_db (touch_last_seen userId now (db s1)) s1, [])
      else (s, [])
  | None => (s, [])
  end.

(** [socket.on('app_state_change', ...)] *)
Definition on_app_state_change (sid : SocketId) (state : AppState) (now : Z) (s : State)
    : State * list Effect :=
  match userSockets s !! sid with
  | Some userId =>
      if truthy userId then
        match state with
        | Active =>
            let s1 := set_db (set_user_online userId true now (db s)) s in
            let '(s2, out) := deliverPendingMessages userId now s1 in
            (s2, out ++ sendUpdatedConversationData userId s2
                 ++ [IoEmit (UserStatusChange userId true)])
        | Background | Inactive =>
            (set_db (set_user_online userId false now (db s)) s,
             [IoEmit (UserStatusChange userId false)])
        | OtherAppState => (s, [])
        end
      else (s, [])
  | None => (s, [])
  end.

(** [socket.on('typing:start', ...)] *)
Definition on_typing_start (sid : SocketId) (conversationId userId : Z) (now : Z) (s : State)
    : State * list Effect :=
  let s1 := set_userTypingStatus (<[userId := (conversationId, now)]> (userTypingStatus s)) s in
  (s1, SocketTo sid conversationId (TypingStartEvent userId conversationId)
       :: emitTypingStatusToRelevantUsers userId conversationId true s1).

(** [socket.on('typing:stop', ...)] *)
Definition on_typing_stop (sid : SocketId) (conversationId userId : Z) (s : State)
    : State * list Effect :=
  let s1 := set_userTypingStatus (delete userId (userTypingStatus s)) s in
  (s1, SocketTo sid conversationId (TypingStopEvent userId conversationId)
       :: emitTypingStatusToRelevantUsers userId conversationId false s1).

(** [socket.on('message:send', ...)] *)
Definition on_message_send (sid : SocketId) (conversationId : option Z) (text : option string)
    (senderId : option Z) (now : Z) (s : State) : State * list Effect :=
  match insert_message conversationId senderId text now (db s) with
  | (d1, inl _) =>
      (* the query rejects; the catch block answers *)
      (set_db d1 s, [SocketEmit sid MessageError])
  | (d1, inr message) =>
      match select_conversation conversationId d1 with
      | conv :: _ =>
          let otherUserId :=
            if decide (Some (user1_id conv) = senderId) then user2_id conv else user1_id conv in
          let otherUserOnline :=
            match select_user otherUserId d1 with
            | u :: _ => is_online u
            | [] => false
            end in
          if otherUserOnline then
            let d2 := mark_delivered (msg_id message) now d1 in
            let updatedMessage := head (select_message (msg_id message) d2) in
            let otherUserSocketId := connectedUsers s !! otherUserId in
            (set_db d2 s,
             [Sql (InsertRow message);
              Sql (SetDelivered (msg_id message) now);
              SocketEmit sid (MessageNew updatedMessage conversationId Delivered);
              IoTo otherUserSocketId (MessageNew updatedMessage conversationId Delivered)])
          else
            (set_db d1 s,
             [Sql (InsertRow message);
              SocketEmit sid (MessageNew (Some message) conversationId Sent)])
      | [] => (set_db d1 s, [Sql (InsertRow message)])
      end
  end.

(** [socket.on('message:read', ...)], for ids within the INTEGER range.
    For an id outside it the UPDATE throws and the [catch] block only logs:
    nothing is marked and nothing is emitted, the broadcast included. *)
Definition on_message_read (conversationId userId : Z) (now : Z) (s : State)
    : State * list Effect :=
  let '(d1, messageIds) := mark_read conversationId userId now (db s) in
  let receipt :=
    match messageIds with
    | [] => []
    | _ :: _ =>
        match select_conversation (Some conversationId) d1 with
        | conv :: _ =>
            let otherUserId :=
              if decide (user1_id conv = userId) then user2_id conv else user1_id conv in
            match connectedUsers s !! otherUserId with
            | Some otherUserSocketId =>
                [IoTo (Some otherUserSocketId)
                      (MessageReadReceipt conversationId messageIds userId)]
            | None => []
            end
        | [] => []
        end
    end in
  (set_db d1 s,
   Sql (SetRead messageIds now) :: receipt
     ++ [IoEmit (MessageReadBroadcast conversationId userId)]).

(** [socket.on('conversation_opened', ...)] *)
Definition on_conversation_opened (conversationId userId : Z) (s : State) : State * list Effect :=
  (s, [IoEmit (ConversationOpenedEvent conversationId userId)]).

(** ** The heartbeat sweep *)

Definition HEARTBEAT_TIMEOUT : Z := 30000.

(** The callback that [startHeartbeatCleanup] hands to [setInterval],
    iterating over [userHeartbeats.entries()]. *)
Fixpoint cleanup_entries (entries : list (Z * Z)) (now : Z) (s : State) : State * list Effect :=
  match entries with
  | [] => (s, [])
  | (userId, lastHeartbeat) :: rest =>
      if decide (now - lastHeartbeat > HEARTBEAT_TIMEOUT) then
        let s1 := set_db (set_user_online userId false now (db s)) s in
        let socketId := connectedUsers s1 !! userId in
        let s2 := set_connectedUsers (delete userId (connectedUsers s1)) s1 in
        let s3 :=
          match socketId with
          | Some sid => set_userSockets (delete sid (userSockets s2)) s2
          | None => s2
          end in
        let s4 := set_userHeartbeats (hb_delete userId (userHeartbeats s3)) s3 in
        let '(s5, out) := cleanup_entries rest now s4 in
        (s5, IoEmit (UserStatusChange userId false) :: out)
      else cleanup_entries rest now s
  end.

Definition heartbeatCleanup (now : Z) (s : State) : State * list Effect :=
  cleanup_entries (userHeartbeats s) now s.

(** ** Dispatch *)

Definition dispatch (sid : SocketId) (now : Z) (e : ClientEvent) (s : State)
    : State * list Effect :=
  match e with
  | Authenticate token => on_authenticate sid token now s
  | Heartbeat => on_heartbeat sid now s
  | AppStateChange state => on_app_state_change sid state now s
  | TypingStart conversationId userId => on_typing_start sid conversationId userId now s
  | TypingStop conversationId userId => on_typing_stop sid conversationId userId s
  | MessageSend conversationId text senderId =>
      on_message_send sid conversationId text senderId now s
  | MessageReadEv conversationId userId => on_message_read conversationId userId now s
  | ConversationOpened conversationId userId => on_conversation_opened conversationId userId s
  | Disconnect => on_disconnect sid now (set_sockets (sockets s ∖ {[sid]}) s)
  end.

(** One input of the server.  Only a connected socket delivers events. *)
Definition handle (i : Input) (s : State) : State * list Effect :=
  match i with
  | Connection sid => (set_sockets ({[sid]} ∪ sockets s) s, [])
  | FromClient sid now e =>
      if decide (sid ∈ sockets s) then dispatch sid now e s else (s, [])
  | CleanupTick now => heartbeatCleanup now s
  end.

(** A run of the server: the final state and all effects, oldest first. *)
Fixpoint run (inputs : list Input) (s : State) : State * list Effect :=
  match inputs with
  | [] => (s, [])
  | i :: rest =>
      let '(s1, out1) := handle i s in
      let '(s2, out2) := run rest s1 in
      (s2, out1 ++ out2)
  end.

(** ** Handlers suspended at an [await]

    A handler is an [async] function: it runs until it awaits a query, and
    other handlers run before it is resumed with the result.  A [Task] is
    what is left of a handler: [Await resume] runs the awaited query against
    the state of the moment and then the code up to the next [await]. *)

Inductive Task :=
  | Finished
  | Await (resume : Z → State → Resumed)
with Resumed :=
  | Next (s : State) (out : list Effect) (rest : Task).

(** The ['message:send'] handler, cut at its five [await]s. *)
Definition send_task (sid : SocketId) (conversationId : option Z) (text : option string)
    (senderId : option Z) : Task :=
  (* await pool.query("INSERT INTO messages ...") *)
  Await (λ now s,
    match insert_message conversationId senderId text now (db s) with
    | (d1, inl _) => Next (set_db d1 s) [SocketEmit sid MessageError] Finished
    | (d1, inr message) =>
        Next (set_db d1 s) [Sql (InsertRow message)]
        (* await pool.query("SELECT user1_id, user2_id FROM conversations ...") *)
        (Await (λ _ s,
          match select_conversation conversationId (db s) with
          | [] => Next s [] Finished
          | conv :: _ =>
              let otherUserId :=
                if decide (Some (user1_id conv) = senderId)
                then user2_id conv else user1_id conv in
              Next s []
              (* await pool.query("SELECT is_online FROM users ...") *)
              (Await (λ _ s,
                let otherUserOnline :=
                  match select_user otherUserId (db s) with
                  | u :: _ => is_online u
                  | [] => false
                  end in
                if otherUserOnline then
                  Next s []
                  (* await pool.query("UPDATE messages SET is_delivered = true ...") *)
                  (Await (λ now s,
                    Next (set_db (mark_delivered (msg_id message) now (db s)) s)
                         [Sql (SetDelivered (msg_id message) now)]
                    (* await pool.query("SELECT * FROM messages WHERE id = $1") *)
                    (Await (λ _ s,
                      let updatedMessage := head (select_message (msg_id message) (db s)) in
                      let otherUserSocketId := connectedUsers s !! otherUserId in
                      Next s
                           [SocketEmit sid (MessageNew updatedMessage conversationId Delivered);
                            IoTo otherUserSocketId
                                 (MessageNew updatedMessage conversationId Delivered)]
                           Finished))))
                else
                  Next s [SocketEmit sid (MessageNew (Some message) conversationId Sent)]
                       Finished))
          end))
    end).

(** A task that nothing interrupts. *)
Fixpoint complete (t : Task) (now : Z) (s : State) : State * list Effect :=
  match t with
  | Finished => (s, [])
  | Await resume =>
      match resume now s with
      | Next s1 out1 rest =>
          let '(s2, out2) := complete rest now s1 in
          (s2, out1 ++ out2)
      end
  end.

(** The server with its suspended handlers. *)
Record Server := mkServer {
  server_state : State;
  suspended : list Task
}.

(** What the event loop does next: it takes an input, or it resumes the
    [n]-th suspended handler, whose query has returned. *)
Inductive Tick :=
  | Arrive (i : Input)
  | Resume (n : nat) (now : Z).

(** A ['message:send'] is suspended at its first [await]; every other input
    is handled in one piece. *)
Definition tick (t : Tick) (c : Server) : Server * list Effect :=
  match t with
  | Arrive (FromClient sid _ (MessageSend conversationId text senderId)) =>
      if decide (sid ∈ sockets (server_state c))
      then (mkServer (server_state c)
                     (suspended c ++ [send_task sid conversationId text senderId]), [])
      else (c, [])
  | Arrive i =>
      let '(s1, out) := handle i (server_state c) in
      (mkServer s1 (suspended c), out)
  | Resume n now =>
      match suspended c !! n with
      | Some (Await resume) =>
          match resume now (server_state c) with
          | Next s1 out rest => (mkServer s1 (<[n := rest]> (suspended c)), out)
          end
      | _ => (c, [])
      end
  end.

Fixpoint schedule (ticks : list Tick) (c : Server) : Server * list Effect :=
  match ticks with
  | [] => (c, [])
  | t :: rest =>
      let '(c1, out1) := tick t c in
      let '(c2, out2) := schedule rest c1 in
      (c2, out1 ++ out2)
  end.

(** ** Every handler suspended at its [await]s

    The other handlers are cut in the same way.  What a handler does from
    the arrival of its event to its first [await] is its start, a
    [Resumed]; the rest is a [Task]. *)

(** The loop of [deliverPendingMessages] over the rows that its SELECT
    returned, one [await] for each row, followed by the rest [k] of the
    handler that called it. *)
Fixpoint deliver_rows_task (rows : list Message) (k : Task) : Task :=
  match rows with
  | [] => k
  | message :: rest =>
      (* await pool.query("UPDATE messages SET is_delivered = true ... WHERE id = $1") *)
      Await (λ now s,
        let s1 := set_db (mark_delivered (msg_id message) now (db s)) s in
        let senderSocketId :=
          sender_id message ≫= (λ senderId, connectedUsers s !! senderId) in
        let notify :=
          match senderSocketId with
          | Some socketId =>
              [IoTo (Some socketId)
                    (MessageDelivered (msg_id message) (conversation_id message))]
          | None => []
          end in
        Next s1 (Sql (SetDelivered (msg_id message) now) :: notify)
             (deliver_rows_task rest k))
  end.

Definition deliverPendingMessages_task (userId : Z) (k : Task) : Task :=
  (* await pool.query("SELECT m.*, c.user1_id, c.user2_id FROM messages m JOIN ...") *)
  Await (λ _ s, Next s [] (deliver_rows_task (select_pending userId (db s)) k)).

(** [io.to(userSocketId).emit('conversations_updated', ...)] at the end of
    [sendUpdatedConversationData]. *)
Definition snapshot_effect (userId : Z) (entries : list ConvData) (s : State) : list Effect :=
  match connectedUsers s !! userId with
  | Some userSocketId => [IoTo (Some userSocketId) (ConversationsUpdated entries userId)]
  | None => []
  end.

(** The loop of [sendUpdatedConversationData], one [await] for each
    conversation; [tail] is what the calling handler emits once the
    function has returned. *)
Fixpoint conversation_entries_task (userId : Z) (convs : list Conversation)
    (entries : list ConvData) (tail : list Effect) : Task :=
  match convs with
  | [] => Finished
  | conv :: rest =>
      (* await supabase.from('users').select(...).eq('id', otherUserId).single() *)
      Await (λ _ s,
        let entries1 := entries ++ conversation_entry userId (db s) conv in
        match rest with
        | [] => Next s (snapshot_effect userId entries1 s ++ tail) Finished
        | _ :: _ => Next s [] (conversation_entries_task userId rest entries1 tail)
        end)
  end.

Definition sendUpdatedConversationData_task (userId : Z) (tail : list Effect) : Task :=
  (* await supabase.from('conversations').select(...).or(...) *)
  Await (λ _ s,
    match select_conversations_of userId (db s) with
    | [] => Next s tail Finished
    | conv :: rest => Next s [] (conversation_entries_task userId (conv :: rest) [] tail)
    end).

(** ['authenticate']: the token is verified, the old connection is cleaned
    up and the three maps are set before the first [await]. *)
Definition authenticate_start (sid : SocketId) (token : Token) (now : Z) (s : State)
    : Resumed :=
  match jwt_verify token with
  | None => Next s [SocketEmit sid AuthenticationError] Finished
  | Some userId =>
      let '(s1, out1) := cleanup_existing sid userId now s in
      let s2 := set_connectedUsers (<[userId := sid]> (connectedUsers s1)) s1 in
      let s3 := set_userSockets (<[sid := userId]> (userSockets s2)) s2 in
      let s4 := set_userHeartbeats (hb_set userId now (userHeartbeats s3)) s3 in
      Next s4 out1
        (* await pool.query("UPDATE users SET is_online = true ...") *)
        (Await (λ now s,
           Next (set_db (set_user_online userId true now (db s)) s) []
             (deliverPendingMessages_task userId
                (sendUpdatedConversationData_task userId
                   [IoEmit (UserStatusChange userId true);
                    SocketEmit sid Authenticated;
                    SocketJoin sid userId]))))
  end.

(** ['heartbeat']: the map is set before the [await]. *)
Definition heartbeat_start (sid : SocketId) (now : Z) (s : State) : Resumed :=
  match userSockets s !! sid with
  | Some userId =>
      if truthy userId then
        Next (set_userHeartbeats (hb_set userId now (userHeartbeats s)) s) []
          (* await pool.query("UPDATE users SET last_seen = ...") *)
          (Await (λ now s, Next (set_db (touch_last_seen userId now (db s)) s) [] Finished))
      else Next s [] Finished
  | None => Next s [] Finished
  end.

(** ['app_state_change'] *)
Definition app_state_change_start (sid : SocketId) (state : AppState) (s : State)
    : Resumed :=
  match userSockets s !! sid with
  | Some userId =>
      if truthy userId then
        match state with
        | Active =>
            Next s []
              (* await pool.query("UPDATE users SET is_online = true ...") *)
              (Await (λ now s,
                 Next (set_db (set_user_online userId true now (db s)) s) []
                   (deliverPendingMessages_task userId
                      (sendUpdatedConversationData_task userId
                         [IoEmit (UserStatusChange userId true)]))))
        | Background | Inactive =>
            Next s []
              (* await pool.query("UPDATE users SET is_online = false ...") *)
              (Await (λ now s,
                 Next (set_db (set_user_online userId false now (db s)) s)
                      [IoEmit (UserStatusChange userId false)] Finished))
        | OtherAppState => Next s [] Finished
        end
      else Next s [] Finished
  | None => Next s [] Finished
  end.

(** ['message:read'] *)
Definition message_read_task (conversationId userId : Z) : Task :=
  (* await pool.query("UPDATE messages SET is_read = true ... RETURNING id") *)
  Await (λ now s,
    let '(d1, messageIds) := mark_read conversationId userId now (db s) in
    match messageIds with
    | [] =>
        Next (set_db d1 s)
             [Sql (SetRead messageIds now);
              IoEmit (MessageReadBroadcast conversationId userId)]
             Finished
    | _ :: _ =>
        Next (set_db d1 s) [Sql (SetRead messageIds now)]
          (* await pool.query("SELECT user1_id, user2_id FROM conversations ...") *)
          (Await (λ _ s,
             let receipt :=
               match select_conversation (Some conversationId) (db s) with
               | conv :: _ =>
                   let otherUserId :=
                     if decide (user1_id conv = userId)
                     then user2_id conv else user1_id conv in
                   match connectedUsers s !! otherUserId with
                   | Some otherUserSocketId =>
                       [IoTo (Some otherUserSocketId)
                             (MessageReadReceipt conversationId messageIds userId)]
                   | None => []
                   end
               | [] => []
               end in
             Next s (receipt ++ [IoEmit (MessageReadBroadcast conversationId userId)])
                  Finished))
    end).

(** ['disconnect']: the user is looked up before the [await], the maps are
    cleared, by user id, after it. *)
Definition disconnect_start (sid : SocketId) (s : State) : Resumed :=
  match userSockets s !! sid with
  | Some userId =>
      if truthy userId then
        Next s []
          (* await pool.query("UPDATE users SET is_online = false ...") *)
          (Await (λ now s,
             let s1 := set_db (set_user_online userId false now (db s)) s in
             let s2 := set_connectedUsers (delete userId (connectedUsers s1)) s1 in
             let s3 := set_userSockets (delete sid (userSockets s2)) s2 in
             let s4 := set_userHeartbeats (hb_delete userId (userHeartbeats s3)) s3 in
             match userTypingStatus s4 !! userId with
             | Some typingData =>
                 let s5 := set_userTypingStatus (delete userId (userTypingStatus s4)) s4 in
                 Next s5 (IoEmit (UserStatusChange userId false)
                          :: emitTypingStatusToRelevantUsers userId typingData.1 false s5)
                      Finished
             | None => Next s4 [IoEmit (UserStatusChange userId false)] Finished
             end))
      else Next s [] Finished
  | None => Next s [] Finished
  end.

(** The start of the handler of an event.  The typing handlers and
    ['conversation_opened'], which change no registration and no message,
    are taken in one piece. *)
Definition start (sid : SocketId) (now : Z) (e : ClientEvent) (s : State) : Resumed :=
  match e with
  | Authenticate token => authenticate_start sid token now s
  | Heartbeat => heartbeat_start sid now s
  | AppStateChange state => app_state_change_start sid state s
  | MessageSend conversationId text senderId =>
      Next s [] (send_task sid conversationId text senderId)
  | MessageReadEv conversationId userId =>
      Next s [] (message_read_task conversationId userId)
  | Disconnect => disconnect_start sid (set_sockets (sockets s ∖ {[sid]}) s)
  | TypingStart _ _ | TypingStop _ _ | ConversationOpened _ _ =>
      let '(s1, out) := dispatch sid now e s in
      Next s1 out Finished
  end.

(** A started handler that nothing interrupts. *)
Definition finish (r : Resumed) (now : Z) : State * list Effect :=
  match r with
  | Next s1 out1 rest =>
      let '(s2, out2) := complete rest now s1 in
      (s2, out1 ++ out2)
  end.

(** The event loop with every handler suspended: an event of a connected
    socket starts its handler, which is then resumed [await] by [await]; a
    new connection and the heartbeat sweep are taken in one piece. *)
Definition step (t : Tick) (c : Server) : Server * list Effect :=
  match t with
  | Arrive (FromClient sid now e) =>
      if decide (sid ∈ sockets (server_state c)) then
        match start sid now e (server_state c) with
        | Next s1 out rest => (mkServer s1 (suspended c ++ [rest]), out)
        end
      else (c, [])
  | Arrive i =>
      let '(s1, out) := handle i (server_state c) in
      (mkServer s1 (suspended c), out)
  | Resume n now =>
      match suspended c !! n with
      | Some (Await resume) =>
          match resume now (server_state c) with
          | Next s1 out rest => (mkServer s1 (<[n := rest]> (suspended c)), out)
          end
      | _ => (c, [])
      end
  end.

Fixpoint event_loop (ticks : list Tick) (c : Server) : Server * list Effect :=
  match ticks with
  | [] => (c, [])
  | t :: rest =>
      let '(c1, out1) := step t c in
      let '(c2, out2) := event_loop rest c1 in
      (c2, out1 ++ out2)
  end.

(** * The HTTP routes *)

(** What a route answers: [res.json({ success: true, ... })] with its body,
    or [res.status(code).json({ success: false, ... })]. *)
Inductive Response (A : Type) : Type :=
  | Json (body : A)
  | Status (code : Z).

Arguments Json {A} body.
Arguments Status {A} code.

(** The tables together with the sequence behind [conversations.id], which
    only the route that creates conversations draws from. *)
Record Store := mkStore {
  tables : Database;
  conversations_id_seq : Z
}.

(** ** [authenticateToken] *)

(** [String.prototype.split(' ')]: the pieces between single spaces, empty
    pieces included. *)
Fixpoint split_space (s : string) : list string :=
  match s with
  | EmptyString => [EmptyString]
  | String c rest =>
      if Ascii.eqb c Ascii.Space then EmptyString :: split_space rest
      else match split_space rest with
           | piece :: pieces => String c piece :: pieces
           | [] => [String c EmptyString]
           end
  end.

(** [authHeader && authHeader.split(' ')[1]]: [None] stands for
    [undefined]; an empty header is itself the falsy result. *)
Definition header_token (authHeader : option string) : option string :=
  match authHeader with
  | Some h => if bool_decide (h = EmptyString) then Some h else split_space h !! 1%nat
  | None => None
  end.

(** The middleware in front of the routes; [decode] gives the token that a
    text stands for under the secret of the server, [next] is the route,
    which reads [req.user.userId]. *)
Definition authenticateToken {A} (decode : string → Token) (authHeader : option string)
    (next : Z → Store → Store * Response A) (st : Store) : Store * Response A :=
  match header_token authHeader with
  | Some token =>
      if bool_decide (token = EmptyString) then (st, Status 401)
      else
        match jwt_verify (decode token) with
        | Some userId => next userId st
        | None => (st, Status 403)
        end
  | None => (st, Status 401)
  end.

(** ** [GET /conversations/:otherUserId] *)

(** [SELECT * FROM conversations
     WHERE (user1_id = $1 AND user2_id = $2) OR (user1_id = $2 AND user2_id = $1)] *)
Definition select_conversation_between (a b : Z) (d : Database) : list Conversation :=
  filter (λ c, (user1_id c = a ∧ user2_id c = b) ∨ (user1_id c = b ∧ user2_id c = a))
         (conversations d).

(** [INSERT INTO conversations (user1_id, user2_id) VALUES ($1, $2) RETURNING *]
    against the table declared with [id SERIAL PRIMARY KEY],
    [user1_id INTEGER REFERENCES users(id)],
    [user2_id INTEGER REFERENCES users(id)],
    [created_at TIMESTAMP DEFAULT CURRENT_TIMESTAMP] and
    [UNIQUE(user1_id, user2_id)].  The sequence advances also when a
    constraint rejects the row; [None] is the rejected insert. *)
Definition insert_conversation (user1 user2 : Z) (now : Z) (st : Store)
    : Store * option Conversation :=
  let d := tables st in
  let new_id := conversations_id_seq st in
  if bool_decide (new_id ∉ conv_id <$> conversations d)
     && bool_decide (user1 ∈ user_id <$> users d)
     && bool_decide (user2 ∈ user_id <$> users d)
     && bool_decide (Forall (λ c, ¬ (user1_id c = user1 ∧ user2_id c = user2))
                            (conversations d))
  then
    let row := mkConversation new_id user1 user2 now in
    (mkStore (mkDatabase (users d) (conversations d ++ [row]) (messages d)
                         (messages_id_seq d))
             (new_id + 1),
     Some row)
  else (mkStore d (new_id + 1), None).

(** The route after its first [await], with the rows that the SELECT
    returned. *)
Definition get_or_create_after_select (rows : list Conversation) (other : Z) (now : Z)
    (currentUserId : Z) (st : Store) : Store * Response Conversation :=
  match rows with
  | [] =>
      match insert_conversation currentUserId other now st with
      | (st1, Some conversation) => (st1, Json conversation)
      | (st1, None) => (st1, Status 500)
      end
  | conversation :: _ => (st, Json conversation)
  end.

(** The route.  [otherUserId] is the path parameter as the database reads
    it for an integer column: [None] when the text is no integer, which
    makes the first query throw.  [Some other] is meant with [other], and
    the user id of the token, within the INTEGER range; an integer outside
    it makes the first query throw as well, before any INSERT. *)
Definition get_or_create_conversation (otherUserId : option Z) (now : Z) (currentUserId : Z)
    (st : Store) : Store * Response Conversation :=
  match otherUserId with
  | None => (st, Status 500)
  | Some other =>
      get_or_create_after_select
        (select_conversation_between currentUserId other (tables st))
        other now currentUserId st
  end.

(** ** [GET /conversations/:conversationId/messages] *)

(** [SELECT * FROM conversations WHERE id = $1 AND (user1_id = $2 OR user2_id = $2)] *)
Definition select_own_conversation (conversationId currentUserId : Z) (d : Database)
    : list Conversation :=
  filter (λ c, conv_id c = conversationId
               ∧ (user1_id c = currentUserId ∨ user2_id c = currentUserId))
         (conversations d).

(** A row of [SELECT m.*, u.name as sender_name]. *)
Record MessageRow := mkMessageRow {
  row_message : Message;
  sender_name : string
}.

Definition earlier (r1 r2 : MessageRow) : Prop :=
  created_at (row_message r1) ≤ created_at (row_message r2).

#[global] Instance earlier_dec r1 r2 : Decision (earlier r1 r2).
Proof. unfold earlier. apply _. Defined.

(** [SELECT m.*, u.name as sender_name FROM messages m
     JOIN users u ON m.sender_id = u.id
     WHERE m.conversation_id = $1 ORDER BY m.created_at ASC];
    rows of equal [created_at] come in an order that the database chooses,
    here the order of the table. *)
Definition select_messages_of (conversationId : Z) (d : Database) : list MessageRow :=
  merge_sort earlier
    (m ← messages d;
     u ← users d;
     if bool_decide (sender_id m = Some (user_id u))
        && bool_decide (conversation_id m = Some conversationId)
     then [mkMessageRow m (name u)] else []).

(** The route; [conversationId] is the path parameter as the database
    reads it, as above. *)
Definition get_messages (conversationId : option Z) (currentUserId : Z) (st : Store)
    : Store * Response (list MessageRow) :=
  match conversationId with
  | None => (st, Status 500)
  | Some c =>
      match select_own_conversation c currentUserId (tables st) with
      | [] => (st, Status 403)
      | _ :: _ => (st, Json (select_messages_of c (tables st)))
      end
  end.

(** ** [GET /conversations] *)

(** A row of the conversation list; the e-mail and avatar columns and the
    columns of the last message other than its time are left out. *)
Record ConversationRow := mkConversationRow {
  cr_conversation_id : Z;
  cr_other_user_id : Z;
  cr_other_user_name : string;
  cr_other_user_online : bool;
  cr_other_user_last_seen : Z;
  cr_last_message_time : option Z;
  cr_unread_count : nat
}.

(** [SELECT created_at FROM messages WHERE conversation_id = c.id
     ORDER BY created_at DESC LIMIT 1] *)
Definition last_message_time (conversationId : Z) (d : Database) : option Z :=
  foldr (λ m latest,
           match latest with
           | Some t => Some (Z.max (created_at m) t)
           | None => Some (created_at m)
           end)
        None
        (filter (λ m, conversation_id m = Some conversationId) (messages d)).

(** [SELECT COUNT( * ) FROM messages
     WHERE conversation_id = c.id AND sender_id != $1 AND is_read = false] *)
Definition unread_count (conversationId currentUserId : Z) (d : Database) : nat :=
  length (filter (λ m, unread_from_other conversationId currentUserId m = true) (messages d)).

(** [ORDER BY last_msg.created_at DESC NULLS LAST] *)
Definition more_recent (r1 r2 : ConversationRow) : Prop :=
  match cr_last_message_time r1, cr_last_message_time r2 with
  | Some t1, Some t2 => t2 ≤ t1
  | Some _, None => True
  | None, Some _ => False
  | None, None => True
  end.

#[global] Instance more_recent_dec r1 r2 : Decision (more_recent r1 r2).
Proof.
  unfold more_recent.
  destruct (cr_last_message_time r1), (cr_last_message_time r2); apply _.
Defined.

(** The query of the route: the conversations of the user, joined with the
    row of the other participant. *)
Definition select_conversation_list (currentUserId : Z) (d : Database) : list ConversationRow :=
  merge_sort more_recent
    (c ← filter (λ c, user1_id c = currentUserId ∨ user2_id c = currentUserId)
                (conversations d);
     let other := if decide (user1_id c = currentUserId) then user2_id c else user1_id c in
     u ← filter (λ u, user_id u = other) (users d);
     [mkConversationRow (conv_id c) other (name u) (is_online u) (last_seen u)
                        (last_message_time (conv_id c) d)
                        (unread_count (conv_id c) currentUserId d)]).

Definition get_conversations (currentUserId : Z) (st : Store)
    : Store * Response (list ConversationRow) :=
  (st, Json (select_conversation_list currentUserId (tables st))).

(** * Starting the server *)

(** The outcome of one query through the Supabase client: a result without
    error, a result with [error] set, or an exception. *)
Inductive Probe := ProbeOk | ProbeError | ProbeThrows.

#[global] Instance Probe_eq_dec : EqDecision Probe.
Proof. solve_decision. Defined.

(** [testSupabaseConnection]: one query of [users]. *)
Definition testSupabaseConnection (users_probe : Probe) : bool :=
  match users_probe with
  | ProbeOk => true
  | ProbeError | ProbeThrows => false
  end.

(** [checkTablesExist]: one query for each of the required tables; a table
    counts as existing when its query returns without error. *)
Definition checkTablesExist (probe : string → Probe) : bool :=
  let requiredTables := ["users"; "conversations"; "messages"] in
  let existingTables :=
    filter (λ tableName, probe tableName = ProbeOk) requiredTables in
  bool_decide (length existingTables = length requiredTables).

Inductive DbType := Supabase | NoDb.

Record DbResult := mkDbResult {
  db_type : DbType;
  connected : bool;
  tablesReady : option bool
}.

(** [testDBConnection]; [first] is the query of [testSupabaseConnection],
    [probe] gives the queries of [checkTablesExist]. *)
Definition testDBConnection (first : Probe) (probe : string → Probe) : DbResult :=
  if testSupabaseConnection first then
    if checkTablesExist probe
    then mkDbResult Supabase true (Some true)
    else mkDbResult Supabase true (Some false)
  else mkDbResult NoDb false None.

(** What the callback of [server.listen] leaves behind. *)
Inductive Startup :=
  | Listening           (* the callback returned; no sweep was started *)
  | ListeningAndSweeping (* [startHeartbeatCleanup] was called *)
  | Exited.             (* [process.exit(1)] *)

Definition on_listen (first : Probe) (probe : string → Probe) : Startup :=
  let dbResult := testDBConnection first probe in
  if negb (connected dbResult) then Listening
  else
    match db_type dbResult with
    | Supabase => ListeningAndSweeping
    | NoDb => Exited
    end.

(** * The Supabase schema *)

(** A row of [conversations] as [supabase-setup.sql] declares the table;
    every column but [id] may be NULL. *)
Record ConversationRecord := mkConversationRecord {
  cs_id : Z;
  cs_user1_id : option Z;
  cs_user2_id : option Z;
  cs_last_message : option string;
  cs_last_message_time : option Z;
  cs_last_message_sender_id : option Z;
  cs_last_message_delivered : option bool;
  cs_last_message_read : option bool;
  cs_unread_count : option Z;
  cs_created_at : option Z
}.

(** [a != b] in a WHERE clause: true only when neither side is NULL. *)
Definition sql_differs (a b : option Z) : bool :=
  match a, b with
  | Some x, Some y => bool_decide (x ≠ y)
  | _, _ => false
  end.

(** The trigger function [update_conversation_last_message], run
    [AFTER INSERT ON messages FOR EACH ROW] with the inserted row as [NEW]:
    two UPDATE statements, one after the other. *)
Definition update_conversation_last_message (new : Message)
    (cs : list ConversationRecord) : list ConversationRecord :=
  let cs1 :=
    map (λ c, if bool_decide (conversation_id new = Some (cs_id c))
              then mkConversationRecord (cs_id c) (cs_user1_id c) (cs_user2_id c)
                     (Some (content new)) (Some (created_at new)) (sender_id new)
                     (Some (is_delivered new)) (Some (is_read new))
                     (cs_unread_count c) (cs_created_at c)
              else c) cs in
  map (λ c, if bool_decide (conversation_id new = Some (cs_id c))
               && sql_differs (cs_last_message_sender_id c) (cs_user1_id c)
               && sql_differs (cs_last_message_sender_id c) (cs_user2_id c)
            then mkConversationRecord (cs_id c) (cs_user1_id c) (cs_user2_id c)
                   (cs_last_message c) (cs_last_message_time c)
                   (cs_last_message_sender_id c)
                   (cs_last_message_delivered c) (cs_last_message_read c)
                   ((λ n, n + 1) <$> cs_unread_count c) (cs_created_at c)
            else c) cs1.

(** * Vocabulary of the properties *)

(** ** Delivery states *)

(** The delivery state shown to clients, as the pair of flags encodes it. *)
Inductive DeliveryState := StateSent | StateDelivered | StateRead.

Definition deliveryState (m : Message) : DeliveryState :=
  if is_read m then StateRead
  else if is_delivered m then StateDelivered
  else StateSent.

Definition rank (st : DeliveryState) : Z :=
  match st with
  | StateSent => 0
  | StateDelivered => 1
  | StateRead => 2
  end.

#[global] Instance DeliveryState_eq_dec : EqDecision DeliveryState.
Proof. solve_decision. Defined.

(** The delivery states of the message [messageId] that are seen after each
    input of a run. *)
Fixpoint observed_states (messageId : Z) (inputs : list Input) (s : State)
    : list DeliveryState :=
  match inputs with
  | [] => []
  | i :: rest =>
      let s1 := (handle i s).1 in
      (deliveryState <$> select_message messageId (db s1))
        ++ observed_states messageId rest s1
  end.

(** The sequence of values taken: consecutive repetitions count once. *)
Fixpoint changes (l : list DeliveryState) : list DeliveryState :=
  match l with
  | [] => []
  | x :: rest =>
      match rest with
      | y :: _ => if decide (x = y) then changes rest else x :: changes rest
      | [] => [x]
      end
  end.

(** ** The store over time *)

(** [msg_le m m']: [m'] is a later version of the row [m]. *)
Record msg_le (m m' : Message) : Prop := mk_msg_le {
  le_id : msg_id m' = msg_id m;
  le_conversation : conversation_id m' = conversation_id m;
  le_sender : sender_id m' = sender_id m;
  le_delivered : is_delivered m = true → is_delivered m' = true;
  le_read : is_read m = true → is_read m' = true
}.

(** A row inserted between the stores [d] and [d']. *)
Definition fresh_row (d d' : Database) (m : Message) : Prop :=
  messages_id_seq d ≤ msg_id m < messages_id_seq d'
  ∧ fk_ok (conversation_id m) (conv_id <$> conversations d) = true.

(** [db_evolves d d']: [d'] is reached from [d] by updates of rows that keep
    their identity and never reset a flag, and by inserts of rows with
    fresh ids. *)
Record db_evolves (d d' : Database) : Prop := mk_db_evolves {
  ev_conversations : conversations d' = conversations d;
  ev_users : user_id <$> users d' = user_id <$> users d;
  ev_seq : messages_id_seq d ≤ messages_id_seq d';
  ev_messages : ∃ pre extra,
      messages d' = pre ++ extra
      ∧ Forall2 msg_le (messages d) pre
      ∧ Forall (fresh_row d d') extra
      ∧ NoDup (msg_id <$> extra)
}.

(** The integrity constraints of the schema that the handlers rely on:
    primary keys, the sequence behind [messages.id], and the foreign key
    from [messages.conversation_id]. *)
Record wf_db (d : Database) : Prop := mk_wf_db {
  wf_msg_ids : NoDup (msg_id <$> messages d);
  wf_conv_ids : NoDup (conv_id <$> conversations d);
  wf_seq : Forall (λ m, msg_id m < messages_id_seq d) (messages d);
  wf_fk : Forall (λ m, fk_ok (conversation_id m) (conv_id <$> conversations d) = true)
                 (messages d)
}.

(** The message id can still receive its delivery write: the id is not yet
    handed out, or a row with the id is not marked delivered. *)
Definition can_deliver (d : Database) (k : Z) : Prop :=
  messages_id_seq d ≤ k
  ∨ ∃ m, m ∈ messages d ∧ msg_id m = k ∧ is_delivered m = false.

(** ** Users, conversations and the registry *)

(** Every reverse entry [socketId -> userId] is matched by the forward
    entry [userId -> socketId]. *)
Definition registry_inv (s : State) : Prop :=
  ∀ sid userId, userSockets s !! sid = Some userId → connectedUsers s !! userId = Some sid.


(** [rows.length > 0 && rows[0].is_online] for
    [SELECT is_online FROM users WHERE id = $1]. *)
Definition store_online (d : Database) (userId : Z) : bool :=
  match select_user userId d with
  | u :: _ => is_online u
  | [] => false
  end.

(** [conv.user1_id === senderId ? conv.user2_id : conv.user1_id] *)
Definition other_participant (conv : Conversation) (senderId : option Z) : Z :=
  if decide (Some (user1_id conv) = senderId) then user2_id conv else user1_id conv.

(** The user takes part in the conversation. *)
Definition participant (d : Database) (conversationId userId : Z) : Prop :=
  ∃ conv, conv ∈ conversations d ∧ conv_id conv = conversationId
          ∧ (user1_id conv = userId ∨ user2_id conv = userId).

(** Two users share a conversation. *)
Definition shares_conversation (d : Database) (userId partner : Z) : Prop :=
  ∃ conv, conv ∈ conversations d
          ∧ ((user1_id conv = userId ∧ user2_id conv = partner)
             ∨ (user2_id conv = userId ∧ user1_id conv = partner)).

(** The message is addressed to the user: it belongs to a conversation the
    user takes part in and was authored by someone else. *)
Definition addressed_to (d : Database) (userId : Z) (m : Message) : Prop :=
  ∃ conversationId sender,
    conversation_id m = Some conversationId ∧ participant d conversationId userId
    ∧ sender_id m = Some sender ∧ sender ≠ userId.

(** The row is selected by the replay query for the user. *)
Definition is_pending (userId : Z) (d : Database) (m : Message) : Prop :=
  Exists (λ c, pending_row userId m c = true) (conversations d).

(** The ids that a ['message:read'] for the conversation and reader
    transitions. *)
Definition unread_ids (d : Database) (conversationId userId : Z) : list Z :=
  msg_id <$> filter (λ m, unread_from_other conversationId userId m = true) (messages d).

(** The row that an accepted ['message:send'] inserts. *)
Definition sent_row (d : Database) (conversationId senderId : option Z) (txt : string)
    (now : Z) : Message :=
  mkMessage (messages_id_seq d) conversationId senderId txt false false None None now.

(** ** Effects *)

(** The Socket.IO part of a list of effects. *)
Definition is_sql (e : Effect) : bool :=
  match e with
  | Sql _ => true
  | _ => false
  end.

Definition emissions (out : list Effect) : list Effect :=
  filter (λ e, is_sql e = false) out.

(** The event carried by a Socket.IO emission. *)
Definition event_of (e : Effect) : option ServerEvent :=
  match e with
  | SocketEmit _ ev | SocketTo _ _ ev | IoTo _ ev | IoEmit ev => Some ev
  | _ => None
  end.

(** A ['message:delivered'] event for the message. *)
Definition is_delivered_event (messageId : Z) (e : Effect) : bool :=
  match event_of e with
  | Some (MessageDelivered k _) => bool_decide (k = messageId)
  | _ => false
  end.

(** The writes of [delivered_at] for a message, and the delivered
    notifications meant for its sender: a ['message:delivered'] event, or
    the ['message:new'] with [deliveryStatus: 'delivered'] that the sending
    socket is answered with.  The copy that [io.to] addresses to the other
    participant's socket is not among them; [is_recipient_copy] counts
    it. *)
Definition is_delivered_write (messageId : Z) (e : Effect) : bool :=
  match e with
  | Sql (SetDelivered k _) => bool_decide (k = messageId)
  | _ => false
  end.

Definition is_sender_notice (messageId : Z) (e : Effect) : bool :=
  match e with
  | SocketEmit _ (MessageNew (Some row) _ Delivered) => bool_decide (msg_id row = messageId)
  | _ => is_delivered_event messageId e
  end.

(** The ['message:new'] with [deliveryStatus: 'delivered'] that
    [io.to(recipientSocketId)] addresses to the socket registered for the
    other participant.  It is no notice for the sender, yet it reaches the
    sender's socket too when that is the socket registered for the other
    participant: in a conversation of a user with themselves, or when both
    participants signed in on one socket. *)
Definition is_recipient_copy (messageId : Z) (e : Effect) : bool :=
  match e with
  | IoTo _ (MessageNew (Some row) _ Delivered) => bool_decide (msg_id row = messageId)
  | _ => false
  end.

Definition count (p : Effect → bool) (out : list Effect) : nat :=
  length (filter (λ e, p e = true) out).

(** An effect that neither writes a delivery nor announces one. *)
Definition inert (e : Effect) : bool :=
  match e with
  | Sql (SetDelivered _ _) => false
  | _ =>
      match event_of e with
      | Some (MessageDelivered _ _) | Some (MessageNew _ _ Delivered) => false
      | _ => true
      end
  end.

(** What one round of the replay loop does for a row. *)
Definition row_effects (registry : gmap Z SocketId) (now : Z) (message : Message) : list Effect :=
  Sql (SetDelivered (msg_id message) now)
  :: match sender_id message ≫= (λ senderId, registry !! senderId) with
     | Some socketId =>
         [IoTo (Some socketId) (MessageDelivered (msg_id message) (conversation_id message))]
     | None => []
     end.

(** Effects [out], leading from the store [d] to the store [d'], write the
    delivery of message [k] at most once, announce it to the sender no more
    often than they write it, and write it only if it was still open, after
    which it is closed. *)
Definition delivers_once (k : Z) (d : Database) (out : list Effect) (d' : Database) : Prop :=
  (count (is_delivered_write k) out ≤ 1)%nat
  ∧ (count (is_sender_notice k) out ≤ count (is_delivered_write k) out)%nat
  ∧ ((0 < count (is_delivered_write k) out)%nat → can_deliver d k ∧ ¬ can_deliver d' k).

(** ** The claims that fail, as they are worded *)


(** "The sequence of deliveryState values a message takes is a prefix of
    [sent, delivered, read]." *)
Definition takes_prefix_of_lifecycle (messageId : Z) (inputs : list Input) (s : State) : Prop :=
  changes (observed_states messageId inputs s)
    `prefix_of` [StateSent; StateDelivered; StateRead].

(** "Only if at least one message transitioned are the two notifications
    emitted", here for the conversation-level broadcast. *)
Definition broadcast_only_on_transition (s : State) (sid : SocketId) (now : Z)
    (conversationId userId : Z) : Prop :=
  let r := handle (FromClient sid now (MessageReadEv conversationId userId)) s in
  IoEmit (MessageReadBroadcast conversationId userId) ∈ r.2 →
  ∃ m, m ∈ messages (db s) ∧ unread_from_other conversationId userId m = true.

(** "An action referencing a conversation the acting user is not a
    participant of is rejected before any mutation: no message row is
    inserted or updated." *)
Definition non_participant_rejected (s : State) (sid : SocketId) (now : Z)
    (e : ClientEvent) : Prop :=
  match e with
  | MessageSend (Some conversationId) _ (Some userId)
  | MessageReadEv conversationId userId =>
      ¬ participant (db s) conversationId userId →
      messages (db (handle (FromClient sid now e) s).1) = messages (db s)
  | _ => True
  end.

(** "A message:send whose conversationId has no conversation record is
    nonetheless persisted in sent state, yet no event at all is emitted." *)
Definition unknown_conversation_persists_silently (s : State) (sid : SocketId) (now : Z)
    (conversationId : option Z) (text : option string) (senderId : option Z) : Prop :=
  select_conversation conversationId (db s) = [] →
  let r := handle (FromClient sid now (MessageSend conversationId text senderId)) s in
  (∃ m, m ∈ messages (db (r.1)) ∧ msg_id m = messages_id_seq (db s)
        ∧ deliveryState m = StateSent)
  ∧ emissions (r.2) = [].

(** ** Sample data *)

Definition sample_db : Database :=
  mkDatabase [mkUser 1 "Alice" false 0; mkUser 2 "Bob" false 0; mkUser 3 "Carol" false 0]
             [mkConversation 10 1 2 0]
             []
             1.

(** Alice signs in on socket 1. *)
Definition alice_online : list Input :=
  [Connection 1; FromClient 1 5 (Authenticate (SignedFor 1))].

(** Bob signs in on socket 2. *)
Definition bob_online : list Input :=
  [Connection 2; FromClient 2 5 (Authenticate (SignedFor 2))].

(** Carol, who has no conversation, signs in on socket 3. *)
Definition carol_online : list Input :=
  [Connection 3; FromClient 3 5 (Authenticate (SignedFor 3))].

(** Bob is signed in on socket 2; socket 3 is connected and has not
    authenticated. *)
Definition anonymous_socket : list Input :=
  [Connection 2; Connection 3; FromClient 2 5 (Authenticate (SignedFor 2))].

(** Alice is signed in on socket 1 and signs in again on socket 2. *)
Definition alice_twice : list Input :=
  [Connection 1; Connection 2; FromClient 1 5 (Authenticate (SignedFor 1))].

(** Bob (user 2) signs in on socket 2 and puts the application in the
    background; Alice (user 1) signs in on socket 1. *)
Definition bob_in_background : list Input :=
  [Connection 1; Connection 2;
   FromClient 2 5 (Authenticate (SignedFor 2));
   FromClient 2 6 (AppStateChange Background);
   FromClient 1 7 (Authenticate (SignedFor 1))].

(** Alice writes to Bob, who is not signed in, and stays connected. *)
Definition message_waiting : list Input :=
  [Connection 1; Connection 2;
   FromClient 1 5 (Authenticate (SignedFor 1));
   FromClient 1 8 (MessageSend (Some 10) (Some "hi") (Some 1))].

(** Alice writes to Bob, who is not signed in; a ['message:read'] for Bob
    then arrives on socket 2. *)
Definition read_before_delivery : list Input :=
  [Connection 1; Connection 2;
   FromClient 1 5 (Authenticate (SignedFor 1));
   FromClient 1 8 (MessageSend (Some 10) (Some "hi") (Some 1));
   FromClient 2 9 (MessageReadEv 10 2)].

(** Alice and Bob sign in; Alice starts typing in conversation 10; Bob's
    client keeps sending heartbeats, Alice's client falls silent. *)
Definition alice_falls_silent : list Input :=
  [Connection 1; Connection 2;
   FromClient 1 0 (Authenticate (SignedFor 1));
   FromClient 2 0 (Authenticate (SignedFor 2));
   FromClient 1 1000 (TypingStart 10 1);
   FromClient 2 30000 Heartbeat].

(** Alice sends a message to Bob, who is not signed in; Bob signs in after
    the INSERT of Alice's handler and before its SELECT of [is_online]. *)
Definition racing_replay : list Tick :=
  [Arrive (Connection 1); Arrive (Connection 2);
   Arrive (FromClient 1 5 (Authenticate (SignedFor 1)));
   Arrive (FromClient 1 8 (MessageSend (Some 10) (Some "hi") (Some 1)));
   Resume 0 8;
   Arrive (FromClient 2 9 (Authenticate (SignedFor 2)));
   Resume 0 10; Resume 0 10; Resume 0 10; Resume 0 10].

(** ** Heartbeats *)

(** [now - lastHeartbeat > HEARTBEAT_TIMEOUT] *)
Definition expired (now : Z) (e : Z * Z) : Prop :=
  now - e.2 > HEARTBEAT_TIMEOUT.

#[global] Instance expired_dec now e : Decision (expired now e).
Proof. unfold expired. apply _. Defined.

(** The users that a sweep at time [now] over [entries] evicts. *)
Definition expired_users (now : Z) (entries : list (Z * Z)) : list Z :=
  (filter (expired now) entries).*1.

(** The heartbeat map has one entry per user, and exactly the users with a
    registered connection have one. *)
Definition heartbeat_inv (s : State) : Prop :=
  NoDup (userHeartbeats s).*1
  ∧ ∀ userId, userId ∈ (userHeartbeats s).*1 ↔ is_Some (connectedUsers s !! userId).

(** ** The online flag *)

(** Every user whose row says [is_online] has a registered connection. *)
Definition online_registered (s : State) : Prop :=
  ∀ usr, usr ∈ users (db s) → is_online usr = true →
    is_Some (connectedUsers s !! user_id usr).

(** ** Messages over time *)

(** [msg_kept m m']: the row [m'] is the row [m] with nothing rewritten:
    identity, conversation, author, text and creation time are the same, and
    a delivery or read mark that was set is still set, with its time. *)
Record msg_kept (m m' : Message) : Prop := mk_msg_kept {
  kept_id : msg_id m' = msg_id m;
  kept_conversation : conversation_id m' = conversation_id m;
  kept_sender : sender_id m' = sender_id m;
  kept_content : content m' = content m;
  kept_created : created_at m' = created_at m;
  kept_delivered :
    is_delivered m = true → is_delivered m' = true ∧ delivered_at m' = delivered_at m;
  kept_read : is_read m = true → is_read m' = true ∧ read_at m' = read_at m
}.

(** The [messages] table of [d'] is the one of [d], every row kept in its
    place, followed by new rows. *)
Definition append_only (d d' : Database) : Prop :=
  ∃ pre extra, messages d' = pre ++ extra ∧ Forall2 msg_kept (messages d) pre.

(** ** Requests *)

(** The order of the creation times is total and transitive. *)
#[global] Instance earlier_total : Total earlier.
Proof. intros r1 r2. unfold earlier. lia. Qed.

#[global] Instance earlier_trans : Transitive earlier.
Proof. intros r1 r2 r3. unfold earlier. lia. Qed.

(** The text has no space in it. *)
Fixpoint no_space (s : string) : bool :=
  match s with
  | EmptyString => true
  | String c rest => negb (Ascii.eqb c Ascii.Space) && no_space rest
  end.

(** The sequence behind [conversations.id] is ahead of the ids in use. *)
Definition seq_ahead (st : Store) : Prop :=
  Forall (λ c, conv_id c < conversations_id_seq st) (conversations (tables st)).

(** The conversation is between the two users, in either order. *)
Definition between (a b : Z) (c : Conversation) : Prop :=
  (user1_id c = a ∧ user2_id c = b) ∨ (user1_id c = b ∧ user2_id c = a).

(** No two rows of [conversations] are between the same two users, and no
    two rows have the same id. *)
Definition one_conversation_per_pair (d : Database) : Prop :=
  NoDup (conv_id <$> conversations d)
  ∧ ∀ c1 c2, c1 ∈ conversations d → c2 ∈ conversations d →
      between (user1_id c1) (user2_id c1) c2 → c1 = c2.

(** The sample tables with the conversation sequence at 11, and a way to
    read tokens: the text ["alice"] is a token signed for user 1, ["bob"]
    one for user 2, ["carol"] one for user 3, and no other text verifies. *)
Definition sample_store : Store := mkStore sample_db 11.

Definition sample_decode (token : string) : Token :=
  if bool_decide (token = "alice") then SignedFor 1
  else if bool_decide (token = "bob") then SignedFor 2
  else if bool_decide (token = "carol") then SignedFor 3
  else Invalid.

(** Alice writes to Bob, who is not signed in.  Bob signs in on socket 2,
    and his client reports ['app_state_change'] [active] while the
    ['authenticate'] handler is suspended between the SELECT of the replay
    and its first UPDATE.  The handler of position 0 is Alice's
    ['authenticate'], 1 her ['message:send'], 2 Bob's ['authenticate'] and 3
    his ['app_state_change']. *)
Definition overlapping_replays : list Tick :=
  [Arrive (Connection 1); Arrive (Connection 2);
   Arrive (FromClient 1 5 (Authenticate (SignedFor 1)));
   Resume 0 5; Resume 0 5; Resume 0 5; Resume 0 5;
   Arrive (FromClient 1 8 (MessageSend (Some 10) (Some "hi") (Some 1)));
   Resume 1 8; Resume 1 8; Resume 1 8;
   Arrive (FromClient 2 9 (Authenticate (SignedFor 2)));
   Resume 2 9;      (* UPDATE users SET is_online = true *)
   Resume 2 9;      (* the SELECT of the replay returns message 1 *)
   Arrive (FromClient 2 10 (AppStateChange Active));
   Resume 3 10;     (* UPDATE users SET is_online = true *)
   Resume 3 10;     (* the SELECT of the replay returns message 1 again *)
   Resume 2 11;     (* UPDATE of message 1, message:delivered to Alice *)
   Resume 3 12;     (* UPDATE of message 1, message:delivered to Alice *)
   Resume 2 13; Resume 2 13;
   Resume 3 14; Resume 3 14].

(** Carol, signed in on socket 1, loses her connection and signs in again
    on socket 2 while the ['disconnect'] handler of socket 1 is suspended
    at its UPDATE.  The handler of position 0 is the first ['authenticate'],
    1 the ['disconnect'] and 2 the second ['authenticate']. *)
Definition reconnect_during_disconnect : list Tick :=
  [Arrive (Connection 1);
   Arrive (FromClient 1 0 (Authenticate (SignedFor 3)));
   Resume 0 0; Resume 0 0; Resume 0 0;
   Arrive (FromClient 1 5 Disconnect);
   Arrive (Connection 2);
   Arrive (FromClient 2 6 (Authenticate (SignedFor 3)));
   Resume 2 6; Resume 2 6; Resume 2 6;
   Resume 1 7].     (* the disconnect of socket 1 goes on after its UPDATE *)

(** Carol then signs in a third time, on socket 3 (position 3). *)
Definition third_sign_in : list Tick :=
  [Arrive (Connection 3);
   Arrive (FromClient 3 8 (Authenticate (SignedFor 3)));
   Resume 3 8; Resume 3 8; Resume 3 8].

(** ** Ranges *)

(** The number fits the INTEGER columns of the schema.  A query with a
    parameter outside this range fails before it touches a table. *)
Definition in_INTEGER (n : Z) : Prop := -2147483648 ≤ n ≤ 2147483647.

(** A socket is closed by the server. *)
Definition is_close (e : Effect) : bool :=
  match e with
  | SocketClose _ => true
  | _ => false
  end.

(** * Properties *)

Ltac proj_simpl :=
  cbn [db connectedUsers userSockets userHeartbeats userTypingStatus sockets
       set_db set_connectedUsers set_userSockets set_userHeartbeats
       set_userTypingStatus set_sockets
       users conversations messages messages_id_seq set_users set_messages
       fst snd] in *.

(** ** Lists *)

Lemma filter_none {A} (P : A → Prop) `{∀ x, Decision (P x)} (l : list A) :
  (∀ x, x ∈ l → ¬ P x) → filter P l = [].
Proof.
  intros Hno. apply elem_of_nil_inv. intros x Hx.
  apply list_elem_of_filter in Hx as [HP Hx]. by apply (Hno x).
Qed.

(** ** How the store evolves *)

Lemma msg_le_refl m : msg_le m m.
Proof. by constructor. Qed.

Lemma msg_le_trans m1 m2 m3 : msg_le m1 m2 → msg_le m2 m3 → msg_le m1 m3.
Proof.
  intros [] []; constructor; try congruence; auto.
Qed.

Lemma msg_le_deliver now m : msg_le m (deliver now m).
Proof. by constructor. Qed.

Lemma msg_le_read now m : msg_le m (read now m).
Proof. by constructor. Qed.

Lemma msg_le_rank m m' : msg_le m m' → rank (deliveryState m) ≤ rank (deliveryState m').
Proof.
  intros [_ _ _ Hd Hr]. unfold deliveryState.
  destruct (is_read m), (is_delivered m), (is_read m') eqn:?, (is_delivered m') eqn:?;
    cbn; try lia; try (specialize (Hr eq_refl); discriminate);
    try (specialize (Hd eq_refl); discriminate).
Qed.

Lemma Forall2_msg_le_refl (l : list Message) : Forall2 msg_le l l.
Proof. induction l; constructor; auto using msg_le_refl. Qed.

Lemma Forall2_msg_le_trans (l1 l2 l3 : list Message) :
  Forall2 msg_le l1 l2 → Forall2 msg_le l2 l3 → Forall2 msg_le l1 l3.
Proof.
  intros H12. revert l3. induction H12; intros l3 H23; inversion H23; subst;
    constructor; eauto using msg_le_trans.
Qed.

Lemma Forall2_msg_le_ids (l l' : list Message) :
  Forall2 msg_le l l' → msg_id <$> l' = msg_id <$> l.
Proof.
  induction 1 as [|m m' l l' Hm _ IH]; [done|].
  cbn. rewrite IH. by destruct Hm as [-> _ _ _ _].
Qed.

Lemma Forall2_msg_le_map (f : Message → Message) (l : list Message) :
  (∀ m, msg_le m (f m)) → Forall2 msg_le l (map f l).
Proof. intros Hf. induction l; constructor; auto. Qed.

Lemma db_evolves_refl d : db_evolves d d.
Proof.
  constructor; try done; try lia.
  exists (messages d), []. rewrite app_nil_r.
  split_and!; auto using Forall2_msg_le_refl. constructor.
Qed.

Lemma db_evolves_trans d1 d2 d3 : db_evolves d1 d2 → db_evolves d2 d3 → db_evolves d1 d3.
Proof.
  intros [Hc1 Hu1 Hs1 (pre1 & ex1 & Hm1 & Hp1 & Hx1 & Hn1)]
         [Hc2 Hu2 Hs2 (pre2 & ex2 & Hm2 & Hp2 & Hx2 & Hn2)].
  constructor; try congruence; try lia.
  rewrite Hm1 in Hp2.
  apply Forall2_app_inv_l in Hp2 as (pa & pb & Hpa & Hpb & ->).
  exists pa, (pb ++ ex2). split_and!.
  - by rewrite Hm2, <- app_assoc.
  - eauto using Forall2_msg_le_trans.
  - apply Forall_app. split.
    + clear -Hx1 Hpb Hs2. induction Hpb as [|m m' l l' Hm _ IH]; [constructor|].
      inversion Hx1 as [|? ? [Hr Hf] Hx]; subst. constructor; [|auto].
      destruct Hm as [Hi Hcv _ _ _]. split; [lia|]. by rewrite Hcv.
    + eapply Forall_impl; [exact Hx2|]. intros m [Hr Hf]. split; [lia|].
      by rewrite <- Hc1.
  - rewrite fmap_app. apply NoDup_app. split_and!.
    + by rewrite (Forall2_msg_le_ids _ _ Hpb).
    + intros i Hi1 Hi2. rewrite (Forall2_msg_le_ids _ _ Hpb) in Hi1.
      apply list_elem_of_fmap in Hi1 as (m1 & -> & Hm1').
      apply list_elem_of_fmap in Hi2 as (m2 & Heq & Hm2').
      rewrite Forall_forall in Hx1, Hx2.
      destruct (Hx1 _ Hm1') as [? _]. destruct (Hx2 _ Hm2') as [? _]. lia.
    + done.
Qed.

Lemma wf_db_evolves d d' : wf_db d → db_evolves d d' → wf_db d'.
Proof.
  intros [Hn Hc Hs Hf] [Hcv _ Hseq (pre & extra & Hm & Hp & Hx & Hnx)].
  pose proof (Forall2_msg_le_ids _ _ Hp) as Hids.
  constructor.
  - rewrite Hm, fmap_app, Hids. apply NoDup_app. split_and!; [done| |done].
    intros i Hi1 Hi2.
    apply list_elem_of_fmap in Hi1 as (m1 & -> & Hm1).
    apply list_elem_of_fmap in Hi2 as (m2 & Heq & Hm2).
    rewrite Forall_forall in Hs, Hx.
    specialize (Hs _ Hm1). destruct (Hx _ Hm2) as [? _]. lia.
  - by rewrite Hcv.
  - rewrite Hm. apply Forall_app. split.
    + clear -Hp Hs Hseq. induction Hp as [|m m' l l' Hmm _ IH]; [constructor|].
      inversion Hs; subst. constructor; [|auto]. destruct Hmm as [Hi _ _ _ _]. lia.
    + eapply Forall_impl; [exact Hx|]. intros m [? _]. lia.
  - rewrite Hm, Hcv. apply Forall_app. split.
    + clear -Hp Hf. induction Hp as [|m m' l l' Hmm _ IH]; [constructor|].
      inversion Hf; subst. constructor; [|auto]. destruct Hmm as [_ Hcv _ _ _].
      by rewrite Hcv.
    + eapply Forall_impl; [exact Hx|]. by intros m [_ ?].
Qed.

(** Each statement of the handlers makes the store evolve. *)

Lemma user_ids_map (f : User → User) (l : list User) :
  (∀ u, user_id (f u) = user_id u) → user_id <$> map f l = user_id <$> l.
Proof. intros Hf. induction l; cbn; [done|]. by rewrite Hf, IHl. Qed.

Lemma db_evolves_users (f : User → User) d :
  (∀ u, user_id (f u) = user_id u) → db_evolves d (set_users (map f) d).
Proof.
  intros Hf. constructor; proj_simpl; try done; try lia.
  - by apply user_ids_map.
  - exists (messages d), []. rewrite app_nil_r.
    split_and!; auto using Forall2_msg_le_refl. constructor.
Qed.

Lemma db_evolves_set_user_online userId b now d :
  db_evolves d (set_user_online userId b now d).
Proof. apply db_evolves_users. intros u. by case_decide. Qed.

Lemma db_evolves_touch_last_seen userId now d :
  db_evolves d (touch_last_seen userId now d).
Proof. apply db_evolves_users. intros u. by case_decide. Qed.

Lemma db_evolves_messages (f : Message → Message) d :
  (∀ m, msg_le m (f m)) → db_evolves d (set_messages (map f) d).
Proof.
  intros Hf. constructor; proj_simpl; try done; try lia.
  exists (map f (messages d)), []. rewrite app_nil_r.
  split_and!; auto using Forall2_msg_le_map. constructor.
Qed.

Lemma db_evolves_mark_delivered messageId now d :
  db_evolves d (mark_delivered messageId now d).
Proof.
  apply db_evolves_messages. intros m.
  case_decide; auto using msg_le_refl, msg_le_deliver.
Qed.

Lemma db_evolves_mark_read conversationId userId now d :
  db_evolves d (mark_read conversationId userId now d).1.
Proof.
  apply db_evolves_messages. intros m.
  destruct (unread_from_other _ _ m); auto using msg_le_refl, msg_le_read.
Qed.

Lemma db_evolves_insert_message conversationId senderId text now d :
  db_evolves d (insert_message conversationId senderId text now d).1.
Proof.
  assert (Hskip : db_evolves d (mkDatabase (users d) (conversations d) (messages d)
                                            (messages_id_seq d + 1))).
  { constructor; proj_simpl; try done; try lia.
    exists (messages d), []. rewrite app_nil_r.
    split_and!; auto using Forall2_msg_le_refl. constructor. }
  unfold insert_message. destruct text as [txt|]; [|done].
  destruct (fk_ok conversationId _ && fk_ok senderId _) eqn:Hfk; [|done].
  apply andb_prop in Hfk as [Hfk _].
  constructor; proj_simpl; try done; try lia.
  eexists (messages d), [_]. split_and!; [done|apply Forall2_msg_le_refl| |].
  - constructor; [|constructor]. split; cbn; [lia|done].
  - cbn. apply NoDup_singleton.
Qed.

(** The registry maps and the set of sockets are left alone by the replay,
    which only writes to the store. *)
Lemma deliver_rows_frame rows now s :
  let s' := (deliver_rows rows now s).1 in
  connectedUsers s' = connectedUsers s ∧ userSockets s' = userSockets s
  ∧ userHeartbeats s' = userHeartbeats s ∧ userTypingStatus s' = userTypingStatus s
  ∧ sockets s' = sockets s ∧ db_evolves (db s) (db s').
Proof.
  revert s. induction rows as [|message rest IH]; intros s; cbn.
  - split_and!; auto using db_evolves_refl.
  - specialize (IH (set_db (mark_delivered (msg_id message) now (db s)) s)).
    destruct (deliver_rows rest now _) as [s2 out]. proj_simpl.
    destruct IH as (-> & -> & -> & -> & -> & Hev). split_and!; try done.
    eapply db_evolves_trans; [apply db_evolves_mark_delivered|exact Hev].
Qed.

Lemma deliverPendingMessages_frame userId now s :
  let s' := (deliverPendingMessages userId now s).1 in
  connectedUsers s' = connectedUsers s ∧ userSockets s' = userSockets s
  ∧ userHeartbeats s' = userHeartbeats s ∧ userTypingStatus s' = userTypingStatus s
  ∧ sockets s' = sockets s ∧ db_evolves (db s) (db s').
Proof. apply deliver_rows_frame. Qed.

Lemma on_disconnect_evolves sid now s : db_evolves (db s) (db (on_disconnect sid now s).1).
Proof.
  unfold on_disconnect. destruct (userSockets s !! sid) as [userId|]; [|apply db_evolves_refl].
  destruct (truthy userId); [|apply db_evolves_refl]. proj_simpl.
  destruct (userTypingStatus s !! userId); proj_simpl; apply db_evolves_set_user_online.
Qed.

Lemma close_socket_evolves sid now s : db_evolves (db s) (db (close_socket sid now s).1).
Proof.
  unfold close_socket.
  pose proof (on_disconnect_evolves sid now (set_sockets (sockets s ∖ {[sid]}) s)) as H.
  by destruct (on_disconnect _ _ _).
Qed.

Lemma cleanup_existing_evolves sid userId now s :
  db_evolves (db s) (db (cleanup_existing sid userId now s).1).
Proof.
  unfold cleanup_existing.
  destruct (connectedUsers s !! userId) as [ex|]; [|apply db_evolves_refl].
  case_decide; [|apply db_evolves_refl].
  case_decide; [|apply db_evolves_refl].
  apply (close_socket_evolves ex now (set_userSockets _ s)).
Qed.

Lemma on_authenticate_evolves sid token now s :
  db_evolves (db s) (db (on_authenticate sid token now s).1).
Proof.
  unfold on_authenticate. destruct (jwt_verify token) as [userId|]; [|apply db_evolves_refl].
  pose proof (cleanup_existing_evolves sid userId now s) as Hpre.
  destruct (cleanup_existing sid userId now s) as [s1 out1].
  proj_simpl.
  match goal with |- context [deliverPendingMessages ?u ?n ?x] =>
    pose proof (deliverPendingMessages_frame u n x) as Hd;
    destruct (deliverPendingMessages u n x) as [s6 out6] end.
  proj_simpl. destruct Hd as (_ & _ & _ & _ & _ & Hd).
  eapply db_evolves_trans; [exact Hpre|].
  eapply db_evolves_trans; [apply db_evolves_set_user_online|exact Hd].
Qed.

Lemma on_heartbeat_evolves sid now s : db_evolves (db s) (db (on_heartbeat sid now s).1).
Proof.
  unfold on_heartbeat. destruct (userSockets s !! sid) as [userId|]; [|apply db_evolves_refl].
  destruct (truthy userId); [|apply db_evolves_refl]. proj_simpl.
  apply db_evolves_touch_last_seen.
Qed.

Lemma on_app_state_change_evolves sid state now s :
  db_evolves (db s) (db (on_app_state_change sid state now s).1).
Proof.
  unfold on_app_state_change.
  destruct (userSockets s !! sid) as [userId|]; [|apply db_evolves_refl].
  destruct (truthy userId); [|apply db_evolves_refl].
  destruct state; proj_simpl; try apply db_evolves_set_user_online; [|apply db_evolves_refl].
  match goal with |- context [deliverPendingMessages ?u ?n ?x] =>
    pose proof (deliverPendingMessages_frame u n x) as Hd;
    destruct (deliverPendingMessages u n x) as [s6 out6] end.
  proj_simpl. destruct Hd as (_ & _ & _ & _ & _ & Hd).
  eapply db_evolves_trans; [apply db_evolves_set_user_online|exact Hd].
Qed.

Lemma on_message_send_evolves sid conversationId text senderId now s :
  db_evolves (db s) (db (on_message_send sid conversationId text senderId now s).1).
Proof.
  unfold on_message_send.
  pose proof (db_evolves_insert_message conversationId senderId text now (db s)) as Hi.
  destruct (insert_message _ _ _ _ _) as [d1 [err|message]]; proj_simpl; [done|].
  destruct (select_conversation conversationId d1) as [|conv ?]; proj_simpl; [done|].
  match goal with |- context [if ?b then _ else _] => destruct b end; proj_simpl; [|done].
  eapply db_evolves_trans; [exact Hi|apply db_evolves_mark_delivered].
Qed.

Lemma on_message_read_evolves conversationId userId now s :
  db_evolves (db s) (db (on_message_read conversationId userId now s).1).
Proof.
  unfold on_message_read.
  pose proof (db_evolves_mark_read conversationId userId now (db s)) as Hr.
  by destruct (mark_read _ _ _ _) as [d1 ids].
Qed.

Lemma cleanup_entries_evolves entries now s :
  db_evolves (db s) (db (cleanup_entries entries now s).1).
Proof.
  revert s. induction entries as [|[userId lastHeartbeat] rest IH]; intros s; cbn.
  - apply db_evolves_refl.
  - case_decide; [|apply IH].
    match goal with |- context [cleanup_entries rest now ?x] =>
      specialize (IH x); destruct (cleanup_entries rest now x) as [s5 out] end.
    proj_simpl. eapply db_evolves_trans; [|exact IH].
    destruct (connectedUsers s !! userId); proj_simpl; apply db_evolves_set_user_online.
Qed.

Lemma handle_evolves i s : db_evolves (db s) (db (handle i s).1).
Proof.
  destruct i as [sid|sid now e|now]; cbn.
  - apply db_evolves_refl.
  - case_decide; [|apply db_evolves_refl].
    destruct e; cbn -[on_authenticate on_heartbeat on_app_state_change on_message_send
                      on_message_read on_disconnect].
    + apply on_authenticate_evolves.
    + apply on_heartbeat_evolves.
    + apply on_app_state_change_evolves.
    + apply db_evolves_refl.
    + apply db_evolves_refl.
    + apply on_message_send_evolves.
    + apply on_message_read_evolves.
    + apply db_evolves_refl.
    + apply (on_disconnect_evolves sid now (set_sockets _ s)).
  - apply cleanup_entries_evolves.
Qed.

Lemma run_evolves inputs s : db_evolves (db s) (db (run inputs s).1).
Proof.
  revert s. induction inputs as [|i rest IH]; intros s; cbn.
  - apply db_evolves_refl.
  - pose proof (handle_evolves i s) as Hh. destruct (handle i s) as [s1 out1].
    specialize (IH s1). destruct (run rest s1) as [s2 out2]. proj_simpl.
    eauto using db_evolves_trans.
Qed.

Lemma handle_wf i s : wf_db (db s) → wf_db (db (handle i s).1).
Proof. eauto using wf_db_evolves, handle_evolves. Qed.

Lemma run_wf inputs s : wf_db (db s) → wf_db (db (run inputs s).1).
Proof. eauto using wf_db_evolves, run_evolves. Qed.

(** ** The connection registry *)

Lemma registry_inv_init d : registry_inv (init d).
Proof. intros sid userId. cbn. by rewrite lookup_empty. Qed.

Lemma on_disconnect_unregistered sid now s :
  userSockets s !! sid = None → on_disconnect sid now s = (s, []).
Proof. intros H. unfold on_disconnect. by rewrite H. Qed.

(** What the clean-up block of ['authenticate'] does: the reverse entry of
    the superseded socket is dropped and the socket is closed; its
    ['disconnect'] handler finds no entry and does nothing. *)
Lemma cleanup_existing_spec sid userId now s :
  cleanup_existing sid userId now s =
    match connectedUsers s !! userId with
    | Some existingSocketId =>
        if decide (existingSocketId ≠ sid) then
          (set_sockets (sockets s ∖ {[existingSocketId]})
             (set_userSockets (delete existingSocketId (userSockets s)) s),
           if decide (existingSocketId ∈ sockets s) then [SocketClose existingSocketId] else [])
        else (s, [])
    | None => (s, [])
    end.
Proof.
  unfold cleanup_existing. destruct (connectedUsers s !! userId) as [ex|]; [|done].
  case_decide; [|done]. proj_simpl. case_decide.
  - unfold close_socket. rewrite on_disconnect_unregistered; [done|].
    proj_simpl. apply lookup_delete_eq.
  - f_equal. destruct s; unfold set_sockets, set_userSockets; proj_simpl. f_equal.
    set_solver.
Qed.

Lemma on_disconnect_registry sid now s :
  registry_inv s → registry_inv (on_disconnect sid now s).1.
Proof.
  intros Hinv. unfold on_disconnect.
  destruct (userSockets s !! sid) as [userId|] eqn:Hsid; [|done].
  destruct (truthy userId); [|done].
  assert (Hgoal : ∀ sid2 u2, delete sid (userSockets s) !! sid2 = Some u2 →
                    delete userId (connectedUsers s) !! u2 = Some sid2).
  { intros sid2 u2 H2. apply lookup_delete_Some in H2 as [Hne H2].
    pose proof (Hinv _ _ H2) as Hc. rewrite lookup_delete_ne; [done|].
    intros ->. apply Hinv in Hsid. congruence. }
  proj_simpl. destruct (userTypingStatus s !! userId); exact Hgoal.
Qed.

Lemma cleanup_entries_registry entries now s :
  registry_inv s → registry_inv (cleanup_entries entries now s).1.
Proof.
  revert s. induction entries as [|[userId lastHeartbeat] rest IH]; intros s Hinv; cbn; [done|].
  case_decide; [|by apply IH].
  match goal with |- context [cleanup_entries rest now ?x] =>
    specialize (IH x); destruct (cleanup_entries rest now x) as [s5 out] end.
  proj_simpl. apply IH. clear IH. intros sid2 u2.
  destruct (connectedUsers s !! userId) as [sid|] eqn:Hc; proj_simpl; intros H2.
  - apply lookup_delete_Some in H2 as [Hne H2]. pose proof (Hinv _ _ H2) as Hc2.
    rewrite lookup_delete_ne; [done|]. intros ->. congruence.
  - pose proof (Hinv _ _ H2) as Hc2. rewrite lookup_delete_ne; [done|]. intros ->. congruence.
Qed.

(** The registry after a successful ['authenticate']. *)
Lemma on_authenticate_maps sid userId now s :
  let s' := (on_authenticate sid (SignedFor userId) now s).1 in
  connectedUsers s' = <[userId := sid]> (connectedUsers s)
  ∧ userSockets s' =
      <[sid := userId]>
        (match connectedUsers s !! userId with
         | Some old => if decide (old ≠ sid) then delete old (userSockets s) else userSockets s
         | None => userSockets s
         end)
  ∧ sockets s' =
      match connectedUsers s !! userId with
      | Some old => if decide (old ≠ sid) then sockets s ∖ {[old]} else sockets s
      | None => sockets s
      end
  ∧ userTypingStatus s' = userTypingStatus s.
Proof.
  unfold on_authenticate. cbn [jwt_verify]. rewrite cleanup_existing_spec.
  destruct (connectedUsers s !! userId) as [old|] eqn:Hc; [case_decide|]; proj_simpl;
    match goal with |- context [deliverPendingMessages ?u ?n ?x] =>
      pose proof (deliverPendingMessages_frame u n x) as Hd;
      destruct (deliverPendingMessages u n x) as [s6 out6]
    end; proj_simpl; by destruct Hd as (-> & -> & _ & -> & -> & _).
Qed.

Lemma on_authenticate_registry sid token now s :
  registry_inv s → registry_inv (on_authenticate sid token now s).1.
Proof.
  intros Hinv. destruct token as [userId|]; [|done].
  destruct (on_authenticate_maps sid userId now s) as (Hcu & Hus & _).
  intros sid2 u2. rewrite Hcu, Hus. clear Hcu Hus.
  destruct (decide (sid2 = sid)) as [->|Hne].
  { rewrite lookup_insert_eq. intros [= ->]. by rewrite lookup_insert_eq. }
  rewrite lookup_insert_ne by done. intros H2.
  assert (Hus2 : userSockets s !! sid2 = Some u2).
  { destruct (connectedUsers s !! userId); [case_decide|]; try done.
    by apply lookup_delete_Some in H2 as [_ H2]. }
  pose proof (Hinv _ _ Hus2) as Hc2.
  rewrite lookup_insert_ne; [done|]. intros ->.
  rewrite Hc2 in H2. case_decide.
  - by rewrite lookup_delete_eq in H2.
  - congruence.
Qed.

Lemma handle_registry i s : registry_inv s → registry_inv (handle i s).1.
Proof.
  intros Hinv. destruct i as [sid|sid now e|now]; cbn.
  - done.
  - case_decide; [|done].
    destruct e; cbn -[on_authenticate on_heartbeat on_app_state_change on_message_send
                      on_message_read on_disconnect]; try done.
    + by apply on_authenticate_registry.
    + unfold on_heartbeat. destruct (userSockets s !! sid); [|done]. by destruct (truthy _).
    + unfold on_app_state_change. destruct (userSockets s !! sid) as [u|]; [|done].
      destruct (truthy u); [|done]. destruct state; try done.
      match goal with |- context [deliverPendingMessages ?u ?n ?x] =>
        pose proof (deliverPendingMessages_frame u n x) as Hd;
        destruct (deliverPendingMessages u n x) as [s6 out6] end.
      proj_simpl. destruct Hd as (Hcu & Hus & _). intros sid2 u2.
      rewrite Hcu, Hus. apply Hinv.
    + unfold on_message_send. destruct (insert_message _ _ _ _ _) as [d1 [err|message]]; [done|].
      destruct (select_conversation _ _); [done|].
      by match goal with |- context [if ?b then _ else _] => destruct b end.
    + by apply (on_disconnect_registry sid now (set_sockets _ s)).
  - by apply cleanup_entries_registry.
Qed.

Lemma run_registry inputs s : registry_inv s → registry_inv (run inputs s).1.
Proof.
  revert s. induction inputs as [|i rest IH]; intros s Hinv; cbn; [done|].
  pose proof (handle_registry i s Hinv) as Hh. destruct (handle i s) as [s1 out1].
  specialize (IH s1 Hh). by destruct (run rest s1).
Qed.

(** When every handler runs to its end before the next input is taken, a
    successful ['authenticate'] of user [userId] on the connected socket
    [sid] leaves exactly one socket bound to the user, namely [sid], in both
    registry maps; a different connection [old] that was registered for the
    user is no longer the user's connection, has no entry in [userSockets],
    is gone from the set of open sockets, and was closed by the handler if
    it was still open.  What happens when a ['disconnect'] handler is
    suspended across the ['authenticate'] is computed further down. *)
Lemma single_connection_per_user (db0 : Database) (inputs : list Input)
    (sid : SocketId) (now userId : Z) :
  let s := (run inputs (init db0)).1 in
  let r := handle (FromClient sid now (Authenticate (SignedFor userId))) s in
  sid ∈ sockets s →
  connectedUsers (r.1) !! userId = Some sid
  ∧ (∀ sid', userSockets (r.1) !! sid' = Some userId ↔ sid' = sid)
  ∧ (∀ old, connectedUsers s !! userId = Some old → old ≠ sid →
       connectedUsers (r.1) !! userId ≠ Some old
       ∧ userSockets (r.1) !! old = None
       ∧ (old ∉ sockets (r.1))
       ∧ (old ∈ sockets s → SocketClose old ∈ (r.2))).
Proof.
  intros s r Hsid.
  assert (Hinv : registry_inv s) by apply run_registry, registry_inv_init.
  assert (Hinv' : registry_inv (r.1)) by (by apply handle_registry).
  subst r. cbn [handle] in *. rewrite decide_True in * by done. cbn [dispatch] in *.
  destruct (on_authenticate_maps sid userId now s) as (Hcu & Hus & Hso & _).
  split_and!.
  - rewrite Hcu. apply lookup_insert_eq.
  - intros sid'. split.
    + intros H'. apply Hinv' in H'. rewrite Hcu, lookup_insert_eq in H'. congruence.
    + intros ->. rewrite Hus. apply lookup_insert_eq.
  - intros old Hold Hne. rewrite Hcu, Hus, Hso, Hold, lookup_insert_eq.
    destruct (decide (old ≠ sid)); [|done]. split_and!.
    + congruence.
    + rewrite lookup_insert_ne by done. apply lookup_delete_eq.
    + set_solver.
    + intros Hopen. unfold on_authenticate. cbn [jwt_verify].
      rewrite cleanup_existing_spec, Hold. rewrite decide_True by done.
      rewrite decide_True by done.
      match goal with |- context [deliverPendingMessages ?u ?n ?x] =>
        destruct (deliverPendingMessages u n x) as [s6 out6] end.
      cbn. set_solver.
Qed.

Lemma single_connection_per_user_witness :
  let s := (run alice_twice (init sample_db)).1 in
  let r := handle (FromClient 2 9 (Authenticate (SignedFor 1))) s in
  connectedUsers (r.1) !! 1 = Some 2%positive
  ∧ (∀ sid', userSockets (r.1) !! sid' = Some 1 ↔ sid' = 2%positive)
  ∧ (∀ old, connectedUsers s !! 1 = Some old → old ≠ 2%positive →
       connectedUsers (r.1) !! 1 ≠ Some old
       ∧ userSockets (r.1) !! old = None
       ∧ (old ∉ sockets (r.1))
       ∧ (old ∈ sockets s → SocketClose old ∈ (r.2))).
Proof.
  apply (single_connection_per_user sample_db alice_twice 2 9 1).
  apply (bool_decide_unpack _). vm_compute. exact I.
Defined.

(** ** Sending a message *)

Lemma handle_connected sid now e s :
  sid ∈ sockets s → handle (FromClient sid now e) s = dispatch sid now e s.
Proof. intros H. cbn. by rewrite decide_True. Qed.

Lemma select_conversation_evolves conversationId d d' :
  db_evolves d d' → select_conversation conversationId d' = select_conversation conversationId d.
Proof. intros [Hc _ _ _]. unfold select_conversation. by rewrite Hc. Qed.

Lemma map_deliver_fresh (l : list Message) (k now : Z) :
  Forall (λ m, msg_id m < k) l →
  map (λ m, if decide (msg_id m = k) then deliver now m else m) l = l.
Proof.
  induction 1 as [|m l Hm _ IH]; cbn; [done|].
  rewrite IH. rewrite decide_False by lia. done.
Qed.

Lemma filter_id_fresh (l : list Message) (k : Z) :
  Forall (λ m, msg_id m < k) l → filter (λ m, msg_id m = k) l = [].
Proof.
  induction 1 as [|m l Hm _ IH]; [done|].
  rewrite filter_cons, decide_False by lia. done.
Qed.

(** An accepted insert followed by the delivery update touches the new row
    only. *)
Lemma insert_message_accepted conversationId senderId txt now d :
  fk_ok conversationId (conv_id <$> conversations d) = true →
  fk_ok senderId (user_id <$> users d) = true →
  insert_message conversationId senderId (Some txt) now d =
    (mkDatabase (users d) (conversations d)
                (messages d ++ [sent_row d conversationId senderId txt now])
                (messages_id_seq d + 1),
     inr (sent_row d conversationId senderId txt now)).
Proof. intros H1 H2. unfold insert_message. by rewrite H1, H2. Qed.

Lemma fk_ok_select_conversation conversationId d conv rest :
  select_conversation conversationId d = conv :: rest →
  fk_ok conversationId (conv_id <$> conversations d) = true.
Proof.
  destruct conversationId as [c|]; [|done]. cbn. intros H.
  apply bool_decide_eq_true. apply list_elem_of_fmap. exists conv.
  assert (Hin : conv ∈ filter (λ conv, conv_id conv = c) (conversations d))
    by (rewrite H; left).
  apply list_elem_of_filter in Hin as [-> Hin]. done.
Qed.

(** What ['message:send'] does when the conversation exists and the insert
    is accepted. *)
Lemma on_message_send_accepted sid conversationId txt senderId now s conv rest :
  wf_db (db s) →
  select_conversation conversationId (db s) = conv :: rest →
  fk_ok senderId (user_id <$> users (db s)) = true →
  let row := sent_row (db s) conversationId senderId txt now in
  let other := other_participant conv senderId in
  on_message_send sid conversationId (Some txt) senderId now s =
    if store_online (db s) other then
      (set_db (mkDatabase (users (db s)) (conversations (db s))
                          (messages (db s) ++ [deliver now row])
                          (messages_id_seq (db s) + 1)) s,
       [Sql (InsertRow row); Sql (SetDelivered (msg_id row) now);
        SocketEmit sid (MessageNew (Some (deliver now row)) conversationId Delivered);
        IoTo (connectedUsers s !! other)
             (MessageNew (Some (deliver now row)) conversationId Delivered)])
    else
      (set_db (mkDatabase (users (db s)) (conversations (db s))
                          (messages (db s) ++ [row])
                          (messages_id_seq (db s) + 1)) s,
       [Sql (InsertRow row); SocketEmit sid (MessageNew (Some row) conversationId Sent)]).
Proof.
  intros Hwf Hconv Hsender row other. unfold on_message_send.
  rewrite insert_message_accepted by eauto using fk_ok_select_conversation.
  assert (Hsel : select_conversation conversationId
            (mkDatabase (users (db s)) (conversations (db s))
               (messages (db s) ++ [sent_row (db s) conversationId senderId txt now])
               (messages_id_seq (db s) + 1)) = conv :: rest).
  { rewrite <- Hconv. by destruct conversationId. }
  rewrite Hsel. fold other. unfold store_online, select_user. proj_simpl. fold row.
  destruct (match filter _ (users (db s)) with [] => false | u :: _ => is_online u end); [|done].
  unfold mark_delivered, select_message, set_messages. proj_simpl.
  rewrite map_app, map_deliver_fresh by apply Hwf. cbn [map].
  rewrite decide_True by done.
  rewrite filter_app, filter_id_fresh by apply Hwf.
  rewrite filter_cons, decide_True by done. done.
Qed.

Lemma sample_db_wf : wf_db sample_db.
Proof.
  constructor; cbn.
  - constructor.
  - apply NoDup_singleton.
  - constructor.
  - constructor.
Qed.

Lemma emissions_cons_sql w out : emissions (Sql w :: out) = emissions out.
Proof. done. Qed.




Lemma fk_ok_unknown_conversation c d :
  select_conversation (Some c) d = [] → fk_ok (Some c) (conv_id <$> conversations d) = false.
Proof.
  cbn. intros H. apply bool_decide_eq_false. intros Hin.
  apply list_elem_of_fmap in Hin as (conv & -> & Hin).
  assert (Hf : conv ∈ filter (λ x, conv_id x = conv_id conv) (conversations d))
    by by apply list_elem_of_filter.
  rewrite H in Hf. by apply not_elem_of_nil in Hf.
Qed.

(** A rejected insert: the catch block reports the error and no message
    row is written. *)
Lemma on_message_send_rejected sid conversationId text senderId now s :
  text = None
  ∨ fk_ok conversationId (conv_id <$> conversations (db s)) = false
  ∨ fk_ok senderId (user_id <$> users (db s)) = false →
  let r := on_message_send sid conversationId text senderId now s in
  messages (db (r.1)) = messages (db s) ∧ r.2 = [SocketEmit sid MessageError].
Proof.
  intros H. unfold on_message_send, insert_message.
  destruct text as [txt|]; [|done].
  destruct H as [?|[H|H]]; [done|rewrite H..]; [done|].
  by rewrite andb_false_r.
Qed.

(** C10 (as amended).  A ['message:send'] naming a conversation id that has
    no record is refused by the foreign key on [messages.conversation_id]:
    no message is persisted and the emitting socket is sent
    ['message:error'].  Only a ['message:send'] that carries no conversation
    id at all (with content, and with a known or absent sender) is persisted
    in the sent state without any event being emitted. *)
Theorem send_to_unknown_conversation (s : State) (sid : SocketId) (now : Z)
    (conversationId : option Z) (text : option string) (senderId : option Z) :
  sid ∈ sockets s →
  select_conversation conversationId (db s) = [] →
  let r := handle (FromClient sid now (MessageSend conversationId text senderId)) s in
  (is_Some conversationId →
     messages (db (r.1)) = messages (db s) ∧ r.2 = [SocketEmit sid MessageError])
  ∧ (conversationId = None →
     ∀ txt, text = Some txt → fk_ok senderId (user_id <$> users (db s)) = true →
       messages (db (r.1)) = messages (db s) ++ [sent_row (db s) None senderId txt now]
       ∧ deliveryState (sent_row (db s) None senderId txt now) = StateSent
       ∧ emissions (r.2) = []).
Proof.
  intros Hsid Hnone r. subst r. cbn [handle]. rewrite decide_True by done. cbn [dispatch].
  split.
  - intros [c ->]. apply on_message_send_rejected.
    right; left. by apply fk_ok_unknown_conversation.
  - intros -> txt -> Hsender. unfold on_message_send.
    rewrite insert_message_accepted by done. done.
Qed.

Lemma send_to_unknown_conversation_witness :
  let s := (run alice_online (init sample_db)).1 in
  let r := handle (FromClient 1 8 (MessageSend (Some 999) (Some "hi") (Some 1))) s in
  (is_Some (Some 999) →
     messages (db (r.1)) = messages (db s) ∧ r.2 = [SocketEmit 1 MessageError])
  ∧ (Some 999 = None →
     ∀ txt, Some "hi" = Some txt → fk_ok (Some 1) (user_id <$> users (db s)) = true →
       messages (db (r.1)) = messages (db s) ++ [sent_row (db s) None (Some 1) txt 8]
       ∧ deliveryState (sent_row (db s) None (Some 1) txt 8) = StateSent
       ∧ emissions (r.2) = []).
Proof.
  apply (send_to_unknown_conversation
           (run alice_online (init sample_db)).1 1 8 (Some 999) (Some "hi") (Some 1)).
  - apply (bool_decide_unpack _). vm_compute. exact I.
  - vm_compute. reflexivity.
Defined.

(** C10 (as worded) fails: Alice's message to conversation 999, which does
    not exist, is not persisted, and her socket is sent ['message:error']. *)
Lemma unknown_conversation_is_rejected :
  ¬ unknown_conversation_persists_silently (run alice_online (init sample_db)).1
      1 8 (Some 999) (Some "hi") (Some 1).
Proof.
  intros H.
  assert (Hsel : select_conversation (Some 999) (db (run alice_online (init sample_db)).1) = [])
    by (vm_compute; reflexivity).
  destruct (H Hsel) as [_ Hem]. vm_compute in Hem. discriminate Hem.
Qed.

(** ** Access to a conversation *)

Lemma mark_read_reads conversationId userId now d m :
  m ∈ messages d → unread_from_other conversationId userId m = true →
  read now m ∈ messages (mark_read conversationId userId now d).1.
Proof.
  intros Hin Hu. cbn. apply list_elem_of_fmap. exists m. by rewrite Hu.
Qed.

(** C8.  The two handlers make no participant check, which the route
    that lists messages and the policies of the setup script do make.
    ['message:send'] inserts the row whenever the conversation and the
    sender it names exist and content is present, whoever the sender is, a
    participant or not; ['message:read'], for ids that fit the INTEGER
    columns, marks as read every unread message of the conversation that
    was not authored by the user id it is given, whoever that is.  The only
    rejection that leaves the message rows untouched is the database's:
    content missing, or conversation or sender unknown. *)
Theorem no_participant_check (s : State) (sid : SocketId) (now : Z) :
  wf_db (db s) →
  sid ∈ sockets s →
  (∀ conversationId txt senderId conv rest,
      select_conversation conversationId (db s) = conv :: rest →
      fk_ok senderId (user_id <$> users (db s)) = true →
      ∃ m, messages (db (handle (FromClient sid now
                           (MessageSend conversationId (Some txt) senderId)) s).1)
           = messages (db s) ++ [m]
        ∧ msg_id m = messages_id_seq (db s)
        ∧ conversation_id m = conversationId ∧ sender_id m = senderId)
  ∧ (∀ conversationId userId m,
      in_INTEGER conversationId → in_INTEGER userId →
      m ∈ messages (db s) → unread_from_other conversationId userId m = true →
      read now m ∈ messages (db (handle (FromClient sid now
                                   (MessageReadEv conversationId userId)) s).1))
  ∧ (∀ conversationId text senderId,
      text = None
      ∨ fk_ok conversationId (conv_id <$> conversations (db s)) = false
      ∨ fk_ok senderId (user_id <$> users (db s)) = false →
      let r := handle (FromClient sid now (MessageSend conversationId text senderId)) s in
      messages (db (r.1)) = messages (db s) ∧ r.2 = [SocketEmit sid MessageError]).
Proof.
  intros Hwf Hsid. split_and!.
  - intros conversationId txt senderId conv rest Hconv Hsender.
    rewrite handle_connected by done. cbn [dispatch].
    rewrite (on_message_send_accepted _ _ _ _ _ _ conv rest) by done.
    destruct (store_online _ _); proj_simpl; eexists; split_and!; done.
  - intros conversationId userId m _ _ Hin Hu.
    rewrite handle_connected by done. cbn [dispatch]. unfold on_message_read.
    pose proof (mark_read_reads conversationId userId now (db s) m Hin Hu) as Hr.
    destruct (mark_read _ _ _ _) as [d1 ids]. done.
  - intros conversationId text senderId H.
    rewrite handle_connected by done. by apply on_message_send_rejected.
Qed.

Lemma no_participant_check_witness :
  let s := (run carol_online (init sample_db)).1 in
  ∃ m, messages (db (handle (FromClient 3 8 (MessageSend (Some 10) (Some "hi") (Some 3))) s).1)
       = messages (db s) ++ [m]
    ∧ msg_id m = messages_id_seq (db s)
    ∧ conversation_id m = Some 10 ∧ sender_id m = Some 3.
Proof.
  refine (proj1 (no_participant_check (run carol_online (init sample_db)).1 3 8 _ _)
            (Some 10) "hi" (Some 3) (mkConversation 10 1 2 0) [] _ _).
  - apply run_wf, sample_db_wf.
  - apply (bool_decide_unpack _). vm_compute. exact I.
  - vm_compute. reflexivity.
  - vm_compute. reflexivity.
Defined.

(** C8 (as worded) fails: Carol takes no part in conversation 10, yet her
    ['message:send'] to it inserts a message row. *)
Lemma outsider_send_is_stored :
  ¬ non_participant_rejected (run carol_online (init sample_db)).1 3 8
      (MessageSend (Some 10) (Some "hi") (Some 3)).
Proof.
  intros H. cbn [non_participant_rejected] in H.
  assert (Hnot : ¬ participant (db (run carol_online (init sample_db)).1) 10 3).
  { intros (conv & Hin & _ & Hp).
    assert (Hc : conversations (db (run carol_online (init sample_db)).1)
                 = [mkConversation 10 1 2 0]) by (vm_compute; reflexivity).
    rewrite Hc in Hin. apply list_elem_of_singleton in Hin as ->.
    cbn in Hp. destruct Hp; discriminate. }
  specialize (H Hnot). vm_compute in H. discriminate H.
Qed.

(** ** Read receipts *)

Lemma select_conversation_unique c d conv :
  NoDup (conv_id <$> conversations d) → conv ∈ conversations d → conv_id conv = c →
  select_conversation (Some c) d = [conv].
Proof.
  cbn. generalize (conversations d). intros l. induction l as [|x l IH]; intros Hnd Hin Hid.
  - by apply not_elem_of_nil in Hin.
  - cbn in Hnd. apply NoDup_cons in Hnd as [Hx Hnd]. rewrite filter_cons.
    apply elem_of_cons in Hin as [->|Hin].
    + rewrite decide_True by done. f_equal.
      apply filter_none. intros y Hy Heq. apply Hx.
      apply list_elem_of_fmap. exists y. split; [congruence|done].
    + rewrite decide_False; [by apply IH|]. intros Heq. apply Hx.
      apply list_elem_of_fmap. exists conv. split; [congruence|done].
Qed.

Lemma select_conversation_set_messages conversationId f d :
  select_conversation conversationId (set_messages f d) = select_conversation conversationId d.
Proof. done. Qed.

Lemma unread_ids_nonempty d conversationId userId :
  unread_ids d conversationId userId ≠ [] ↔
  ∃ m, m ∈ messages d ∧ unread_from_other conversationId userId m = true.
Proof.
  unfold unread_ids. split.
  - intros H. destruct (filter _ (messages d)) as [|m l] eqn:Hf; [done|].
    exists m.
    assert (Hm : m ∈ filter (λ m, unread_from_other conversationId userId m = true) (messages d))
      by (rewrite Hf; left).
    apply list_elem_of_filter in Hm as [? ?]. done.
  - intros (m & Hin & Hu) Hnil. apply fmap_nil_inv in Hnil.
    assert (Hm : m ∈ filter (λ m, unread_from_other conversationId userId m = true) (messages d))
      by by apply list_elem_of_filter.
    rewrite Hnil in Hm. by apply not_elem_of_nil in Hm.
Qed.

Lemma other_participant_reader conv userId :
  (if decide (user1_id conv = userId) then user2_id conv else user1_id conv)
  = other_participant conv (Some userId).
Proof. unfold other_participant. repeat case_decide; congruence. Qed.

(** C7 (as amended).  A ['message:read'] for a conversation and a reader,
    with ids that fit the INTEGER columns, marks as read, in one statement,
    every message of the conversation that was authored by someone else and
    was not yet read, and changes no other row.  The receipt with the
    affected ids, in an order that the database chooses, is addressed to the
    other participant, if that user has a registered connection, only when
    at least one message was marked; the conversation-level broadcast with
    the conversation id and the reader id is emitted to all sockets on
    every such ['message:read'], also when no message was marked. *)
Theorem read_receipt_protocol (s : State) (sid : SocketId) (now : Z)
    (conversationId userId : Z) :
  wf_db (db s) →
  sid ∈ sockets s →
  in_INTEGER conversationId →
  in_INTEGER userId →
  let r := handle (FromClient sid now (MessageReadEv conversationId userId)) s in
  let ids := unread_ids (db s) conversationId userId in
  (∀ m sender, m ∈ messages (db s) → conversation_id m = Some conversationId →
      sender_id m = Some sender → sender ≠ userId → is_read m = false →
      read now m ∈ messages (db (r.1)))
  ∧ (∀ m', m' ∈ messages (db (r.1)) →
      m' ∈ messages (db s)
      ∨ ∃ m, m ∈ messages (db s) ∧ unread_from_other conversationId userId m = true
             ∧ m' = read now m)
  ∧ (ids ≠ [] →
      ∃ conv, select_conversation (Some conversationId) (db s) = [conv]
        ∧ ∀ otherSid,
            connectedUsers s !! other_participant conv (Some userId) = Some otherSid →
            ∃ messageIds,
              messageIds ≡ₚ ids
              ∧ IoTo (Some otherSid) (MessageReadReceipt conversationId messageIds userId)
                  ∈ r.2)
  ∧ (∀ target c messageIds readBy,
      IoTo target (MessageReadReceipt c messageIds readBy) ∈ r.2 →
      ids ≠ [] ∧ messageIds ≡ₚ ids ∧ c = conversationId ∧ readBy = userId
      ∧ ∃ conv rest, select_conversation (Some conversationId) (db s) = conv :: rest
          ∧ is_Some target
          ∧ target = connectedUsers s !! other_participant conv (Some userId))
  ∧ IoEmit (MessageReadBroadcast conversationId userId) ∈ r.2
  ∧ (∃ messageIds, messageIds ≡ₚ ids ∧ Sql (SetRead messageIds now) ∈ r.2).
Proof.
  intros Hwf Hsid _ _ r ids. subst r. rewrite handle_connected by done. cbn [dispatch].
  unfold on_message_read, mark_read. fold (unread_ids (db s) conversationId userId). fold ids.
  rewrite select_conversation_set_messages. proj_simpl. split_and!.
  - intros m sender Hin Hc Hs Hne Hr. apply list_elem_of_fmap. exists m. split; [|done].
    unfold unread_from_other. rewrite Hc, Hs, Hr.
    rewrite !bool_decide_eq_true_2 by done. done.
  - intros m' Hin. apply list_elem_of_fmap in Hin as (m & -> & Hin).
    destruct (unread_from_other conversationId userId m) eqn:Hu; eauto.
  - intros Hne.
    apply unread_ids_nonempty in Hne as Hex. destruct Hex as (m & Hin & Hu).
    unfold unread_from_other in Hu. apply andb_prop in Hu as [Hu _].
    apply andb_prop in Hu as [Hu _]. apply bool_decide_eq_true in Hu.
    destruct Hwf as [_ Hnd _ Hfk]. rewrite Forall_forall in Hfk.
    specialize (Hfk m Hin). rewrite Hu in Hfk. cbn in Hfk.
    apply bool_decide_eq_true in Hfk. apply list_elem_of_fmap in Hfk as (conv & Hid & Hcin).
    exists conv. pose proof (select_conversation_unique conversationId (db s) conv Hnd Hcin
                               (eq_sym Hid)) as Hsel.
    split; [done|]. intros otherSid Ho. exists ids. split; [done|]. rewrite Hsel.
    rewrite other_participant_reader, Ho. destruct ids; [done|]. set_solver.
  - intros target c messageIds readBy Hin.
    apply elem_of_cons in Hin as [?|Hin]; [done|].
    apply elem_of_app in Hin as [Hin|Hin]; [|set_solver].
    destruct ids as [|i ids'] eqn:Hids; [by apply not_elem_of_nil in Hin|].
    destruct (select_conversation _ (db s)) as [|conv rest] eqn:Hsel;
      [by apply not_elem_of_nil in Hin|].
    rewrite other_participant_reader in Hin.
    destruct (connectedUsers s !! other_participant conv (Some userId)) as [osid|] eqn:Ho;
      [|by apply not_elem_of_nil in Hin].
    apply list_elem_of_singleton in Hin. injection Hin as -> -> -> ->.
    split_and!; try done. exists conv, rest. by rewrite Ho.
  - set_solver.
  - exists ids. split; [done|]. set_solver.
Qed.

Lemma read_receipt_protocol_witness :
  let s := (run (message_waiting ++ bob_online) (init sample_db)).1 in
  let r := handle (FromClient 2 20 (MessageReadEv 10 2)) s in
  read 20 (mkMessage 1 (Some 10) (Some 1) "hi" true false (Some 5) None 8)
    ∈ messages (db (r.1))
  ∧ (∃ messageIds,
       messageIds ≡ₚ [1]
       ∧ IoTo (Some 1%positive) (MessageReadReceipt 10 messageIds 2) ∈ r.2)
  ∧ IoEmit (MessageReadBroadcast 10 2) ∈ r.2
  ∧ (∃ messageIds, messageIds ≡ₚ [1] ∧ Sql (SetRead messageIds 20) ∈ r.2).
Proof.
  assert (Hwf : wf_db (db (run (message_waiting ++ bob_online) (init sample_db)).1))
    by apply run_wf, sample_db_wf.
  assert (Hsid : 2%positive ∈ sockets (run (message_waiting ++ bob_online) (init sample_db)).1)
    by (apply (bool_decide_unpack _); vm_compute; exact I).
  assert (Hc : in_INTEGER 10) by (unfold in_INTEGER; lia).
  assert (Hu : in_INTEGER 2) by (unfold in_INTEGER; lia).
  destruct (read_receipt_protocol (run (message_waiting ++ bob_online) (init sample_db)).1
              2 20 10 2 Hwf Hsid Hc Hu) as (Hm & _ & Hr & _ & Hb & Hs).
  split_and!.
  - apply (Hm _ 1); [|reflexivity|reflexivity|lia|reflexivity].
    vm_compute. apply list_elem_of_here.
  - destruct Hr as (conv & Hsel & Hto); [by vm_compute|].
    assert (conv = mkConversation 10 1 2 0) as ->.
    { vm_compute in Hsel. by injection Hsel. }
    apply (Hto 1%positive). vm_compute. reflexivity.
  - exact Hb.
  - exact Hs.
Defined.

(** C7 (as worded) fails: Bob's ['message:read'] for conversation 10, which
    holds no message, marks nothing and is broadcast all the same. *)
Lemma broadcast_without_transition :
  ¬ broadcast_only_on_transition (run bob_online (init sample_db)).1 2 8 10 2.
Proof.
  intros H. destruct H as (m & Hin & _).
  - vm_compute. right. left.
  - assert (Hm : messages (db (run bob_online (init sample_db)).1) = [])
      by (vm_compute; reflexivity).
    rewrite Hm in Hin. by apply not_elem_of_nil in Hin.
Qed.

(** ** Typing indicators *)

Lemma elem_of_select_partners d userId partner :
  partner ∈ select_partners userId d ↔ shares_conversation d userId partner.
Proof.
  unfold select_partners, shares_conversation. rewrite list_elem_of_fmap. split.
  - intros (conv & -> & Hin). apply list_elem_of_filter in Hin as [Hp Hin].
    exists conv. split; [done|]. case_decide; [left|right]; split; try done.
    by destruct Hp.
  - intros (conv & Hin & Hp). exists conv. split.
    + case_decide; destruct Hp as [[? ?]|[? ?]]; congruence.
    + apply list_elem_of_filter. split; [|done]. destruct Hp as [[? ?]|[? ?]]; auto.
Qed.

(** Who is sent a ['user_typing_status'] event by the fan-out. *)
Lemma elem_of_emitTypingStatus typingUserId conversationId isTyping s e :
  e ∈ emitTypingStatusToRelevantUsers typingUserId conversationId isTyping s ↔
  ∃ partner partnerSid,
    shares_conversation (db s) typingUserId partner
    ∧ connectedUsers s !! partner = Some partnerSid
    ∧ e = IoTo (Some partnerSid)
               (UserTypingStatus typingUserId (display_name typingUserId (db s))
                                 conversationId isTyping).
Proof.
  unfold emitTypingStatusToRelevantUsers. rewrite list_elem_of_bind. split.
  - intros (partner & He & Hp). apply elem_of_select_partners in Hp.
    destruct (connectedUsers s !! partner) as [partnerSid|] eqn:Hc;
      [|by apply not_elem_of_nil in He].
    apply list_elem_of_singleton in He. eauto 6.
  - intros (partner & partnerSid & Hp & Hc & ->). exists partner.
    rewrite Hc. split; [left|]. by apply elem_of_select_partners.
Qed.

(** C9.  A ['typing:start'] or ['typing:stop'] event from any connected
    socket, whether or not the socket has authenticated and whoever it is
    registered for, sets or removes the typing state of the user id in its
    payload, and sends the corresponding ['user_typing_status'] event to the
    registered connection of every user who shares a conversation with that
    user id; the registration of the emitting socket plays no part. *)
Theorem typing_trusts_payload (s : State) (sid : SocketId) (now : Z)
    (conversationId userId : Z) :
  sid ∈ sockets s →
  let start := handle (FromClient sid now (TypingStart conversationId userId)) s in
  let stop := handle (FromClient sid now (TypingStop conversationId userId)) s in
  userTypingStatus (start.1) = <[userId := (conversationId, now)]> (userTypingStatus s)
  ∧ userTypingStatus (stop.1) = delete userId (userTypingStatus s)
  ∧ (∀ partner partnerSid,
       shares_conversation (db s) userId partner →
       connectedUsers s !! partner = Some partnerSid →
       IoTo (Some partnerSid)
            (UserTypingStatus userId (display_name userId (db s)) conversationId true)
         ∈ start.2
       ∧ IoTo (Some partnerSid)
              (UserTypingStatus userId (display_name userId (db s)) conversationId false)
         ∈ stop.2)
  ∧ (∀ target u nm c b,
       IoTo target (UserTypingStatus u nm c b) ∈ start.2 ++ stop.2 →
       u = userId ∧ c = conversationId
       ∧ ∃ partner, shares_conversation (db s) userId partner
                    ∧ is_Some target ∧ target = connectedUsers s !! partner).
Proof.
  intros Hsid start stop. subst start stop. rewrite !handle_connected by done.
  cbn [dispatch]. unfold on_typing_start, on_typing_stop. proj_simpl. split_and!; try done.
  - intros partner partnerSid Hp Hc. split; right;
      apply elem_of_emitTypingStatus; exists partner, partnerSid; done.
  - intros target u nm c b Hin.
    assert (He : ∃ isTyping st, connectedUsers st = connectedUsers s ∧ db st = db s
                 ∧ IoTo target (UserTypingStatus u nm c b)
                   ∈ emitTypingStatusToRelevantUsers userId conversationId isTyping st).
    { apply elem_of_app in Hin as [Hin|Hin]; apply elem_of_cons in Hin as [?|Hin];
        try done; eauto 10. }
    destruct He as (isTyping & st & Hcu & Hdb & He).
    apply elem_of_emitTypingStatus in He as (partner & partnerSid & Hp & Hc & Heq).
    injection Heq as -> -> _ -> _. rewrite Hdb in Hp. rewrite Hcu in Hc.
    split_and!; try done. exists partner. by rewrite Hc.
Qed.

Lemma typing_trusts_payload_witness :
  let s := (run anonymous_socket (init sample_db)).1 in
  userSockets s !! 3%positive = None
  ∧ userTypingStatus (handle (FromClient 3 8 (TypingStart 10 1)) s).1
    = <[1 := (10, 8)]> (userTypingStatus s)
  ∧ IoTo (Some 2%positive) (UserTypingStatus 1 (display_name 1 (db s)) 10 true)
    ∈ (handle (FromClient 3 8 (TypingStart 10 1)) s).2.
Proof.
  assert (Hsid : 3%positive ∈ sockets (run anonymous_socket (init sample_db)).1)
    by (apply (bool_decide_unpack _); vm_compute; exact I).
  destruct (typing_trusts_payload (run anonymous_socket (init sample_db)).1 3 8 10 1 Hsid)
    as (Hstart & _ & Hfan & _).
  split_and!.
  - vm_compute. reflexivity.
  - exact Hstart.
  - apply (Hfan 2 2%positive).
    + exists (mkConversation 10 1 2 0). split; [|left; done].
      assert (Hc : conversations (db (run anonymous_socket (init sample_db)).1)
                   = [mkConversation 10 1 2 0]) by (vm_compute; reflexivity).
      rewrite Hc. left.
    + vm_compute. reflexivity.
Defined.

(** ** Eviction by the heartbeat sweep *)

(** The sweep never touches the typing state and only emits status
    changes. *)
Lemma cleanup_entries_typing entries now s :
  let r := cleanup_entries entries now s in
  userTypingStatus (r.1) = userTypingStatus s
  ∧ Forall (λ e, ∃ userId, e = IoEmit (UserStatusChange userId false)) (r.2).
Proof.
  revert s. induction entries as [|[userId lastHeartbeat] rest IH]; intros s; cbn.
  - by split.
  - case_decide; [|apply IH].
    match goal with |- context [cleanup_entries rest now ?x] =>
      specialize (IH x); destruct (cleanup_entries rest now x) as [s5 out] end.
    proj_simpl. destruct IH as [-> Hout]. split.
    + by destruct (connectedUsers s !! userId).
    + constructor; eauto.
Qed.

(** The ['disconnect'] handler, for comparison, removes the typing state of
    the user registered on the socket and sends the stop event to every
    partner with a registered connection. *)
Lemma disconnect_flushes_typing (s : State) (sid : SocketId) (now userId : Z)
    (typingData : Z * Z) :
  sid ∈ sockets s →
  userSockets s !! sid = Some userId →
  userId ≠ 0 →
  userTypingStatus s !! userId = Some typingData →
  let r := handle (FromClient sid now Disconnect) s in
  userTypingStatus (r.1) !! userId = None
  ∧ (∀ partner partnerSid,
       shares_conversation (db s) userId partner → partner ≠ userId →
       connectedUsers s !! partner = Some partnerSid →
       IoTo (Some partnerSid)
            (UserTypingStatus userId (display_name userId (db (r.1))) typingData.1 false)
         ∈ r.2).
Proof.
  intros Hsid Hus Hne Hty r. subst r. rewrite handle_connected by done. cbn [dispatch].
  unfold on_disconnect. proj_simpl. rewrite Hus.
  unfold truthy. rewrite bool_decide_eq_true_2 by done. proj_simpl. rewrite Hty. proj_simpl.
  split; [apply lookup_delete_eq|].
  intros partner partnerSid Hshare Hp Hc. right.
  apply elem_of_emitTypingStatus. exists partner, partnerSid. proj_simpl.
  split_and!; [done| |done]. by rewrite lookup_delete_ne.
Qed.

(** C6.  The heartbeat sweep evicts Alice, who was typing in conversation
    10, while Bob, who shares that conversation, stays connected: Alice's
    entries leave the registry, but her typing state stays and Bob is sent
    no ['user_typing_status'] event; the later ['disconnect'] of Alice's
    socket finds no registry entry and cleans up nothing either. *)
Theorem eviction_keeps_typing_state :
  let s := (run alice_falls_silent (init sample_db)).1 in
  let swept := handle (CleanupTick 30001) s in
  let closed := handle (FromClient 1 30002 Disconnect) (swept.1) in
  userTypingStatus s !! 1 = Some (10, 1000)
  ∧ connectedUsers (swept.1) !! 1 = None
  ∧ userSockets (swept.1) !! 1%positive = None
  ∧ connectedUsers (swept.1) !! 2 = Some 2%positive
  ∧ userTypingStatus (swept.1) !! 1 = Some (10, 1000)
  ∧ swept.2 = [IoEmit (UserStatusChange 1 false)]
  ∧ userTypingStatus (closed.1) !! 1 = Some (10, 1000)
  ∧ closed.2 = [].
Proof. vm_compute. split_and!; reflexivity. Qed.

(** ** Delivery states over a run *)

(** Rows keep their position, their identity and the flags already set. *)
Lemma db_evolves_lookup d d' n m :
  db_evolves d d' → messages d !! n = Some m →
  ∃ m', messages d' !! n = Some m' ∧ msg_le m m'.
Proof.
  intros [_ _ _ (pre & extra & Hm & Hp & _ & _)] Hn.
  destruct (Forall2_lookup_l _ _ _ _ _ Hp Hn) as (m' & Hn' & Hle).
  exists m'. split; [|done]. rewrite Hm. by apply lookup_app_l_Some.
Qed.

(** With unique ids, a later row with the id of [m] is a later version of
    [m]. *)
Lemma db_evolves_same_id d d' m m' :
  wf_db d → db_evolves d d' →
  m ∈ messages d → m' ∈ messages d' → msg_id m' = msg_id m → msg_le m m'.
Proof.
  intros [Hnd _ Hseq _] [_ _ _ (pre & extra & Hm & Hp & Hx & _)] Hin Hin' Hid.
  rewrite Hm in Hin'. apply elem_of_app in Hin' as [Hin'|Hin'].
  - apply list_elem_of_lookup_1 in Hin' as [n Hn'].
    destruct (Forall2_lookup_r _ _ _ _ _ Hp Hn') as (m0 & Hn0 & Hle).
    apply list_elem_of_lookup_1 in Hin as [n1 Hn1].
    assert (n1 = n) as ->.
    { eapply NoDup_lookup; [exact Hnd| |].
      - rewrite list_lookup_fmap, Hn1. done.
      - rewrite list_lookup_fmap, Hn0. cbn. destruct Hle as [Hi _ _ _ _]. congruence. }
    congruence.
  - rewrite Forall_forall in Hseq, Hx. specialize (Hseq _ Hin).
    destruct (Hx _ Hin') as [? _]. lia.
Qed.

Lemma select_message_unique d k :
  wf_db d →
  select_message k d = []
  ∨ ∃ m, select_message k d = [m] ∧ m ∈ messages d ∧ msg_id m = k.
Proof.
  intros [Hnd _ _ _]. unfold select_message. revert Hnd.
  generalize (messages d). intros l. induction l as [|x l IH]; intros Hnd; [by left|].
  cbn in Hnd. apply NoDup_cons in Hnd as [Hx Hnd]. rewrite filter_cons. case_decide.
  - right. exists x. split_and!; [|left|done]. f_equal. apply filter_none.
    intros y Hy Hk. apply Hx.
    apply list_elem_of_fmap. exists y. split; [congruence|done].
  - destruct (IH Hnd) as [->|(m & -> & Hin & Hk)]; [by left|]. right. exists m.
    split_and!; [done| |done]. by right.
Qed.

Lemma observed_states_bound k inputs s m :
  wf_db (db s) → m ∈ messages (db s) → msg_id m = k →
  Forall (λ st, rank (deliveryState m) ≤ rank st) (observed_states k inputs s).
Proof.
  revert s m. induction inputs as [|i rest IH]; intros s m Hwf Hin Hk; cbn; [constructor|].
  pose proof (handle_evolves i s) as Hev. pose proof (handle_wf i s Hwf) as Hwf1.
  apply list_elem_of_lookup_1 in Hin as Hn. destruct Hn as [n Hn].
  destruct (db_evolves_lookup _ _ _ _ Hev Hn) as (m1 & Hn1 & Hle1).
  apply list_elem_of_lookup_2 in Hn1 as Hin1.
  apply Forall_app. split.
  - apply Forall_fmap, Forall_forall. intros m' Hm'.
    apply list_elem_of_filter in Hm' as [Hid Hm']. cbn.
    apply msg_le_rank. apply (db_evolves_same_id (db s) (db (handle i s).1)); try done.
    congruence.
  - eapply Forall_impl.
    + apply (IH _ m1 Hwf1 Hin1). destruct Hle1 as [Hi _ _ _ _]. congruence.
    + cbn. intros st Hst. pose proof (msg_le_rank _ _ Hle1). lia.
Qed.

(** C2 (as amended).  Over any run, from a store that satisfies its key
    constraints, the delivery states seen for a message never move
    backwards in the order sent, delivered, read, and no row ever has
    [is_delivered] or [is_read] set back to false.  (A message may however
    be marked read while it is not marked delivered.) *)
Theorem delivery_state_never_regresses (messageId : Z) (inputs : list Input) (s : State) :
  wf_db (db s) →
  StronglySorted (λ a b, rank a ≤ rank b) (observed_states messageId inputs s)
  ∧ (∀ n m, messages (db s) !! n = Some m →
       ∃ m', messages (db (run inputs s).1) !! n = Some m'
             ∧ msg_id m' = msg_id m
             ∧ (is_delivered m = true → is_delivered m' = true)
             ∧ (is_read m = true → is_read m' = true)).
Proof.
  intros Hwf. split.
  - revert s Hwf. induction inputs as [|i rest IH]; intros s Hwf; cbn; [constructor|].
    pose proof (handle_wf i s Hwf) as Hwf1. specialize (IH _ Hwf1).
    destruct (select_message_unique (db (handle i s).1) messageId Hwf1)
      as [->|(m & -> & Hin & Hk)]; [done|].
    cbn. constructor; [done|]. by apply observed_states_bound.
  - intros n m Hn.
    destruct (db_evolves_lookup _ _ _ _ (run_evolves inputs s) Hn) as (m' & Hn' & Hle).
    exists m'. destruct Hle as [Hi _ _ Hd Hr]. done.
Qed.

Lemma delivery_state_never_regresses_witness :
  let s := (run message_waiting (init sample_db)).1 in
  let inputs := [FromClient 2 9 (Authenticate (SignedFor 2));
                 FromClient 2 10 (MessageReadEv 10 2)] in
  StronglySorted (λ a b, rank a ≤ rank b) (observed_states 1 inputs s)
  ∧ (∀ n m, messages (db s) !! n = Some m →
       ∃ m', messages (db (run inputs s).1) !! n = Some m'
             ∧ msg_id m' = msg_id m
             ∧ (is_delivered m = true → is_delivered m' = true)
             ∧ (is_read m = true → is_read m' = true)).
Proof.
  apply (delivery_state_never_regresses 1
           [FromClient 2 9 (Authenticate (SignedFor 2)); FromClient 2 10 (MessageReadEv 10 2)]
           (run message_waiting (init sample_db)).1).
  apply run_wf, sample_db_wf.
Defined.

(** C2 (as worded) fails: the message Alice sends while Bob is not signed in
    is in the sent state, and the ['message:read'] that follows takes it to
    read although it was never delivered. *)
Lemma read_skips_delivered :
  ¬ takes_prefix_of_lifecycle 1 read_before_delivery (init sample_db).
Proof.
  unfold takes_prefix_of_lifecycle.
  assert (Hobs : changes (observed_states 1 read_before_delivery (init sample_db))
                 = [StateSent; StateRead]) by (vm_compute; reflexivity).
  rewrite Hobs. intros [k Hk]. discriminate Hk.
Qed.

(** ** Replay on reconnect *)

Lemma NoDup_fmap_filter {A B} (f : A → B) (P : A → Prop) `{∀ x, Decision (P x)} (l : list A) :
  NoDup (f <$> l) → NoDup (f <$> filter P l).
Proof.
  induction l as [|x l IH]; [done|]. rewrite fmap_cons. intros [Hx Hnd]%NoDup_cons.
  rewrite filter_cons. case_decide; [|by apply IH].
  rewrite fmap_cons. apply NoDup_cons. split; [|by apply IH].
  intros Hin. apply Hx. apply list_elem_of_fmap in Hin as (y & -> & Hy).
  apply list_elem_of_filter in Hy as [_ Hy]. by apply list_elem_of_fmap_2.
Qed.

Lemma deliver_rows_messages rows now s :
  messages (db (deliver_rows rows now s).1) =
  map (λ m, if bool_decide (msg_id m ∈ msg_id <$> rows) then deliver now m else m)
      (messages (db s)).
Proof.
  revert s. induction rows as [|message rest IH]; intros s; cbn [deliver_rows].
  - cbn. induction (messages (db s)) as [|m l IHl]; [done|]. cbn. by rewrite <- IHl.
  - specialize (IH (set_db (mark_delivered (msg_id message) now (db s)) s)).
    destruct (deliver_rows rest now _) as [s2 out]. proj_simpl. rewrite IH.
    unfold mark_delivered. proj_simpl. rewrite map_map. apply map_ext. intros m.
    cbn [fmap list_fmap]. case_decide as Hid.
    + rewrite (bool_decide_eq_true_2 (msg_id m ∈ _ :: _)) by (rewrite Hid; left).
      by destruct (bool_decide _).
    + destruct (bool_decide (msg_id m ∈ msg_id <$> rest)) eqn:Hr.
      * apply bool_decide_eq_true in Hr.
        by rewrite (bool_decide_eq_true_2 (msg_id m ∈ _ :: _)) by by right.
      * apply bool_decide_eq_false in Hr.
        rewrite (bool_decide_eq_false_2 (msg_id m ∈ _ :: _)); [done|].
        intros [?|?]%elem_of_cons; done.
Qed.

Lemma deliver_rows_effects rows now s :
  (deliver_rows rows now s).2 = rows ≫= row_effects (connectedUsers s) now.
Proof.
  revert s. induction rows as [|message rest IH]; intros s; cbn [deliver_rows]; [done|].
  specialize (IH (set_db (mark_delivered (msg_id message) now (db s)) s)).
  destruct (deliver_rows rest now _) as [s2 out]. proj_simpl. rewrite bind_cons, IH.
  unfold row_effects at 2. by destruct (sender_id message ≫= _).
Qed.

(** Under the key constraints the join selects each pending message once. *)
Lemma pending_join_row userId m (cs : list Conversation) :
  NoDup (conv_id <$> cs) →
  (c ← cs; if pending_row userId m c then [m] else [])
  = if decide (Exists (λ c, pending_row userId m c = true) cs) then [m] else [].
Proof.
  induction cs as [|c cs IHc]; intros Hnd; [done|].
  rewrite fmap_cons in Hnd. apply NoDup_cons in Hnd as [Hc Hnd]. specialize (IHc Hnd).
  rewrite bind_cons. destruct (pending_row userId m c) eqn:Hp.
  - rewrite decide_True by (by left).
    assert (Hnone : ¬ Exists (λ c0, pending_row userId m c0 = true) cs).
    { intros (c' & Hin' & Hp')%Exists_exists. apply Hc.
      unfold pending_row in Hp, Hp'.
      repeat match goal with H : _ && _ = true |- _ => apply andb_prop in H as [H ?] end.
      repeat match goal with H : bool_decide _ = true |- _ => apply bool_decide_eq_true in H end.
      apply list_elem_of_fmap. exists c'. split; [congruence|done]. }
    rewrite decide_False in IHc by done. by rewrite IHc.
  - rewrite IHc. cbn [app]. destruct (decide (Exists _ cs)) as [He|He].
    + rewrite decide_True by (by right). done.
    + rewrite decide_False; [done|]. intros [?|?]%Exists_cons; [congruence|done].
Qed.

Lemma select_pending_filter userId d :
  NoDup (conv_id <$> conversations d) →
  select_pending userId d = filter (is_pending userId d) (messages d).
Proof.
  intros Hnd. unfold select_pending, is_pending.
  induction (messages d) as [|m l IH]; [done|].
  rewrite bind_cons, IH, filter_cons, pending_join_row by done.
  by case_decide.
Qed.

Lemma is_pending_addressed userId d m :
  addressed_to d userId m → is_delivered m = false → is_pending userId d m.
Proof.
  intros (c & sender & Hc & (conv & Hin & Hid & Hp) & Hs & Hne) Hd.
  apply Exists_exists. exists conv. split; [done|].
  unfold pending_row. rewrite Hc, Hs, Hd, Hid.
  rewrite (bool_decide_eq_true_2 (Some c = Some c)) by done.
  rewrite (bool_decide_eq_true_2 (sender ≠ userId)) by done.
  destruct Hp as [Hp|Hp]; rewrite (bool_decide_eq_true_2 _ Hp); by rewrite ?orb_true_r.
Qed.

(** The ['message:delivered'] events of the replay for one message. *)
Lemma delivered_events_of_rows registry now rows m :
  NoDup (msg_id <$> rows) → m ∈ rows →
  filter (λ e, is_delivered_event (msg_id m) e = true) (rows ≫= row_effects registry now)
  = match sender_id m ≫= (λ senderId, registry !! senderId) with
    | Some socketId => [IoTo (Some socketId) (MessageDelivered (msg_id m) (conversation_id m))]
    | None => []
    end.
Proof.
  assert (Hother : ∀ l, msg_id m ∉ msg_id <$> l →
            filter (λ e, is_delivered_event (msg_id m) e = true)
                   (l ≫= row_effects registry now) = []).
  { intros l Hl. apply filter_none. intros e (x & He & Hx)%list_elem_of_bind Hev.
    unfold row_effects in He. apply elem_of_cons in He as [->|He]; [done|].
    destruct (sender_id x ≫= _); [|by apply not_elem_of_nil in He].
    apply list_elem_of_singleton in He as ->. cbn in Hev.
    apply bool_decide_eq_true in Hev. apply Hl. rewrite <- Hev.
    by apply list_elem_of_fmap_2. }
  induction rows as [|x rows IH]; intros Hnd Hin; [by apply not_elem_of_nil in Hin|].
  cbn in Hnd. apply NoDup_cons in Hnd as [Hx Hnd]. rewrite bind_cons, filter_app.
  apply elem_of_cons in Hin as [->|Hin].
  - rewrite (Hother rows Hx), app_nil_r. unfold row_effects. rewrite filter_cons.
    rewrite decide_False by done.
    destruct (sender_id x ≫= _); [|done]. rewrite filter_cons. rewrite decide_True; [done|].
    cbn. by apply bool_decide_eq_true.
  - rewrite (IH Hnd Hin).
    assert (Hne : msg_id x ≠ msg_id m).
    { intros Heq. apply Hx. rewrite Heq. by apply list_elem_of_fmap_2. }
    rewrite (filter_none _ (row_effects registry now x)); [done|].
    intros e He Hev. unfold row_effects in He. apply elem_of_cons in He as [->|He]; [done|].
    destruct (sender_id x ≫= _); [|by apply not_elem_of_nil in He].
    apply list_elem_of_singleton in He as ->. cbn in Hev.
    by apply bool_decide_eq_true in Hev.
Qed.

Lemma cleanup_existing_inert sid userId now s :
  Forall (λ e, inert e = true) (cleanup_existing sid userId now s).2.
Proof.
  rewrite cleanup_existing_spec. destruct (connectedUsers s !! userId); [|done].
  case_decide; [|done]. cbn. case_decide; repeat constructor.
Qed.

Lemma sendUpdatedConversationData_inert userId s :
  Forall (λ e, inert e = true) (sendUpdatedConversationData userId s).
Proof.
  unfold sendUpdatedConversationData. destruct (select_conversations_of _ _); [done|].
  destruct (connectedUsers s !! userId); repeat constructor.
Qed.

Lemma inert_not_delivered_event k (out : list Effect) :
  Forall (λ e, inert e = true) out →
  filter (λ e, is_delivered_event k e = true) out = [].
Proof.
  intros Hall. apply filter_none. intros e He Hev. rewrite Forall_forall in Hall.
  specialize (Hall e He). unfold is_delivered_event in Hev. unfold inert in Hall.
  destruct e as [? ev|? ? ev|? ev|ev| | |w]; try done; destruct ev; done.
Qed.

(** The store and the effects of a successful ['authenticate']: the replay
    runs over the rows pending for the user, with the user already
    registered. *)
Lemma on_authenticate_replay sid userId now s :
  let r := on_authenticate sid (SignedFor userId) now s in
  let rows := select_pending userId (db s) in
  messages (db (r.1))
  = map (λ m, if bool_decide (msg_id m ∈ msg_id <$> rows) then deliver now m else m)
        (messages (db s))
  ∧ r.2 = (cleanup_existing sid userId now s).2
          ++ (rows ≫= row_effects (<[userId := sid]> (connectedUsers s)) now)
          ++ sendUpdatedConversationData userId (r.1)
          ++ [IoEmit (UserStatusChange userId true); SocketEmit sid Authenticated;
              SocketJoin sid userId].
Proof.
  unfold on_authenticate. cbn [jwt_verify].
  assert (Hs1 : db (cleanup_existing sid userId now s).1 = db s
                ∧ connectedUsers (cleanup_existing sid userId now s).1 = connectedUsers s).
  { rewrite cleanup_existing_spec. destruct (connectedUsers s !! userId); [|done].
    by case_decide. }
  destruct (cleanup_existing sid userId now s) as [s1 out1]. proj_simpl.
  destruct Hs1 as [Hdb Hcu]. unfold deliverPendingMessages.
  match goal with |- context [deliver_rows ?rows now ?x] =>
    pose proof (deliver_rows_messages rows now x) as Hm;
    pose proof (deliver_rows_effects rows now x) as He;
    destruct (deliver_rows rows now x) as [s6 out6] end.
  proj_simpl. rewrite Hdb, Hcu in *. split; [exact Hm|]. by rewrite He.
Qed.

(** When the ['authenticate'] handler of user [userId] runs to its end
    before another handler is taken, every message addressed to the user
    that was in the sent state is in the delivered state afterwards, with
    [delivered_at] set to the time of the replay, and it is the only row
    with its id.  If the sender of the message has a registered connection,
    the effects of the handler contain exactly one ['message:delivered']
    event for the message, addressed to that connection and carrying the
    message id and the conversation id; if the sender has none, they
    contain no such event.  What happens when a second replay for the user
    starts before the first has ended is computed further down. *)
Lemma replay_completeness (s : State) (sid : SocketId) (now userId : Z) (m : Message) :
  wf_db (db s) →
  sid ∈ sockets s →
  m ∈ messages (db s) →
  addressed_to (db s) userId m →
  deliveryState m = StateSent →
  let r := handle (FromClient sid now (Authenticate (SignedFor userId))) s in
  deliver now m ∈ messages (db (r.1))
  ∧ deliveryState (deliver now m) = StateDelivered
  ∧ (∀ m', m' ∈ messages (db (r.1)) → msg_id m' = msg_id m → m' = deliver now m)
  ∧ (∀ sender, sender_id m = Some sender →
       filter (λ e, is_delivered_event (msg_id m) e = true) (r.2)
       = match connectedUsers (r.1) !! sender with
         | Some senderSid =>
             [IoTo (Some senderSid) (MessageDelivered (msg_id m) (conversation_id m))]
         | None => []
         end).
Proof.
  intros Hwf Hsid Hin Haddr Hsent r. subst r. rewrite handle_connected by done.
  cbn [dispatch].
  assert (Hflags : is_delivered m = false ∧ is_read m = false).
  { unfold deliveryState in Hsent. by destruct (is_read m), (is_delivered m). }
  destruct Hflags as [Hd Hr].
  destruct (on_authenticate_replay sid userId now s) as [Hmsgs Hout].
  destruct (on_authenticate_maps sid userId now s) as (Hcu & _).
  pose proof Hwf as [Hnd Hcnd _ _].
  assert (Hrow : m ∈ select_pending userId (db s)).
  { rewrite select_pending_filter by done. apply list_elem_of_filter. split; [|done].
    by apply is_pending_addressed. }
  assert (Hrows : NoDup (msg_id <$> select_pending userId (db s))).
  { rewrite select_pending_filter by done. by apply NoDup_fmap_filter. }
  split_and!.
  - rewrite Hmsgs. apply list_elem_of_fmap. exists m. split; [|done].
    rewrite bool_decide_eq_true_2; [done|]. by apply list_elem_of_fmap_2.
  - unfold deliveryState. cbn. by rewrite Hr.
  - intros m' Hin' Hid. rewrite Hmsgs in Hin'.
    apply list_elem_of_fmap in Hin' as (m0 & -> & Hin0).
    assert (Hid0 : msg_id m0 = msg_id m).
    { rewrite <- Hid. by destruct (bool_decide _). }
    assert (m0 = m) as ->.
    { apply list_elem_of_lookup_1 in Hin0 as [i Hi]. apply list_elem_of_lookup_1 in Hin as [j Hj].
      assert (i = j) as ->; [|congruence].
      eapply NoDup_lookup; [exact Hnd| |].
      - rewrite list_lookup_fmap, Hi. cbn. by rewrite Hid0.
      - by rewrite list_lookup_fmap, Hj. }
    rewrite bool_decide_eq_true_2; [done|]. by apply list_elem_of_fmap_2.
  - intros sender Hs. rewrite Hout, Hcu. rewrite !filter_app.
    rewrite (inert_not_delivered_event _ _ (cleanup_existing_inert sid userId now s)).
    rewrite (inert_not_delivered_event _ _ (sendUpdatedConversationData_inert userId _)).
    rewrite (delivered_events_of_rows _ _ _ m Hrows Hrow). rewrite Hs. cbn.
    by destruct (<[userId:=sid]> (connectedUsers s) !! sender).
Qed.

Lemma replay_completeness_witness :
  let s := (run message_waiting (init sample_db)).1 in
  let m := mkMessage 1 (Some 10) (Some 1) "hi" false false None None 8 in
  let r := handle (FromClient 2 9 (Authenticate (SignedFor 2))) s in
  deliver 9 m ∈ messages (db (r.1))
  ∧ deliveryState (deliver 9 m) = StateDelivered
  ∧ (∀ m', m' ∈ messages (db (r.1)) → msg_id m' = msg_id m → m' = deliver 9 m)
  ∧ (∀ sender, sender_id m = Some sender →
       filter (λ e, is_delivered_event (msg_id m) e = true) (r.2)
       = match connectedUsers (r.1) !! sender with
         | Some senderSid =>
             [IoTo (Some senderSid) (MessageDelivered (msg_id m) (conversation_id m))]
         | None => []
         end).
Proof.
  assert (Hmsgs : messages (db (run message_waiting (init sample_db)).1)
                  = [mkMessage 1 (Some 10) (Some 1) "hi" false false None None 8])
    by (vm_compute; reflexivity).
  assert (Hconvs : conversations (db (run message_waiting (init sample_db)).1)
                   = [mkConversation 10 1 2 0])
    by (vm_compute; reflexivity).
  apply (replay_completeness (run message_waiting (init sample_db)).1 2 9 2
           (mkMessage 1 (Some 10) (Some 1) "hi" false false None None 8)).
  - apply run_wf, sample_db_wf.
  - apply (bool_decide_unpack _). vm_compute. exact I.
  - rewrite Hmsgs. left.
  - exists 10, 1. split_and!; try done.
    exists (mkConversation 10 1 2 0). rewrite Hconvs. split_and!; [left|done|by right].
  - reflexivity.
Defined.

(** ** Delivery written once *)

(** Cutting the ['message:send'] handler at its [await]s does not change
    what it does when nothing runs in between. *)
Lemma complete_send_task sid conversationId text senderId now s :
  complete (send_task sid conversationId text senderId) now s
  = on_message_send sid conversationId text senderId now s.
Proof.
  unfold send_task, on_message_send. cbn [complete].
  destruct (insert_message conversationId senderId text now (db s)) as [d1 [err|message]];
    cbn [complete]; [done|]. proj_simpl.
  destruct (select_conversation conversationId d1) as [|conv rest]; cbn [complete]; [done|].
  proj_simpl.
  by match goal with |- context [if ?b then _ else _] => destruct b end.
Qed.

(** The same under [schedule]: when the five resumptions of a
    ['message:send'] follow its arrival directly, the server does what
    [handle] does. *)
Lemma send_uninterrupted sid now conversationId text senderId s :
  sid ∈ sockets s →
  let r := schedule (Arrive (FromClient sid now (MessageSend conversationId text senderId))
                       :: replicate 5 (Resume 0 now))
                    (mkServer s []) in
  (server_state (r.1), r.2)
  = handle (FromClient sid now (MessageSend conversationId text senderId)) s.
Proof.
  intros Hsid. rewrite handle_connected by done. cbn [dispatch replicate schedule tick].
  cbn [server_state suspended]. rewrite decide_True by done.
  cbn [app lookup list_lookup send_task server_state suspended].
  unfold on_message_send.
  destruct (insert_message conversationId senderId text now (db s)) as [d1 [err|message]];
    cbn; [done|].
  destruct (select_conversation conversationId d1) as [|conv rest]; cbn; [done|].
  by match goal with |- context [if ?b then _ else _] => destruct b end.
Qed.

(** *** Handlers that run to completion *)

Lemma count_app p (l1 l2 : list Effect) : count p (l1 ++ l2) = (count p l1 + count p l2)%nat.
Proof. unfold count. by rewrite filter_app, length_app. Qed.

Lemma count_cons p e (l : list Effect) :
  count p (e :: l) = ((if p e then 1 else 0) + count p l)%nat.
Proof.
  unfold count. rewrite filter_cons. destruct (p e) eqn:Hp.
  - by rewrite decide_True.
  - by rewrite decide_False.
Qed.

Lemma inert_quiet k e :
  inert e = true → is_delivered_write k e = false ∧ is_sender_notice k e = false.
Proof.
  unfold inert. destruct e as [? ev|? ? ev|? ev|ev| | |w]; try done.
  all: try (destruct ev as [| | | |row ? status| | | | | | | |]; try done;
            by destruct status, row).
  all: by destruct w.
Qed.

Lemma count_inert k (out : list Effect) :
  Forall (λ e, inert e = true) out →
  count (is_delivered_write k) out = 0%nat ∧ count (is_sender_notice k) out = 0%nat.
Proof.
  induction 1 as [|e out He _ [IHw IHn]]; [done|].
  destruct (inert_quiet k e He) as [Hw Hn]. by rewrite !count_cons, Hw, Hn, IHw, IHn.
Qed.

Lemma delivers_once_inert k d out d' :
  Forall (λ e, inert e = true) out → delivers_once k d out d'.
Proof.
  intros Hall. destruct (count_inert k out Hall) as [Hw Hn]. unfold delivers_once.
  rewrite Hw, Hn. split_and!; lia.
Qed.

Lemma delivers_once_frame k d pre out post d' :
  Forall (λ e, inert e = true) pre → Forall (λ e, inert e = true) post →
  delivers_once k d out d' → delivers_once k d (pre ++ out ++ post) d'.
Proof.
  intros Hpre Hpost. unfold delivers_once. rewrite !count_app.
  destruct (count_inert k pre Hpre) as [-> ->]. destruct (count_inert k post Hpost) as [-> ->].
  by rewrite !Nat.add_0_r.
Qed.

(** A message that is closed stays closed. *)
Lemma can_deliver_evolves d d' k : db_evolves d d' → can_deliver d' k → can_deliver d k.
Proof.
  intros [_ _ Hseq (pre & extra & Hm & Hp & Hx & _)] [Hk|(m' & Hin' & Hid & Hd)].
  - left. lia.
  - rewrite Hm in Hin'. apply elem_of_app in Hin' as [Hin'|Hin'].
    + apply list_elem_of_lookup_1 in Hin' as [n Hn'].
      destruct (Forall2_lookup_r _ _ _ _ _ Hp Hn') as (m & Hn & [Hi _ _ Hdel _]).
      right. exists m. split_and!.
      * by eapply list_elem_of_lookup_2.
      * congruence.
      * destruct (is_delivered m); [|done]. rewrite Hdel in Hd; done.
    + rewrite Forall_forall in Hx. destruct (Hx _ Hin') as [? _]. left. lia.
Qed.

Lemma delivers_once_seq k d1 out1 d2 out2 d3 :
  db_evolves d1 d2 → db_evolves d2 d3 →
  delivers_once k d1 out1 d2 → delivers_once k d2 out2 d3 →
  delivers_once k d1 (out1 ++ out2) d3.
Proof.
  intros H12 H23 (Hw1 & Hn1 & Hc1) (Hw2 & Hn2 & Hc2). unfold delivers_once.
  rewrite !count_app.
  assert (Hex : (0 < count (is_delivered_write k) out1)%nat →
                count (is_delivered_write k) out2 = 0%nat).
  { intros H1. destruct (Hc1 H1) as [_ Hclosed].
    destruct (count (is_delivered_write k) out2) as [|n] eqn:Hc; [done|].
    destruct Hc2 as [Hopen _]; [lia|]. done. }
  split_and!.
  - destruct (count (is_delivered_write k) out1); [lia|]. rewrite Hex; lia.
  - lia.
  - intros Hpos. destruct (count (is_delivered_write k) out1) as [|n] eqn:Hc.
    + destruct Hc2 as [Hopen Hclosed]; [lia|]. split; [|done].
      by apply (can_deliver_evolves d1 d2).
    + destruct Hc1 as [Hopen Hclosed]; [lia|]. split; [done|].
      intros H3. by apply Hclosed, (can_deliver_evolves d2 d3).
Qed.

(** The replay loop. *)
Lemma count_row_effects k registry now (x : Message) :
  count (is_delivered_write k) (row_effects registry now x)
  = (if decide (msg_id x = k) then 1 else 0)%nat
  ∧ (count (is_sender_notice k) (row_effects registry now x)
     ≤ if decide (msg_id x = k) then 1 else 0)%nat.
Proof.
  unfold row_effects.
  destruct (sender_id x ≫= _); rewrite !count_cons;
    cbn [is_delivered_write is_sender_notice is_delivered_event event_of];
    change (count _ []) with 0%nat;
    case_decide as Hk;
    rewrite ?(bool_decide_eq_true_2 _ Hk), ?(bool_decide_eq_false_2 _ Hk); split; lia.
Qed.

Lemma count_rows k registry now (rows : list Message) :
  count (is_delivered_write k) (rows ≫= row_effects registry now)
  = length (filter (λ m, msg_id m = k) rows)
  ∧ (count (is_sender_notice k) (rows ≫= row_effects registry now)
     ≤ count (is_delivered_write k) (rows ≫= row_effects registry now))%nat.
Proof.
  induction rows as [|x rows [IHw IHn]]; [done|].
  destruct (count_row_effects k registry now x) as [Hw Hn].
  rewrite bind_cons, !count_app, filter_cons, Hw, IHw.
  case_decide; cbn [length]; split; lia.
Qed.

Lemma length_filter_id (rows : list Message) k :
  NoDup (msg_id <$> rows) → (length (filter (λ m, msg_id m = k) rows) ≤ 1)%nat.
Proof.
  induction rows as [|x rows IH]; [cbn; lia|]. rewrite fmap_cons.
  intros [Hx Hnd]%NoDup_cons. rewrite filter_cons. case_decide as Hk; [|by apply IH].
  rewrite (filter_none _ rows); [cbn; lia|]. intros y Hy Hyk. apply Hx.
  apply list_elem_of_fmap. exists y. split; [congruence|done].
Qed.

Lemma replay_delivers_once k userId registry now d d' :
  wf_db d → db_evolves d d' →
  messages d'
  = map (λ m, if bool_decide (msg_id m ∈ msg_id <$> select_pending userId d)
              then deliver now m else m) (messages d) →
  delivers_once k d (select_pending userId d ≫= row_effects registry now) d'.
Proof.
  intros Hwf Hev Hmsgs. pose proof Hwf as [Hnd Hcnd Hseq _].
  destruct (count_rows k registry now (select_pending userId d)) as [Hw Hn].
  assert (Hrows : NoDup (msg_id <$> select_pending userId d)).
  { rewrite select_pending_filter by done. by apply NoDup_fmap_filter. }
  unfold delivers_once. split_and!.
  - rewrite Hw. by apply length_filter_id.
  - done.
  - rewrite Hw. intros Hpos.
    destruct (filter (λ m, msg_id m = k) (select_pending userId d)) as [|m l] eqn:Hf;
      [cbn in Hpos; lia|].
    assert (Hm : m ∈ filter (λ m, msg_id m = k) (select_pending userId d))
      by (rewrite Hf; left).
    apply list_elem_of_filter in Hm as [Hk Hm].
    pose proof Hm as Hrow.
    rewrite select_pending_filter in Hm by done.
    apply list_elem_of_filter in Hm as [Hp Hin].
    apply Exists_exists in Hp as (c & _ & Hp). unfold pending_row in Hp.
    apply andb_prop in Hp as [_ Hd]. apply negb_true_iff in Hd.
    rewrite Forall_forall in Hseq. specialize (Hseq m Hin).
    split.
    + right. eauto.
    + intros [Hfresh|(m' & Hin' & Hid' & Hd')].
      * destruct Hev as [_ _ Hs _]. lia.
      * rewrite Hmsgs in Hin'. apply list_elem_of_fmap in Hin' as (m0 & -> & Hin0).
        assert (Hid0 : msg_id m0 = k).
        { rewrite <- Hid'. by destruct (bool_decide _). }
        rewrite bool_decide_eq_true_2 in Hd'; [done|].
        rewrite Hid0, <- Hk. by apply list_elem_of_fmap_2.
Qed.

Lemma delivers_once_same_rows k d0 d out d' :
  messages d0 = messages d → messages_id_seq d0 = messages_id_seq d →
  delivers_once k d0 out d' → delivers_once k d out d'.
Proof.
  intros Hm Hs (Hw & Hn & Hc). split_and!; [done..|].
  intros Hpos. destruct (Hc Hpos) as [Hopen Hclosed]. split; [|done].
  unfold can_deliver in *. by rewrite <- Hm, <- Hs.
Qed.

Lemma deliverPendingMessages_delivers_once k userId now s :
  wf_db (db s) →
  delivers_once k (db s) (deliverPendingMessages userId now s).2
                (db (deliverPendingMessages userId now s).1).
Proof.
  intros Hwf. unfold deliverPendingMessages. rewrite deliver_rows_effects.
  apply replay_delivers_once; [done| |apply deliver_rows_messages].
  apply deliver_rows_frame.
Qed.

Lemma emitTypingStatus_inert typingUserId conversationId isTyping s :
  Forall (λ e, inert e = true)
         (emitTypingStatusToRelevantUsers typingUserId conversationId isTyping s).
Proof.
  apply Forall_forall. intros e He.
  apply elem_of_emitTypingStatus in He as (? & ? & _ & _ & ->). done.
Qed.

Lemma on_disconnect_inert sid now s :
  Forall (λ e, inert e = true) (on_disconnect sid now s).2.
Proof.
  unfold on_disconnect. destruct (userSockets s !! sid) as [userId|]; [|done].
  destruct (truthy userId); [|done]. proj_simpl.
  destruct (userTypingStatus s !! userId); cbn [snd]; repeat constructor.
  apply emitTypingStatus_inert.
Qed.

Lemma cleanup_entries_inert entries now s :
  Forall (λ e, inert e = true) (cleanup_entries entries now s).2.
Proof.
  eapply Forall_impl; [apply cleanup_entries_typing|]. by intros e [userId ->].
Qed.

Lemma on_authenticate_delivers_once k sid token now s :
  wf_db (db s) →
  delivers_once k (db s) (on_authenticate sid token now s).2
                (db (on_authenticate sid token now s).1).
Proof.
  intros Hwf. destruct token as [userId|];
    [|apply delivers_once_inert; repeat constructor].
  destruct (on_authenticate_replay sid userId now s) as [Hmsgs ->].
  apply delivers_once_frame.
  - apply cleanup_existing_inert.
  - apply Forall_app. split; [apply sendUpdatedConversationData_inert|repeat constructor].
  - apply replay_delivers_once; [done|apply on_authenticate_evolves|done].
Qed.

Lemma on_app_state_change_delivers_once k sid state now s :
  wf_db (db s) →
  delivers_once k (db s) (on_app_state_change sid state now s).2
                (db (on_app_state_change sid state now s).1).
Proof.
  intros Hwf. unfold on_app_state_change.
  destruct (userSockets s !! sid) as [userId|]; [|by apply delivers_once_inert].
  destruct (truthy userId); [|by apply delivers_once_inert].
  destruct state; try solve [apply delivers_once_inert; repeat constructor].
  pose proof (deliverPendingMessages_delivers_once k userId now
                (set_db (set_user_online userId true now (db s)) s)) as Hd.
  destruct (deliverPendingMessages userId now _) as [s2 out]. proj_simpl.
  apply (delivers_once_frame k (db s) [] out).
  - constructor.
  - apply Forall_app. split; [apply sendUpdatedConversationData_inert|repeat constructor].
  - apply (delivers_once_same_rows k (set_user_online userId true now (db s))); [done..|].
    apply Hd. eapply wf_db_evolves; [exact Hwf|apply db_evolves_set_user_online].
Qed.

Lemma on_message_send_delivers_once k sid conversationId text senderId now s :
  wf_db (db s) →
  delivers_once k (db s) (on_message_send sid conversationId text senderId now s).2
                (db (on_message_send sid conversationId text senderId now s).1).
Proof.
  intros Hwf.
  destruct text as [txt|];
    [|unfold on_message_send; cbn; apply delivers_once_inert; repeat constructor].
  destruct (fk_ok conversationId (conv_id <$> conversations (db s))) eqn:Hfc; cycle 1.
  { destruct (on_message_send_rejected sid conversationId (Some txt) senderId now s) as [_ ->];
      [auto|]. apply delivers_once_inert; repeat constructor. }
  destruct (fk_ok senderId (user_id <$> users (db s))) eqn:Hfs; cycle 1.
  { destruct (on_message_send_rejected sid conversationId (Some txt) senderId now s) as [_ ->];
      [auto|]. apply delivers_once_inert; repeat constructor. }
  destruct (select_conversation conversationId (db s)) as [|conv rest] eqn:Hsel.
  { unfold on_message_send. rewrite insert_message_accepted by done.
    assert (Hsel' : select_conversation conversationId
              (mkDatabase (users (db s)) (conversations (db s))
                 (messages (db s) ++ [sent_row (db s) conversationId senderId txt now])
                 (messages_id_seq (db s) + 1)) = []).
    { rewrite <- Hsel. by destruct conversationId. }
    rewrite Hsel'. apply delivers_once_inert; repeat constructor. }
  rewrite (on_message_send_accepted _ _ _ _ _ _ conv rest) by done.
  destruct (store_online _ _); proj_simpl;
    [|apply delivers_once_inert; repeat constructor].
  unfold delivers_once. rewrite !count_cons.
  cbn [is_delivered_write is_sender_notice is_delivered_event event_of sent_row deliver msg_id].
  change (count _ []) with 0%nat.
  destruct (bool_decide (messages_id_seq (db s) = k)) eqn:Hk.
  - apply bool_decide_eq_true in Hk. split_and!; [lia..|]. intros _. split.
    + left. lia.
    + intros [Hfresh|(m & Hin & Hid & Hd)]; proj_simpl; [lia|].
      apply elem_of_app in Hin as [Hin|Hin].
      * destruct Hwf as [_ _ Hseq _]. rewrite Forall_forall in Hseq.
        specialize (Hseq m Hin). lia.
      * apply list_elem_of_singleton in Hin as ->. done.
  - split_and!; lia.
Qed.

Lemma handle_delivers_once k i s :
  wf_db (db s) → delivers_once k (db s) (handle i s).2 (db (handle i s).1).
Proof.
  intros Hwf. destruct i as [sid|sid now e|now]; cbn [handle].
  - by apply delivers_once_inert.
  - case_decide; [|by apply delivers_once_inert].
    destruct e; cbn [dispatch].
    + by apply on_authenticate_delivers_once.
    + apply delivers_once_inert. unfold on_heartbeat.
      destruct (userSockets s !! sid); [|done]. by destruct (truthy _).
    + by apply on_app_state_change_delivers_once.
    + apply delivers_once_inert. constructor; [done|apply emitTypingStatus_inert].
    + apply delivers_once_inert. constructor; [done|apply emitTypingStatus_inert].
    + by apply on_message_send_delivers_once.
    + apply delivers_once_inert. unfold on_message_read.
      destruct (mark_read _ _ _ _) as [d1 ids]. cbn [snd]. constructor; [done|].
      apply Forall_app. split; [|repeat constructor].
      destruct ids; [done|]. destruct (select_conversation _ _); [done|].
      destruct (connectedUsers s !! _); repeat constructor.
    + apply delivers_once_inert. repeat constructor.
    + apply delivers_once_inert. apply (on_disconnect_inert sid now (set_sockets _ s)).
  - apply delivers_once_inert. apply cleanup_entries_inert.
Qed.

Lemma run_delivers_once k inputs s :
  wf_db (db s) → delivers_once k (db s) (run inputs s).2 (db (run inputs s).1).
Proof.
  revert s. induction inputs as [|i rest IH]; intros s Hwf; cbn [run].
  - by apply delivers_once_inert.
  - pose proof (handle_delivers_once k i s Hwf) as H1.
    pose proof (handle_evolves i s) as He1. pose proof (handle_wf i s Hwf) as Hwf1.
    destruct (handle i s) as [s1 out1]. proj_simpl.
    specialize (IH s1 Hwf1). pose proof (run_evolves rest s1) as He2.
    destruct (run rest s1) as [s2 out2]. proj_simpl.
    by apply (delivers_once_seq k (db s) out1 (db s1) out2 (db s2)).
Qed.

(** When every handler runs to completion before the next input is taken,
    the delivery of a message is written at most once over any run, and its
    sender is sent at most one delivered notification. *)
Lemma delivered_once_without_interleaving (messageId : Z) (inputs : list Input) (s : State) :
  wf_db (db s) →
  (count (is_delivered_write messageId) (run inputs s).2 ≤ 1)%nat
  ∧ (count (is_sender_notice messageId) (run inputs s).2 ≤ 1)%nat.
Proof.
  intros Hwf. destruct (run_delivers_once messageId inputs s Hwf) as (Hw & Hn & _).
  split; lia.
Qed.

(** *** Handlers that interleave *)

(** C3.  Bob's ['authenticate'] runs while Alice's ['message:send'] is
    suspended between its INSERT and its SELECT of [is_online]: the replay
    marks the new message delivered at time 9 and notifies Alice with
    ['message:delivered']; Alice's handler then finds Bob online, writes
    [delivered_at] again at time 10 and answers Alice with ['message:new']
    in the delivered state.  The message is written as delivered twice and
    its sender is notified twice. *)
Theorem delivered_twice_when_interleaved :
  let r := schedule racing_replay (mkServer (init sample_db) []) in
  filter (λ e, is_delivered_write 1 e = true) (r.2)
  = [Sql (SetDelivered 1 9); Sql (SetDelivered 1 10)]
  ∧ filter (λ e, is_sender_notice 1 e = true) (r.2)
    = [IoTo (Some 1%positive) (MessageDelivered 1 (Some 10));
       SocketEmit 1 (MessageNew
                       (Some (mkMessage 1 (Some 10) (Some 1) "hi" true false (Some 10) None 8))
                       (Some 10) Delivered)]
  ∧ count (is_delivered_write 1) (r.2) = 2%nat
  ∧ count (is_sender_notice 1) (r.2) = 2%nat.
Proof. vm_compute. split_and!; reflexivity. Qed.

(** *** Every handler cut at its [await]s *)

Lemma complete_deliver_rows_task rows k now s :
  complete (deliver_rows_task rows k) now s
  = let '(s1, out1) := deliver_rows rows now s in
    let '(s2, out2) := complete k now s1 in
    (s2, out1 ++ out2).
Proof.
  revert s. induction rows as [|message rest IH]; intros s.
  - cbn [deliver_rows_task deliver_rows]. by destruct (complete k now s).
  - cbn [deliver_rows_task deliver_rows complete]. rewrite IH.
    destruct (deliver_rows rest now _) as [s1 out1]. destruct (complete k now s1) as [s2 out2].
    cbn [app]. by rewrite <- app_assoc.
Qed.

Lemma conversation_entries_task_cons userId conv rest entries tail :
  conversation_entries_task userId (conv :: rest) entries tail
  = Await (λ _ s,
      let entries1 := entries ++ conversation_entry userId (db s) conv in
      match rest with
      | [] => Next s (snapshot_effect userId entries1 s ++ tail) Finished
      | _ :: _ => Next s [] (conversation_entries_task userId rest entries1 tail)
      end).
Proof. done. Qed.

Lemma complete_conversation_entries_task userId conv convs entries tail now s :
  complete (conversation_entries_task userId (conv :: convs) entries tail) now s
  = (s, snapshot_effect userId
          (entries ++ ((conv :: convs) ≫= conversation_entry userId (db s))) s ++ tail).
Proof.
  revert conv entries. induction convs as [|conv' rest IH]; intros conv entries;
    rewrite conversation_entries_task_cons; cbn [complete].
  - rewrite bind_cons.
    change (@nil Conversation ≫= conversation_entry userId (db s)) with (@nil ConvData).
    by rewrite !app_nil_r.
  - rewrite IH. cbn [app]. by rewrite (bind_cons _ conv), app_assoc.
Qed.

Lemma complete_sendUpdatedConversationData_task userId tail now s :
  complete (sendUpdatedConversationData_task userId tail) now s
  = (s, sendUpdatedConversationData userId s ++ tail).
Proof.
  unfold sendUpdatedConversationData_task, sendUpdatedConversationData.
  cbn [complete].
  destruct (select_conversations_of userId (db s)) as [|conv rest]; cbn [complete].
  - by rewrite app_nil_r.
  - rewrite complete_conversation_entries_task. cbn [app]. unfold snapshot_effect.
    by destruct (connectedUsers s !! userId).
Qed.

(** Cutting a handler at its [await]s does not change what it does when
    nothing runs in between. *)
Lemma start_uninterrupted sid now e s :
  finish (start sid now e s) now = dispatch sid now e s.
Proof.
  destruct e as [token| |state|c u|c u|c text sender|c u|c u|]; cbn [start dispatch].
  - unfold authenticate_start, on_authenticate. destruct (jwt_verify token) as [userId|]; [|done].
    destruct (cleanup_existing sid userId now s) as [s1 out1]. cbn [finish complete].
    unfold deliverPendingMessages_task, deliverPendingMessages. cbn [complete]. proj_simpl.
    rewrite complete_deliver_rows_task.
    match goal with |- context [deliver_rows ?rows now ?x] =>
      destruct (deliver_rows rows now x) as [s6 out6] end.
    rewrite complete_sendUpdatedConversationData_task. cbn [app]. by rewrite ?app_nil_r.
  - unfold heartbeat_start, on_heartbeat. destruct (userSockets s !! sid) as [userId|]; [|done].
    by destruct (truthy userId).
  - unfold app_state_change_start, on_app_state_change.
    destruct (userSockets s !! sid) as [userId|]; [|done].
    destruct (truthy userId); [|done]. destruct state; try done.
    cbn [finish complete].
    unfold deliverPendingMessages_task, deliverPendingMessages. cbn [complete]. proj_simpl.
    rewrite complete_deliver_rows_task.
    match goal with |- context [deliver_rows ?rows now ?x] =>
      destruct (deliver_rows rows now x) as [s6 out6] end.
    rewrite complete_sendUpdatedConversationData_task. cbn [app]. by rewrite ?app_nil_r.
  - destruct (on_typing_start sid c u now s) as [s1 out]. cbn [finish complete].
    by rewrite app_nil_r.
  - destruct (on_typing_stop sid c u s) as [s1 out]. cbn [finish complete].
    by rewrite app_nil_r.
  - cbn [finish]. rewrite complete_send_task.
    by destruct (on_message_send sid c text sender now s).
  - unfold message_read_task, on_message_read. cbn [finish complete].
    destruct (mark_read c u now (db s)) as [d1 [|i ids]]; cbn [complete]; proj_simpl.
    + done.
    + cbn [app]. by rewrite app_nil_r.
  - done.
  - unfold disconnect_start, on_disconnect. proj_simpl.
    destruct (userSockets s !! sid) as [userId|]; [|done].
    destruct (truthy userId); [|done]. cbn [finish complete]. proj_simpl.
    destruct (userTypingStatus s !! userId); cbn [complete app]; by rewrite ?app_nil_r.
Qed.

(** C4.  Bob's ['app_state_change'] to [active] arrives while his
    ['authenticate'] is suspended between the SELECT of its replay and the
    first UPDATE.  Both handlers have selected Alice's message 1 as pending;
    both mark it delivered, at times 11 and 12, and both send Alice a
    ['message:delivered'] for it.  The message ends delivered, Bob's
    ['authenticate'] is answered as a success and every handler has run to
    its end, yet the sender, who is reachable throughout, has received two
    ['message:delivered'] events for the one message. *)
Theorem replayed_twice_when_overlapped :
  let r := event_loop overlapping_replays (mkServer (init sample_db) []) in
  filter (λ e, is_delivered_event 1 e = true) (r.2)
  = [IoTo (Some 1%positive) (MessageDelivered 1 (Some 10));
     IoTo (Some 1%positive) (MessageDelivered 1 (Some 10))]
  ∧ filter (λ e, is_delivered_write 1 e = true) (r.2)
    = [Sql (SetDelivered 1 11); Sql (SetDelivered 1 12)]
  ∧ messages (db (server_state (r.1)))
    = [mkMessage 1 (Some 10) (Some 1) "hi" true false (Some 12) None 8]
  ∧ connectedUsers (server_state (r.1)) !! 1 = Some 1%positive
  ∧ SocketEmit 2 Authenticated ∈ r.2
  ∧ suspended (r.1) = [Finished; Finished; Finished; Finished].
Proof.
  cbn zeta. split_and!;
    first [ vm_compute; reflexivity
          | apply (bool_decide_unpack _); vm_compute; exact I
          | vm_compute; repeat first [apply list_elem_of_here | apply list_elem_of_further] ].
Qed.

(** C5.  Carol's socket 1 disconnects, and she signs in again on socket 2
    while the ['disconnect'] handler is suspended at its UPDATE.  The
    handler, resumed, deletes [connectedUsers[3]], which by then belongs to
    socket 2: Carol's ['authenticate'] on socket 2 was answered as a
    success and the socket is open and bound to her in [userSockets], but
    no connection is registered for her in [connectedUsers].  When she
    signs in a third time, on socket 3, the handler finds no earlier
    connection to clean up: two sockets are then bound to her in
    [userSockets], and socket 2 is never closed. *)
Theorem two_sockets_after_reconnect_race :
  let r1 := event_loop reconnect_during_disconnect (mkServer (init sample_db) []) in
  let r2 := event_loop (reconnect_during_disconnect ++ third_sign_in)
              (mkServer (init sample_db) []) in
  (SocketEmit 2 Authenticated ∈ r1.2
   ∧ connectedUsers (server_state (r1.1)) !! 3 = None
   ∧ userSockets (server_state (r1.1)) !! 2%positive = Some 3
   ∧ sockets (server_state (r1.1)) = {[2%positive]}
   ∧ suspended (r1.1) = [Finished; Finished; Finished])
  ∧ (SocketEmit 3 Authenticated ∈ r2.2
     ∧ connectedUsers (server_state (r2.1)) !! 3 = Some 3%positive
     ∧ userSockets (server_state (r2.1)) !! 2%positive = Some 3
     ∧ userSockets (server_state (r2.1)) !! 3%positive = Some 3
     ∧ 2%positive ∈ sockets (server_state (r2.1))
     ∧ filter (λ e, is_close e = true) (r2.2) = []
     ∧ suspended (r2.1) = [Finished; Finished; Finished; Finished]).
Proof.
  cbn zeta. split_and!;
    first [ vm_compute; reflexivity
          | apply (bool_decide_unpack _); vm_compute; exact I
          | vm_compute; repeat first [apply list_elem_of_here | apply list_elem_of_further] ].
Qed.

(** * Further properties of the server *)

(** ** The heartbeat map and the sweep *)

Lemma hb_set_keys userId t (l : list (Z * Z)) :
  (hb_set userId t l).*1 = if bool_decide (userId ∈ l.*1) then l.*1 else l.*1 ++ [userId].
Proof.
  unfold hb_set. destruct (bool_decide (userId ∈ l.*1)).
  - induction l as [|[u v] l IH]; [done|]. cbn. rewrite IH. by case_decide; subst.
  - by rewrite fmap_app.
Qed.

Lemma hb_set_time userId t (l : list (Z * Z)) e :
  e ∈ hb_set userId t l → e.1 = userId → e.2 = t.
Proof.
  unfold hb_set. destruct (bool_decide (userId ∈ l.*1)) eqn:Hin.
  - intros (x & -> & Hx)%list_elem_of_fmap. by destruct (decide (x.1 = userId)).
  - apply bool_decide_eq_false in Hin.
    intros [He|He%list_elem_of_singleton]%elem_of_app; [|by subst].
    intros Hk. destruct Hin. rewrite <- Hk. by apply list_elem_of_fmap_2.
Qed.

Lemma hb_delete_keys userId (l : list (Z * Z)) u :
  u ∈ (hb_delete userId l).*1 ↔ u ≠ userId ∧ u ∈ l.*1.
Proof.
  unfold hb_delete. rewrite !list_elem_of_fmap. split.
  - intros (e & -> & [Hne He]%list_elem_of_filter). split; [done|]. by exists e.
  - intros (Hne & e & -> & He). exists e. split; [done|]. by apply list_elem_of_filter.
Qed.

Lemma hb_set_NoDup userId t (l : list (Z * Z)) : NoDup l.*1 → NoDup (hb_set userId t l).*1.
Proof.
  intros Hnd. rewrite hb_set_keys. destruct (bool_decide (userId ∈ l.*1)) eqn:Hin; [done|].
  apply bool_decide_eq_false in Hin. apply NoDup_app. split_and!; [done| |apply NoDup_singleton].
  intros x Hx ->%list_elem_of_singleton. done.
Qed.

Lemma hb_delete_NoDup userId (l : list (Z * Z)) : NoDup l.*1 → NoDup (hb_delete userId l).*1.
Proof. apply NoDup_fmap_filter. Qed.

Lemma heartbeat_inv_init d : heartbeat_inv (init d).
Proof.
  split; cbn; [constructor|]. intros u. rewrite lookup_empty. split.
  - by intros ?%elem_of_nil.
  - by intros [? ?].
Qed.

(** Registering a user and refreshing the heartbeat go together. *)
Lemma heartbeat_inv_register (hb : list (Z * Z)) (cu : gmap Z SocketId) userId sid t :
  (NoDup hb.*1 ∧ ∀ u, u ∈ hb.*1 ↔ is_Some (cu !! u)) →
  NoDup (hb_set userId t hb).*1
  ∧ ∀ u, u ∈ (hb_set userId t hb).*1 ↔ is_Some (<[userId := sid]> cu !! u).
Proof.
  intros [Hnd Hiff]. split; [by apply hb_set_NoDup|]. intros u. rewrite hb_set_keys.
  destruct (decide (u = userId)) as [->|Hne].
  - rewrite lookup_insert_eq. split; [eauto|]. intros _.
    destruct (bool_decide (userId ∈ hb.*1)) eqn:Hin.
    + by apply bool_decide_eq_true in Hin.
    + apply elem_of_app. right. left.
  - rewrite lookup_insert_ne by done. rewrite <- Hiff.
    destruct (bool_decide (userId ∈ hb.*1)); [done|]. rewrite elem_of_app.
    split; [|auto]. intros [?|?%list_elem_of_singleton]; done.
Qed.

(** Unregistering a user and dropping the heartbeat go together. *)
Lemma heartbeat_inv_unregister (hb : list (Z * Z)) (cu : gmap Z SocketId) userId :
  (NoDup hb.*1 ∧ ∀ u, u ∈ hb.*1 ↔ is_Some (cu !! u)) →
  NoDup (hb_delete userId hb).*1
  ∧ ∀ u, u ∈ (hb_delete userId hb).*1 ↔ is_Some (delete userId cu !! u).
Proof.
  intros [Hnd Hiff]. split; [by apply hb_delete_NoDup|]. intros u.
  rewrite hb_delete_keys, Hiff. destruct (decide (u = userId)) as [->|Hne].
  - rewrite lookup_delete_eq. split; [by intros [? _]|by intros [? ?]].
  - rewrite lookup_delete_ne by done. naive_solver.
Qed.

Lemma on_authenticate_heartbeats sid userId now s :
  userHeartbeats (on_authenticate sid (SignedFor userId) now s).1
  = hb_set userId now (userHeartbeats s).
Proof.
  unfold on_authenticate. cbn [jwt_verify]. rewrite cleanup_existing_spec.
  destruct (connectedUsers s !! userId) as [old|] eqn:Hc; [case_decide|]; proj_simpl;
    match goal with |- context [deliverPendingMessages ?u ?n ?x] =>
      pose proof (deliverPendingMessages_frame u n x) as Hd;
      destruct (deliverPendingMessages u n x) as [s6 out6]
    end; proj_simpl; by destruct Hd as (_ & _ & -> & _).
Qed.

Lemma cleanup_entries_heartbeat_inv entries now s :
  heartbeat_inv s → heartbeat_inv (cleanup_entries entries now s).1.
Proof.
  revert s. induction entries as [|[userId lastHeartbeat] rest IH]; intros s Hinv; cbn; [done|].
  case_decide; [|by apply IH].
  match goal with |- context [cleanup_entries rest now ?x] =>
    specialize (IH x); destruct (cleanup_entries rest now x) as [s5 out] end.
  proj_simpl. apply IH. clear IH. unfold heartbeat_inv.
  destruct (connectedUsers s !! userId); proj_simpl; by apply heartbeat_inv_unregister.
Qed.

Lemma handle_heartbeat_inv i s :
  registry_inv s → heartbeat_inv s → heartbeat_inv (handle i s).1.
Proof.
  intros Hreg Hinv. destruct i as [sid|sid now e|now]; cbn [handle].
  - done.
  - case_decide; [|done]. destruct e; cbn [dispatch]; try done.
    + destruct token as [userId|]; [|done]. unfold heartbeat_inv.
      rewrite on_authenticate_heartbeats.
      destruct (on_authenticate_maps sid userId now s) as (-> & _).
      by apply heartbeat_inv_register.
    + unfold on_heartbeat. destruct (userSockets s !! sid) as [userId|] eqn:Hus; [|done].
      destruct (truthy userId); [|done]. unfold heartbeat_inv. proj_simpl.
      apply Hreg in Hus.
      pose proof (heartbeat_inv_register _ _ userId sid now Hinv) as Hset.
      by rewrite (insert_id (connectedUsers s) userId sid Hus) in Hset.
    + unfold on_app_state_change. destruct (userSockets s !! sid) as [u|]; [|done].
      destruct (truthy u); [|done]. destruct state; try done.
      match goal with |- context [deliverPendingMessages ?u ?n ?x] =>
        pose proof (deliverPendingMessages_frame u n x) as Hd;
        destruct (deliverPendingMessages u n x) as [s6 out6] end.
      proj_simpl. destruct Hd as (Hcu & _ & Hhb & _). unfold heartbeat_inv.
      by rewrite Hcu, Hhb.
    + unfold on_message_send. destruct (insert_message _ _ _ _ _) as [d1 [err|message]]; [done|].
      destruct (select_conversation _ _); [done|].
      by match goal with |- context [if ?b then _ else _] => destruct b end.
    + unfold on_disconnect. proj_simpl.
      destruct (userSockets s !! sid) as [userId|]; [|done].
      destruct (truthy userId); [|done]. proj_simpl.
      destruct (userTypingStatus s !! userId); unfold heartbeat_inv; proj_simpl;
        by apply heartbeat_inv_unregister.
  - by apply cleanup_entries_heartbeat_inv.
Qed.

Lemma run_invariants inputs s :
  registry_inv s → heartbeat_inv s →
  registry_inv (run inputs s).1 ∧ heartbeat_inv (run inputs s).1.
Proof.
  revert s. induction inputs as [|i rest IH]; intros s Hreg Hinv; cbn; [done|].
  pose proof (handle_registry i s Hreg) as Hr1.
  pose proof (handle_heartbeat_inv i s Hreg Hinv) as Hh1.
  destruct (handle i s) as [s1 out1]. specialize (IH s1 Hr1 Hh1). by destruct (run rest s1).
Qed.

(** X1.  When every handler runs to completion before the next input is
    taken, then after any run of the server from its start the two registry
    maps agree in one direction, and the heartbeat map agrees with the
    forward map: whenever [userSockets] maps a socket to a user,
    [connectedUsers] maps that user to that socket; and a user has a
    heartbeat entry exactly when the user has an entry in
    [connectedUsers]. *)
Theorem registry_maps_agree (db0 : Database) (inputs : list Input) :
  let s := (run inputs (init db0)).1 in
  (∀ sid userId, userSockets s !! sid = Some userId → connectedUsers s !! userId = Some sid)
  ∧ (∀ userId, userId ∈ (userHeartbeats s).*1 ↔ is_Some (connectedUsers s !! userId))
  ∧ NoDup (userHeartbeats s).*1.
Proof.
  destruct (run_invariants inputs (init db0) (registry_inv_init db0) (heartbeat_inv_init db0))
    as [Hreg [Hnd Hiff]].
  split_and!; done.
Qed.

Lemma expired_users_cons now e (rest : list (Z * Z)) :
  expired_users now (e :: rest)
  = if decide (expired now e) then e.1 :: expired_users now rest else expired_users now rest.
Proof. unfold expired_users. rewrite filter_cons. by case_decide. Qed.

(** What a sweep over [entries] leaves of the state, whatever the state. *)
Lemma cleanup_entries_spec entries now s :
  let r := cleanup_entries entries now s in
  userHeartbeats (r.1)
  = filter (λ e, e.1 ∉ expired_users now entries) (userHeartbeats s)
  ∧ (∀ u, connectedUsers (r.1) !! u
          = if decide (u ∈ expired_users now entries) then None else connectedUsers s !! u)
  ∧ users (db (r.1))
    = map (λ usr, if decide (user_id usr ∈ expired_users now entries)
                  then mkUser (user_id usr) (name usr) false now else usr) (users (db s))
  ∧ messages (db (r.1)) = messages (db s)
  ∧ conversations (db (r.1)) = conversations (db s)
  ∧ sockets (r.1) = sockets s
  ∧ r.2 = (λ u, IoEmit (UserStatusChange u false)) <$> expired_users now entries.
Proof.
  revert s. induction entries as [|[userId lastHeartbeat] rest IH]; intros s.
  - change (expired_users now []) with (@nil Z). cbn [cleanup_entries fst snd].
    split_and!; try done.
    + symmetry. induction (userHeartbeats s) as [|e l IHl]; [done|].
      rewrite filter_cons, decide_True; [by f_equal|]. by intros ?%elem_of_nil.
    + induction (users (db s)) as [|usr l IHl]; [done|]. cbn [map]. rewrite <- IHl.
      by destruct (decide (user_id usr ∈ [])) as [?%elem_of_nil|].
  - rewrite expired_users_cons. cbn [cleanup_entries].
    destruct (decide (now - lastHeartbeat > HEARTBEAT_TIMEOUT)) as [Hexp|Hexp];
      [rewrite decide_True by done|rewrite decide_False by done; apply IH].
    cbn [fst].
    match goal with |- context [cleanup_entries rest now ?x] =>
      specialize (IH x); destruct (cleanup_entries rest now x) as [s5 out] end.
    cbn zeta in IH. proj_simpl. destruct IH as (Hhb & Hcu & Hus & Hms & Hcv & Hso & Hout).
    assert (Hframe : ∃ us', ∀ s3,
              s3 = match connectedUsers s !! userId with
                   | Some sid =>
                       set_userSockets (delete sid (userSockets s))
                         (set_connectedUsers (delete userId (connectedUsers s))
                            (set_db (set_user_online userId false now (db s)) s))
                   | None =>
                       set_connectedUsers (delete userId (connectedUsers s))
                         (set_db (set_user_online userId false now (db s)) s)
                   end →
              s3 = mkState (delete userId (connectedUsers s)) us' (userHeartbeats s)
                           (userTypingStatus s) (sockets s)
                           (set_user_online userId false now (db s))).
    { destruct (connectedUsers s !! userId); eexists; intros s3 ->; reflexivity. }
    destruct Hframe as [us' Hframe]. specialize (Hframe _ eq_refl).
    rewrite Hframe in Hhb, Hcu, Hus, Hms, Hcv, Hso. proj_simpl.
    split_and!.
    + rewrite Hhb. unfold hb_delete. rewrite list_filter_filter.
      apply list_filter_iff. intros e. rewrite elem_of_cons. naive_solver.
    + intros u. rewrite Hcu. destruct (decide (u = userId)) as [->|Hne].
      * rewrite lookup_delete_eq. rewrite (decide_True (P := userId ∈ userId :: _)) by left.
        by case_decide.
      * rewrite lookup_delete_ne by done.
        destruct (decide (u ∈ expired_users now rest)) as [Hin|Hin].
        -- by rewrite decide_True by by right.
        -- rewrite decide_False; [done|]. by intros [?|?]%elem_of_cons.
    + rewrite Hus. unfold set_user_online. proj_simpl. rewrite map_map. apply map_ext.
      intros usr. destruct (decide (user_id usr = userId)) as [Heq|Hne]; cbn [user_id name].
      * rewrite (decide_True (P := user_id usr ∈ userId :: _)) by (rewrite Heq; left).
        by case_decide.
      * destruct (decide (user_id usr ∈ expired_users now rest)) as [Hin|Hin].
        -- by rewrite decide_True by by right.
        -- rewrite decide_False; [done|]. by intros [?|?]%elem_of_cons.
    + done.
    + done.
    + done.
    + by rewrite Hout.
Qed.

(** What a sweep over [entries] leaves of the reverse map and of the typing
    map: the entry of a socket is deleted when [connectedUsers] pointed some
    evicted user at that socket, whoever the entry named. *)
Lemma cleanup_entries_reverse entries now s :
  let r := cleanup_entries entries now s in
  (∀ sid, userSockets (r.1) !! sid
          = if decide (Exists (λ u, connectedUsers s !! u = Some sid)
                              (expired_users now entries))
            then None else userSockets s !! sid)
  ∧ userTypingStatus (r.1) = userTypingStatus s.
Proof.
  revert s. induction entries as [|[userId lastHeartbeat] rest IH]; intros s.
  - change (expired_users now []) with (@nil Z). cbn [cleanup_entries fst snd].
    split; [|done]. intros sid. rewrite decide_False; [done|]. by intros ?%Exists_nil.
  - rewrite expired_users_cons. cbn [cleanup_entries].
    destruct (decide (now - lastHeartbeat > HEARTBEAT_TIMEOUT)) as [Hexp|Hexp];
      [rewrite decide_True by done|rewrite decide_False by done; apply IH].
    cbn [fst].
    match goal with |- context [cleanup_entries rest now ?x] =>
      specialize (IH x); destruct (cleanup_entries rest now x) as [s5 out] end.
    cbn zeta in IH. proj_simpl. destruct IH as (Hus & Hty).
    assert (Hrest : ∀ sid, connectedUsers s !! userId ≠ Some sid →
              Exists (λ u, delete userId (connectedUsers s) !! u = Some sid)
                     (expired_users now rest)
              ↔ Exists (λ u, connectedUsers s !! u = Some sid)
                       (userId :: expired_users now rest)).
    { intros sid Hne. rewrite Exists_cons, !Exists_exists. split.
      - intros (u & Hin & Hu). apply lookup_delete_Some in Hu as [_ Hu]. eauto.
      - intros [?|(u & Hin & Hu)]; [done|]. exists u. split; [done|].
        apply lookup_delete_Some. split; [|done]. congruence. }
    destruct (connectedUsers s !! userId) as [sid0|] eqn:Hcu; proj_simpl.
    + split; [|done]. intros sid. rewrite Hus. destruct (decide (sid0 = sid)) as [->|Hne].
      * rewrite lookup_delete_eq. rewrite (decide_True (P := Exists _ (userId :: _))).
        -- by case_decide.
        -- by left.
      * rewrite lookup_delete_ne by done.
        apply decide_ext, Hrest. congruence.
    + split; [|done]. intros sid. rewrite Hus. apply decide_ext, Hrest. done.
Qed.

Lemma cleanup_entries_fresh entries now s :
  Forall (λ e, now - e.2 ≤ HEARTBEAT_TIMEOUT) entries → cleanup_entries entries now s = (s, []).
Proof.
  induction 1 as [|[u t] rest Hf _ IH]; [done|]. cbn [cleanup_entries].
  cbn in Hf. by rewrite decide_False by lia.
Qed.

Lemma heartbeatCleanup_fresh now s :
  Forall (λ e, now - e.2 ≤ HEARTBEAT_TIMEOUT) (userHeartbeats (heartbeatCleanup now s).1).
Proof.
  unfold heartbeatCleanup.
  destruct (cleanup_entries_spec (userHeartbeats s) now s) as (Hhb & _).
  rewrite Hhb. apply Forall_forall. intros e [Hnot He]%list_elem_of_filter.
  destruct (decide (expired now e)) as [Hexp|Hexp]; [|unfold expired in Hexp; lia].
  destruct Hnot. apply list_elem_of_fmap_2. by apply list_elem_of_filter.
Qed.

(** X2.  A heartbeat sweep at time [now], run to its end, evicts exactly
    the users whose last heartbeat is more than 30000 ms old: they lose
    their entry in
    [connectedUsers] and in the heartbeat map, their user rows are set
    offline with [last_seen = now], and one ['user_status_change'] offline
    event per evicted user is broadcast.  In [userSockets] the sweep deletes
    the entry of every socket that [connectedUsers] held for an evicted
    user, also when that entry names another user, one who is not evicted
    and signed in on the same socket later.  Every other entry of the two
    registry maps and of the heartbeat map, the typing map, every other
    user row, every message and every conversation are left as they were,
    no socket is closed, and no heartbeat entry that remains is stale. *)
Theorem sweep_evicts_the_silent (now : Z) (s : State) :
  let silent := expired_users now (userHeartbeats s) in
  let r := handle (CleanupTick now) s in
  (∀ u, connectedUsers (r.1) !! u
        = if decide (u ∈ silent) then None else connectedUsers s !! u)
  ∧ (∀ sid, userSockets (r.1) !! sid
            = if decide (Exists (λ u, connectedUsers s !! u = Some sid) silent)
              then None else userSockets s !! sid)
  ∧ userHeartbeats (r.1) = filter (λ e, e.1 ∉ silent) (userHeartbeats s)
  ∧ Forall (λ e, now - e.2 ≤ HEARTBEAT_TIMEOUT) (userHeartbeats (r.1))
  ∧ userTypingStatus (r.1) = userTypingStatus s
  ∧ users (db (r.1))
    = map (λ usr, if decide (user_id usr ∈ silent)
                  then mkUser (user_id usr) (name usr) false now else usr) (users (db s))
  ∧ messages (db (r.1)) = messages (db s)
  ∧ conversations (db (r.1)) = conversations (db s)
  ∧ sockets (r.1) = sockets s
  ∧ r.2 = (λ u, IoEmit (UserStatusChange u false)) <$> silent.
Proof.
  intros silent r. subst r silent. cbn [handle].
  pose proof (heartbeatCleanup_fresh now s) as Hfresh. unfold heartbeatCleanup in *.
  destruct (cleanup_entries_spec (userHeartbeats s) now s)
    as (Hhb & Hcu & Hus & Hms & Hcv & Hso & Hout).
  destruct (cleanup_entries_reverse (userHeartbeats s) now s) as (Hrev & Hty).
  by split_and!.
Qed.

(** X3.  The sweep is idempotent: a second sweep at the same time changes
    nothing and emits nothing. *)
Theorem sweep_twice_is_sweep_once (now : Z) (s : State) :
  handle (CleanupTick now) (handle (CleanupTick now) s).1
  = ((handle (CleanupTick now) s).1, []).
Proof.
  cbn [handle]. unfold heartbeatCleanup at 1.
  apply cleanup_entries_fresh, heartbeatCleanup_fresh.
Qed.


Lemma hb_set_not_expired userId t now (l : list (Z * Z)) :
  now - t ≤ HEARTBEAT_TIMEOUT → userId ∉ expired_users now (hb_set userId t l).
Proof.
  intros Hfresh (e & Hu & [Hexp He]%list_elem_of_filter)%list_elem_of_fmap.
  pose proof (hb_set_time _ _ _ _ He (eq_sym Hu)) as Ht. unfold expired in Hexp. lia.
Qed.

(** X4.  A heartbeat protects the connection for the length of the
    timeout: when a registered socket sends ['heartbeat'] at time [t], a
    sweep at any time [now] with [now - t <= 30000] keeps the user
    registered and in the heartbeat map, and announces nothing about that
    user. *)
Theorem heartbeat_defers_eviction (sid : SocketId) (userId t now : Z) (s : State) :
  sid ∈ sockets s →
  userSockets s !! sid = Some userId →
  userId ≠ 0 →
  now - t ≤ HEARTBEAT_TIMEOUT →
  let s1 := (handle (FromClient sid t Heartbeat) s).1 in
  let r := handle (CleanupTick now) s1 in
  connectedUsers (r.1) !! userId = connectedUsers s !! userId
  ∧ (userId, t) ∈ userHeartbeats (r.1)
  ∧ IoEmit (UserStatusChange userId false) ∉ r.2.
Proof.
  intros Hopen Hsock Hne Hfresh s1 r. subst r s1.
  rewrite handle_connected by done. cbn [dispatch handle]. unfold on_heartbeat.
  rewrite Hsock. unfold truthy. rewrite bool_decide_eq_true_2 by done. proj_simpl.
  unfold heartbeatCleanup. proj_simpl.
  match goal with |- context [cleanup_entries _ now ?x] =>
    pose proof (cleanup_entries_spec (hb_set userId t (userHeartbeats s)) now x) as Hspec end.
  cbn zeta in Hspec. proj_simpl. destruct Hspec as (Hhb & Hcu & _ & _ & _ & _ & Hout).
  pose proof (hb_set_not_expired userId t now (userHeartbeats s) Hfresh) as Hnot.
  split_and!.
  - rewrite Hcu. by rewrite decide_False.
  - rewrite Hhb. apply list_elem_of_filter. split; [done|].
    assert (userId ∈ (hb_set userId t (userHeartbeats s)).*1) as Hin.
    { rewrite hb_set_keys. case_bool_decide; [done|].
      apply elem_of_app. right. by apply list_elem_of_singleton. }
    apply list_elem_of_fmap in Hin as (e & Hu & He).
    pose proof (hb_set_time _ _ _ _ He (eq_sym Hu)) as Ht.
    destruct e as [u' t']. cbn in *. by subst.
  - rewrite Hout. intros (u & Heq & Hu)%list_elem_of_fmap. by simplify_eq.
Qed.

Lemma heartbeat_defers_eviction_witness :
  let s := (run alice_online (init sample_db)).1 in
  let s1 := (handle (FromClient 1%positive 20000 Heartbeat) s).1 in
  let r := handle (CleanupTick 40000) s1 in
  connectedUsers (r.1) !! 1 = connectedUsers s !! 1
  ∧ (1, 20000) ∈ userHeartbeats (r.1)
  ∧ IoEmit (UserStatusChange 1 false) ∉ r.2.
Proof.
  apply (heartbeat_defers_eviction 1%positive 1 20000 40000).
  - apply (bool_decide_unpack _); vm_compute; exact I.
  - vm_compute; reflexivity.
  - lia.
  - unfold HEARTBEAT_TIMEOUT; lia.
Defined.

(** X5.  A sweep unregisters a silent user without closing the socket, and
    the socket is then deaf.  In any state, when [connectedUsers] holds
    socket [sid] for a user whose heartbeat is stale, then after the sweep
    the socket is still connected, [userSockets] has no entry for it, the
    user has no entry in [connectedUsers], and a ['heartbeat'] that the
    socket sends afterwards changes nothing and emits nothing. *)
Theorem evicted_socket_is_ignored (s : State) (sid : SocketId) (userId now t : Z) :
  sid ∈ sockets s →
  connectedUsers s !! userId = Some sid →
  userId ∈ expired_users now (userHeartbeats s) →
  let s1 := (handle (CleanupTick now) s).1 in
  sid ∈ sockets s1
  ∧ userSockets s1 !! sid = None
  ∧ connectedUsers s1 !! userId = None
  ∧ handle (FromClient sid t Heartbeat) s1 = (s1, []).
Proof.
  intros Hopen Hcon Hexp s1. subst s1.
  change (handle (CleanupTick now) s) with (heartbeatCleanup now s).
  unfold heartbeatCleanup.
  destruct (cleanup_entries_spec (userHeartbeats s) now s)
    as (_ & Hcu & _ & _ & _ & Hso & _).
  destruct (cleanup_entries_reverse (userHeartbeats s) now s) as (Hrev & _).
  assert (Hnone : userSockets (cleanup_entries (userHeartbeats s) now s).1 !! sid = None).
  { rewrite Hrev, decide_True; [done|]. apply Exists_exists. eauto. }
  split_and!.
  - by rewrite Hso.
  - done.
  - by rewrite Hcu, decide_True.
  - rewrite handle_connected by by rewrite Hso.
    cbn [dispatch]. unfold on_heartbeat. by rewrite Hnone.
Qed.

Lemma evicted_socket_is_ignored_witness :
  let s := (run alice_online (init sample_db)).1 in
  let s1 := (handle (CleanupTick 40000) s).1 in
  (1%positive) ∈ sockets s1
  ∧ userSockets s1 !! 1%positive = None
  ∧ connectedUsers s1 !! 1 = None
  ∧ handle (FromClient 1%positive 41000 Heartbeat) s1 = (s1, []).
Proof.
  apply (evicted_socket_is_ignored (run alice_online (init sample_db)).1
           1%positive 1 40000 41000).
  - apply (bool_decide_unpack _); vm_compute; exact I.
  - vm_compute; reflexivity.
  - apply (bool_decide_unpack _); vm_compute; exact I.
Defined.

Lemma run_app inputs1 inputs2 s :
  run (inputs1 ++ inputs2) s
  = let '(s1, out1) := run inputs1 s in
    let '(s2, out2) := run inputs2 s1 in
    (s2, out1 ++ out2).
Proof.
  revert s. induction inputs1 as [|i rest IH]; intros s; cbn.
  - by destruct (run inputs2 s).
  - destruct (handle i s) as [s1 out1]. rewrite IH.
    destruct (run rest s1) as [s2 out2]. destruct (run inputs2 s2) as [s3 out3].
    by rewrite app_assoc.
Qed.

(** X6.  Whatever happened before, right after a sweep at time [now] every
    user that is still registered has a heartbeat entry that is at most
    30000 ms old. *)
Theorem registered_after_sweep_is_fresh (db0 : Database) (inputs : list Input)
    (now userId : Z) (sid : SocketId) :
  let s := (run (inputs ++ [CleanupTick now]) (init db0)).1 in
  connectedUsers s !! userId = Some sid →
  ∃ t, (userId, t) ∈ userHeartbeats s ∧ now - t ≤ HEARTBEAT_TIMEOUT.
Proof.
  intros s Hcon.
  destruct (run_invariants (inputs ++ [CleanupTick now]) (init db0)
              (registry_inv_init db0) (heartbeat_inv_init db0)) as [_ [_ Hhb]].
  fold s in Hhb. destruct (Hhb userId) as [_ Hin]. specialize (Hin (mk_is_Some _ _ Hcon)).
  apply list_elem_of_fmap in Hin as ([u t] & Hu & He). cbn in Hu. subst u.
  exists t. split; [done|].
  assert (Hfresh : Forall (λ e, now - e.2 ≤ HEARTBEAT_TIMEOUT) (userHeartbeats s)).
  { subst s. rewrite run_app. cbn [run].
    destruct (run inputs (init db0)) as [s0 out0]. cbn [handle].
    pose proof (heartbeatCleanup_fresh now s0) as Hf.
    by destruct (heartbeatCleanup now s0). }
  rewrite Forall_forall in Hfresh. apply (Hfresh _ He).
Qed.

Lemma registered_after_sweep_is_fresh_witness :
  ∃ t, (2, t) ∈ userHeartbeats (run (alice_falls_silent ++ [CleanupTick 40000])
                                   (init sample_db)).1
       ∧ 40000 - t ≤ HEARTBEAT_TIMEOUT.
Proof.
  apply (registered_after_sweep_is_fresh sample_db alice_falls_silent 40000 2 2%positive).
  vm_compute; reflexivity.
Defined.

(** ** Leaving: ['disconnect'] and ['app_state_change'] *)

Lemma hb_delete_entries userId (l : list (Z * Z)) e :
  e ∈ hb_delete userId l ↔ e ∈ l ∧ e.1 ≠ userId.
Proof. unfold hb_delete. rewrite list_elem_of_filter. tauto. Qed.

Lemma elem_of_map {A B} (f : A → B) (l : list A) (y : B) :
  y ∈ map f l ↔ ∃ x, y = f x ∧ x ∈ l.
Proof.
  induction l as [|a l IH]; cbn [map].
  - split; [by intros ?%elem_of_nil|by intros (x & _ & ?%elem_of_nil)].
  - rewrite elem_of_cons, IH. split.
    + intros [->|(x & -> & Hx)]; [exists a; split; [done|left]|exists x; split; [done|by right]].
    + intros (x & -> & [->|Hx]%elem_of_cons); [by left|right; by exists x].
Qed.

Lemma set_user_online_row userId online now d usr :
  usr ∈ users (set_user_online userId online now d) → user_id usr = userId →
  is_online usr = online ∧ last_seen usr = now.
Proof.
  unfold set_user_online. proj_simpl.
  intros (u0 & -> & Hu0)%elem_of_map. by case_decide.
Qed.

Lemma set_user_online_others userId online now d usr :
  user_id usr ≠ userId →
  usr ∈ users (set_user_online userId online now d) ↔ usr ∈ users d.
Proof.
  intros Hne. unfold set_user_online. proj_simpl.
  rewrite elem_of_map. split.
  - intros (u0 & -> & Hu0). by case_decide.
  - intros Hin. exists usr. by rewrite decide_False.
Qed.

(** X7.  The ['disconnect'] of a socket that is registered for a user
    removes every trace of that user from the four maps of the server, sets
    the user's row offline with [last_seen] at the time of the disconnect
    and broadcasts the offline status.  The registrations, heartbeats and
    typing states of all other users, their user rows and all messages are
    left as they were. *)
Theorem disconnect_unregisters (s : State) (sid : SocketId) (now userId : Z) :
  sid ∈ sockets s →
  userSockets s !! sid = Some userId →
  userId ≠ 0 →
  let r := handle (FromClient sid now Disconnect) s in
  (sid ∉ sockets (r.1))
  ∧ userSockets (r.1) = delete sid (userSockets s)
  ∧ connectedUsers (r.1) = delete userId (connectedUsers s)
  ∧ userTypingStatus (r.1) = delete userId (userTypingStatus s)
  ∧ (∀ e, e ∈ userHeartbeats (r.1) ↔ e ∈ userHeartbeats s ∧ e.1 ≠ userId)
  ∧ (∀ usr, usr ∈ users (db (r.1)) → user_id usr = userId →
       is_online usr = false ∧ last_seen usr = now)
  ∧ (∀ usr, user_id usr ≠ userId → usr ∈ users (db (r.1)) ↔ usr ∈ users (db s))
  ∧ messages (db (r.1)) = messages (db s)
  ∧ IoEmit (UserStatusChange userId false) ∈ r.2.
Proof.
  intros Hopen Hsock Hne r. subst r. rewrite handle_connected by done.
  cbn [dispatch]. unfold on_disconnect. proj_simpl. rewrite Hsock.
  unfold truthy. rewrite bool_decide_eq_true_2 by done.
  destruct (userTypingStatus s !! userId) as [typingData|] eqn:Htyping; proj_simpl.
  - split_and!; try done.
    + set_solver.
    + apply hb_delete_entries.
    + apply set_user_online_row.
    + intros usr. apply set_user_online_others.
    + left.
  - split_and!; try done.
    + set_solver.
    + by rewrite delete_id.
    + apply hb_delete_entries.
    + apply set_user_online_row.
    + intros usr. apply set_user_online_others.
    + left.
Qed.

Lemma disconnect_unregisters_witness :
  let s := (run alice_falls_silent (init sample_db)).1 in
  let r := handle (FromClient 1%positive 2000 Disconnect) s in
  ((1%positive) ∉ sockets (r.1))
  ∧ userSockets (r.1) = delete 1%positive (userSockets s)
  ∧ connectedUsers (r.1) = delete 1 (connectedUsers s)
  ∧ userTypingStatus (r.1) = delete 1 (userTypingStatus s)
  ∧ (∀ e, e ∈ userHeartbeats (r.1) ↔ e ∈ userHeartbeats s ∧ e.1 ≠ 1)
  ∧ (∀ usr, usr ∈ users (db (r.1)) → user_id usr = 1 →
       is_online usr = false ∧ last_seen usr = 2000)
  ∧ (∀ usr, user_id usr ≠ 1 → usr ∈ users (db (r.1)) ↔ usr ∈ users (db s))
  ∧ messages (db (r.1)) = messages (db s)
  ∧ IoEmit (UserStatusChange 1 false) ∈ r.2.
Proof.
  apply (disconnect_unregisters _ 1%positive 2000 1).
  - apply (bool_decide_unpack _); vm_compute; exact I.
  - vm_compute; reflexivity.
  - lia.
Defined.

(** X8.  Going to the background does not unregister anyone: an
    ['app_state_change'] with state [background] or [inactive] from a
    registered socket leaves the four maps, the open sockets, the messages
    and the other users' rows untouched; it only sets the user's row
    offline, so that the user is registered and offline at once, and
    broadcasts the offline status. *)
Theorem background_keeps_registration (s : State) (sid : SocketId) (now userId : Z)
    (state : AppState) :
  sid ∈ sockets s →
  userSockets s !! sid = Some userId →
  userId ≠ 0 →
  state = Background ∨ state = Inactive →
  let r := handle (FromClient sid now (AppStateChange state)) s in
  connectedUsers (r.1) = connectedUsers s
  ∧ userSockets (r.1) = userSockets s
  ∧ userHeartbeats (r.1) = userHeartbeats s
  ∧ userTypingStatus (r.1) = userTypingStatus s
  ∧ sockets (r.1) = sockets s
  ∧ messages (db (r.1)) = messages (db s)
  ∧ store_online (db (r.1)) userId = false
  ∧ (∀ usr, user_id usr ≠ userId → usr ∈ users (db (r.1)) ↔ usr ∈ users (db s))
  ∧ r.2 = [IoEmit (UserStatusChange userId false)].
Proof.
  intros Hopen Hsock Hne Hstate r. subst r. rewrite handle_connected by done.
  cbn [dispatch]. unfold on_app_state_change. rewrite Hsock.
  unfold truthy. rewrite bool_decide_eq_true_2 by done.
  assert (Hoff : store_online (set_user_online userId false now (db s)) userId = false).
  { unfold store_online, select_user.
    destruct (filter _ (users (set_user_online userId false now (db s))))
      as [|usr l] eqn:Hf; [done|].
    assert (usr ∈ usr :: l) as Hin by left. rewrite <- Hf in Hin.
    apply list_elem_of_filter in Hin as [Hid Hin].
    by destruct (set_user_online_row _ _ _ _ _ Hin Hid). }
  destruct Hstate as [-> | ->]; proj_simpl; split_and!; try done;
    intros usr; apply set_user_online_others.
Qed.

Lemma background_keeps_registration_witness :
  let s := (run bob_online (init sample_db)).1 in
  let r := handle (FromClient 2%positive 6 (AppStateChange Background)) s in
  connectedUsers (r.1) = connectedUsers s
  ∧ userSockets (r.1) = userSockets s
  ∧ userHeartbeats (r.1) = userHeartbeats s
  ∧ userTypingStatus (r.1) = userTypingStatus s
  ∧ sockets (r.1) = sockets s
  ∧ messages (db (r.1)) = messages (db s)
  ∧ store_online (db (r.1)) 2 = false
  ∧ (∀ usr, user_id usr ≠ 2 → usr ∈ users (db (r.1)) ↔ usr ∈ users (db s))
  ∧ r.2 = [IoEmit (UserStatusChange 2 false)].
Proof.
  apply (background_keeps_registration _ 2%positive 6 2 Background).
  - apply (bool_decide_unpack _); vm_compute; exact I.
  - vm_compute; reflexivity.
  - lia.
  - by left.
Defined.

(** ** Replaying and reading twice *)

Lemma bind_all_nil {A B} (f : A → list B) (l : list A) :
  (∀ x, x ∈ l → f x = []) → l ≫= f = [].
Proof.
  induction l as [|a l IH]; intros Hall; [done|].
  rewrite bind_cons, (Hall a) by left. apply IH. intros x Hx. apply Hall. by right.
Qed.

Lemma elem_of_select_pending userId d m :
  m ∈ select_pending userId d
  ↔ m ∈ messages d ∧ ∃ c, c ∈ conversations d ∧ pending_row userId m c = true.
Proof.
  unfold select_pending. rewrite list_elem_of_bind. split.
  - intros (m0 & (c & Hm & Hc)%list_elem_of_bind & Hm0).
    destruct (pending_row userId m0 c) eqn:Hp; [|by apply elem_of_nil in Hm].
    apply list_elem_of_singleton in Hm as ->. eauto.
  - intros (Hm & c & Hc & Hp). exists m. split; [|done].
    apply list_elem_of_bind. exists c. rewrite Hp. split; [by apply list_elem_of_singleton|done].
Qed.

(** Once the rows selected for the user are marked delivered, the query of
    the replay selects nothing. *)
Lemma select_pending_replayed userId now d d' :
  conversations d' = conversations d →
  messages d'
  = map (λ m, if bool_decide (msg_id m ∈ msg_id <$> select_pending userId d)
              then deliver now m else m) (messages d) →
  select_pending userId d' = [].
Proof.
  intros Hconv Hmsg. unfold select_pending at 1. apply bind_all_nil. intros m' Hm'.
  apply bind_all_nil. intros c Hc. rewrite Hmsg in Hm'. rewrite Hconv in Hc.
  apply elem_of_map in Hm' as (m & -> & Hm).
  case_bool_decide as Hid.
  - unfold pending_row. cbn. by rewrite !andb_false_r.
  - destruct (pending_row userId m c) eqn:Hp; [|done].
    destruct Hid. apply list_elem_of_fmap_2. apply elem_of_select_pending. eauto.
Qed.

Lemma deliver_rows_users rows now s :
  users (db (deliver_rows rows now s).1) = users (db s).
Proof.
  revert s. induction rows as [|message rest IH]; intros s; cbn [deliver_rows]; [done|].
  specialize (IH (set_db (mark_delivered (msg_id message) now (db s)) s)).
  destruct (deliver_rows rest now _) as [s2 out]. by proj_simpl.
Qed.

(** X9.  A replay leaves nothing to replay.  After a successful
    ['authenticate'], and likewise after an ['app_state_change'] to
    [active] from the user's registered socket, the rows that the replay
    query selected for the user are marked delivered and no other row is
    touched; the query then selects nothing, and every message addressed to
    the user is marked delivered. *)
Theorem replay_leaves_nothing_pending (s : State) (sid : SocketId) (now userId : Z)
    (e : ClientEvent) :
  sid ∈ sockets s →
  e = Authenticate (SignedFor userId)
  ∨ (e = AppStateChange Active ∧ userSockets s !! sid = Some userId ∧ userId ≠ 0) →
  let r := handle (FromClient sid now e) s in
  messages (db (r.1))
  = map (λ m, if bool_decide (msg_id m ∈ msg_id <$> select_pending userId (db s))
              then deliver now m else m) (messages (db s))
  ∧ select_pending userId (db (r.1)) = []
  ∧ (∀ m, m ∈ messages (db (r.1)) → addressed_to (db (r.1)) userId m →
       is_delivered m = true).
Proof.
  intros Hopen He r.
  assert (Hconv : conversations (db (r.1)) = conversations (db s)).
  { apply (ev_conversations _ _ (handle_evolves _ s)). }
  assert (Hmsg : messages (db (r.1))
    = map (λ m, if bool_decide (msg_id m ∈ msg_id <$> select_pending userId (db s))
                then deliver now m else m) (messages (db s))).
  { subst r. rewrite handle_connected by done.
    destruct He as [->|(-> & Hsock & Hne)]; cbn [dispatch].
    - apply on_authenticate_replay.
    - unfold on_app_state_change. rewrite Hsock.
      unfold truthy. rewrite bool_decide_eq_true_2 by done.
      unfold deliverPendingMessages.
      match goal with |- context [deliver_rows ?rows now ?x] =>
        pose proof (deliver_rows_messages rows now x) as Hrows;
        destruct (deliver_rows rows now x) as [s2 out] end.
      by proj_simpl. }
  pose proof (select_pending_replayed userId now (db s) (db (r.1)) Hconv Hmsg) as Hnone.
  split_and!; [done|done|].
  intros m Hm (c & sender & Hc & (conv & Hin & Hid & Hp) & Hs & Hne').
  destruct (is_delivered m) eqn:Hd; [done|].
  assert (m ∈ select_pending userId (db (r.1))) as Hpend.
  { apply elem_of_select_pending. split; [done|]. exists conv. split; [done|].
    unfold pending_row. rewrite Hc, Hs, Hd, Hid.
    rewrite (bool_decide_eq_true_2 (Some c = Some c)) by done.
    rewrite (bool_decide_eq_true_2 (sender ≠ userId)) by done.
    destruct Hp as [Hp|Hp]; rewrite (bool_decide_eq_true_2 _ Hp); by rewrite ?orb_true_r. }
  rewrite Hnone in Hpend. by apply elem_of_nil in Hpend.
Qed.

Lemma replay_leaves_nothing_pending_witness :
  let s := (run (message_waiting ++ bob_online ++ [FromClient 2%positive 6 (AppStateChange Background);
                 FromClient 1%positive 9 (MessageSend (Some 10) (Some "again") (Some 1))])
                (init sample_db)).1 in
  let r := handle (FromClient 2%positive 12 (AppStateChange Active)) s in
  messages (db (r.1))
  = map (λ m, if bool_decide (msg_id m ∈ msg_id <$> select_pending 2 (db s))
              then deliver 12 m else m) (messages (db s))
  ∧ select_pending 2 (db (r.1)) = []
  ∧ (∀ m, m ∈ messages (db (r.1)) → addressed_to (db (r.1)) 2 m →
       is_delivered m = true).
Proof.
  apply (replay_leaves_nothing_pending _ 2%positive 12 2 (AppStateChange Active)).
  - apply (bool_decide_unpack _); vm_compute; exact I.
  - right. split_and!; [reflexivity|vm_compute; reflexivity|lia].
Defined.

Lemma unread_from_other_read conversationId userId now m :
  unread_from_other conversationId userId (read now m) = false.
Proof. unfold unread_from_other. cbn. by rewrite andb_false_r. Qed.

Lemma mark_read_settled conversationId userId now d :
  let d1 := (mark_read conversationId userId now d).1 in
  ∀ m, m ∈ messages d1 → unread_from_other conversationId userId m = false.
Proof.
  cbn. intros m (m0 & -> & Hm0)%elem_of_map.
  destruct (unread_from_other conversationId userId m0) eqn:Hu; [|done].
  apply unread_from_other_read.
Qed.

Lemma mark_read_nothing conversationId userId now d :
  (∀ m, m ∈ messages d → unread_from_other conversationId userId m = false) →
  mark_read conversationId userId now d = (d, []).
Proof.
  intros Hall. unfold mark_read. f_equal.
  - destruct d as [us cs ms sq]. unfold set_messages. cbn in *. f_equal.
    induction ms as [|m ms IH]; [done|]. cbn [map].
    rewrite (Hall m) by left. f_equal. apply IH. intros m' Hm'. apply Hall. by right.
  - rewrite filter_none; [done|]. intros m Hm Hu. by rewrite (Hall m Hm) in Hu.
Qed.

Lemma on_message_read_state conversationId userId now s :
  (on_message_read conversationId userId now s).1
  = set_db (mark_read conversationId userId now (db s)).1 s.
Proof. unfold on_message_read. by destruct (mark_read conversationId userId now (db s)). Qed.

(** X10.  Reading is idempotent.  After a ['message:read'] for a
    conversation and a reader, with ids that fit the INTEGER columns, no
    message of the conversation by another author is unread; a second
    ['message:read'] for the same pair, from any connected socket, leaves
    the state as it is, marks nothing and sends no receipt, yet it still
    broadcasts ['message:read'] to all sockets. *)
Theorem read_twice_marks_nothing (s : State) (sid sid' : SocketId) (now now' : Z)
    (conversationId userId : Z) :
  sid ∈ sockets s → sid' ∈ sockets s →
  in_INTEGER conversationId → in_INTEGER userId →
  let r1 := handle (FromClient sid now (MessageReadEv conversationId userId)) s in
  let r2 := handle (FromClient sid' now' (MessageReadEv conversationId userId)) (r1.1) in
  unread_ids (db (r1.1)) conversationId userId = []
  ∧ r2.1 = r1.1
  ∧ r2.2 = [Sql (SetRead [] now'); IoEmit (MessageReadBroadcast conversationId userId)].
Proof.
  intros Hopen Hopen' _ _ r1 r2. subst r2 r1.
  rewrite (handle_connected sid) by done. cbn [dispatch].
  rewrite on_message_read_state.
  pose proof (mark_read_settled conversationId userId now (db s)) as Hsettled.
  cbn zeta in Hsettled. set (d1 := (mark_read conversationId userId now (db s)).1) in *.
  rewrite (handle_connected sid') by done. cbn [dispatch]. unfold on_message_read.
  proj_simpl. rewrite (mark_read_nothing _ _ now' d1 Hsettled). proj_simpl.
  split_and!; [|done|done].
  unfold unread_ids. rewrite filter_none; [done|].
  intros m Hm Hu. by rewrite (Hsettled m Hm) in Hu.
Qed.

Lemma read_twice_marks_nothing_witness :
  let s := (run (message_waiting ++ bob_online) (init sample_db)).1 in
  let r1 := handle (FromClient 2%positive 20 (MessageReadEv 10 2)) s in
  let r2 := handle (FromClient 1%positive 21 (MessageReadEv 10 2)) (r1.1) in
  unread_ids (db (r1.1)) 10 2 = []
  ∧ r2.1 = r1.1
  ∧ r2.2 = [Sql (SetRead [] 21); IoEmit (MessageReadBroadcast 10 2)].
Proof.
  apply (read_twice_marks_nothing _ 2%positive 1%positive 20 21 10 2).
  - apply (bool_decide_unpack _); vm_compute; exact I.
  - apply (bool_decide_unpack _); vm_compute; exact I.
  - unfold in_INTEGER; lia.
  - unfold in_INTEGER; lia.
Defined.

(** ** The online flag and the registry *)

Lemma insert_message_users conversationId senderId text now d :
  users (insert_message conversationId senderId text now d).1 = users d.
Proof.
  unfold insert_message. destruct text as [txt|]; [|done].
  by destruct (fk_ok _ _ && fk_ok _ _).
Qed.

Lemma on_message_send_users sid conversationId text senderId now s :
  let s' := (on_message_send sid conversationId text senderId now s).1 in
  users (db s') = users (db s) ∧ connectedUsers s' = connectedUsers s.
Proof.
  unfold on_message_send.
  pose proof (insert_message_users conversationId senderId text now (db s)) as Hu.
  destruct (insert_message _ _ _ _ _) as [d1 [err|message]]; proj_simpl; [done|].
  destruct (select_conversation conversationId d1) as [|conv ?]; proj_simpl; [done|].
  by match goal with |- context [if ?b then _ else _] => destruct b end.
Qed.

Lemma on_authenticate_users sid userId now s :
  users (db (on_authenticate sid (SignedFor userId) now s).1)
  = users (set_user_online userId true now (db s)).
Proof.
  unfold on_authenticate. cbn [jwt_verify]. rewrite cleanup_existing_spec.
  assert (Hgen : ∀ s1 out1, db s1 = db s →
    users (db (let '(s6, out6) :=
                 deliverPendingMessages userId now
                   (set_db (set_user_online userId true now (db s1))
                      (set_userHeartbeats (hb_set userId now (userHeartbeats s1))
                         (set_userSockets (<[sid:=userId]> (userSockets s1))
                            (set_connectedUsers (<[userId:=sid]> (connectedUsers s1)) s1)))) in
               (s6, out1 ++ out6 ++ sendUpdatedConversationData userId s6
                    ++ [IoEmit (UserStatusChange userId true); SocketEmit sid Authenticated;
                        SocketJoin sid userId])).1)
    = users (set_user_online userId true now (db s))).
  { intros s1 out1 Hdb. unfold deliverPendingMessages.
    match goal with |- context [deliver_rows ?rows now ?x] =>
      pose proof (deliver_rows_users rows now x) as Hrows;
      destruct (deliver_rows rows now x) as [s6 out6] end.
    proj_simpl. by rewrite Hrows, Hdb. }
  destruct (connectedUsers s !! userId) as [old|]; [|exact (Hgen s [] eq_refl)].
  destruct (decide (old ≠ sid)); [|exact (Hgen s [] eq_refl)].
  exact (Hgen (set_sockets (sockets s ∖ {[old]})
                 (set_userSockets (delete old (userSockets s)) s)) _ eq_refl).
Qed.

Lemma touch_last_seen_row userId now d usr :
  usr ∈ users (touch_last_seen userId now d) →
  ∃ usr0, usr0 ∈ users d ∧ user_id usr = user_id usr0 ∧ is_online usr = is_online usr0.
Proof.
  unfold touch_last_seen. proj_simpl. intros (u0 & -> & Hu0)%elem_of_map.
  exists u0. by case_decide.
Qed.

Lemma handle_online_registered i s :
  registry_inv s → online_registered s → online_registered (handle i s).1.
Proof.
  intros Hreg Hinv. destruct i as [sid|sid now e|now]; cbn [handle].
  - done.
  - case_decide as Hopen; [|done].
    destruct e as [token| |state|c u|c u|c text sender|c u|c u|]; cbn [dispatch].
    + destruct token as [userId|]; [|done].
      intros usr. rewrite on_authenticate_users.
      destruct (on_authenticate_maps sid userId now s) as (Hcu & _). rewrite Hcu.
      intros Hin Hon. destruct (decide (user_id usr = userId)) as [<-|Hne].
      * by rewrite lookup_insert_eq.
      * rewrite lookup_insert_ne by done.
        apply Hinv; [|done]. by apply (set_user_online_others userId true now).
    + unfold on_heartbeat. destruct (userSockets s !! sid) as [userId|]; [|done].
      destruct (truthy userId); [|done]. proj_simpl.
      intros usr (usr0 & Hin & Hid & Hon)%touch_last_seen_row. proj_simpl.
      rewrite Hid, Hon. by apply Hinv.
    + unfold on_app_state_change.
      destruct (userSockets s !! sid) as [userId|] eqn:Hsock; [|done].
      destruct (truthy userId); [|done].
      destruct state; [| | |done].
      * unfold deliverPendingMessages.
        match goal with |- context [deliver_rows ?rows now ?x] =>
          pose proof (deliver_rows_users rows now x) as Hrows;
          pose proof (deliver_rows_frame rows now x) as (Hcu & _);
          destruct (deliver_rows rows now x) as [s2 out] end.
        proj_simpl. intros usr. proj_simpl. rewrite Hrows, Hcu.
        intros Hin Hon. destruct (decide (user_id usr = userId)) as [->|Hne].
        -- by rewrite (Hreg _ _ Hsock).
        -- apply Hinv; [|done]. by apply (set_user_online_others userId true now).
      * intros usr. proj_simpl. intros Hin Hon.
        destruct (decide (user_id usr = userId)) as [Heq|Hne].
        -- by destruct (set_user_online_row _ _ _ _ _ Hin Heq) as [? _]; congruence.
        -- apply Hinv; [|done]. by apply (set_user_online_others userId false now).
      * intros usr. proj_simpl. intros Hin Hon.
        destruct (decide (user_id usr = userId)) as [Heq|Hne].
        -- by destruct (set_user_online_row _ _ _ _ _ Hin Heq) as [? _]; congruence.
        -- apply Hinv; [|done]. by apply (set_user_online_others userId false now).
    + done.
    + done.
    + destruct (on_message_send_users sid c text sender now s) as [Hu Hcu].
      intros usr. rewrite Hu, Hcu. apply Hinv.
    + intros usr. rewrite on_message_read_state. proj_simpl. unfold mark_read. proj_simpl.
      apply Hinv.
    + done.
    + unfold on_disconnect. proj_simpl.
      destruct (userSockets s !! sid) as [userId|]; [|done].
      destruct (truthy userId); [|done].
      assert (Hgoal : ∀ usr,
                usr ∈ users (set_user_online userId false now (db s)) →
                is_online usr = true →
                is_Some (delete userId (connectedUsers s) !! user_id usr)).
      { intros usr Hin Hon. destruct (decide (user_id usr = userId)) as [Heq|Hne].
        - by destruct (set_user_online_row _ _ _ _ _ Hin Heq) as [? _]; congruence.
        - rewrite lookup_delete_ne by done.
          apply Hinv; [|done]. by apply (set_user_online_others userId false now). }
      by destruct (userTypingStatus s !! userId).
  - unfold heartbeatCleanup.
    destruct (cleanup_entries_spec (userHeartbeats s) now s) as (_ & Hcu & Hus & _).
    intros usr. rewrite Hus, Hcu. intros (usr0 & -> & Hin)%elem_of_map.
    destruct (decide (user_id usr0 ∈ _)) as [Hexp|Hexp]; cbn [is_online user_id].
    + done.
    + rewrite decide_False by done. by apply Hinv.
Qed.

Lemma run_online_registered inputs s :
  registry_inv s → online_registered s →
  registry_inv (run inputs s).1 ∧ online_registered (run inputs s).1.
Proof.
  revert s. induction inputs as [|i rest IH]; intros s Hreg Hinv; cbn; [done|].
  pose proof (handle_registry i s Hreg) as Hr1.
  pose proof (handle_online_registered i s Hreg Hinv) as Hh1.
  destruct (handle i s) as [s1 out1]. specialize (IH s1 Hr1 Hh1). by destruct (run rest s1).
Qed.

(** X11.  When the server starts with every user row offline and every
    handler runs to completion before the next input is taken, then after
    any sequence of connections, socket events and sweeps, every user whose
    row says [is_online] has an entry in [connectedUsers].  The branch of
    a ['message:send'] taken next that marks the new message delivered
    therefore finds a socket id to address the recipient's copy to. *)
Theorem online_users_are_registered (db0 : Database) (inputs : list Input) :
  Forall (λ usr, is_online usr = false) (users db0) →
  let s := (run inputs (init db0)).1 in
  (∀ usr, usr ∈ users (db s) → is_online usr = true →
     is_Some (connectedUsers s !! user_id usr))
  ∧ (∀ sid now conversationId text senderId target row,
       sid ∈ sockets s →
       IoTo target (MessageNew row conversationId Delivered)
         ∈ (handle (FromClient sid now (MessageSend conversationId text senderId)) s).2 →
       is_Some target).
Proof.
  intros Hoff s.
  assert (Hinv : online_registered s).
  { apply run_online_registered; [apply registry_inv_init|].
    intros usr Hin Hon. rewrite Forall_forall in Hoff. cbn in Hin.
    by rewrite (Hoff usr Hin) in Hon. }
  split; [exact Hinv|].
  intros sid now c text sender target row Hopen. rewrite handle_connected by done.
  cbn [dispatch]. unfold on_message_send.
  pose proof (insert_message_users c sender text now (db s)) as Hu.
  destruct (insert_message _ _ _ _ _) as [d1 [err|message]]; proj_simpl.
  { intros Hin%list_elem_of_singleton. done. }
  destruct (select_conversation c d1) as [|conv ?]; proj_simpl.
  { intros Hin%list_elem_of_singleton. done. }
  set (other := if decide (Some (user1_id conv) = sender) then user2_id conv else user1_id conv).
  destruct (select_user other d1) as [|usr others] eqn:Hsel; proj_simpl.
  { rewrite !elem_of_cons. intros [?|[?|?%elem_of_nil]]; done. }
  destruct (is_online usr) eqn:Hon; proj_simpl.
  - rewrite !elem_of_cons.
    intros [?|[?|[?|[Heq|?%elem_of_nil]]]]; try done. injection Heq as -> _.
    assert (usr ∈ select_user other d1) as Hin by (rewrite Hsel; left).
    apply list_elem_of_filter in Hin as [Hid Hin]. rewrite Hu in Hin.
    rewrite <- Hid. by apply Hinv.
  - rewrite !elem_of_cons. intros [?|[?|?%elem_of_nil]]; done.
Qed.

Lemma online_users_are_registered_witness :
  let s := (run bob_in_background (init sample_db)).1 in
  (∀ usr, usr ∈ users (db s) → is_online usr = true →
     is_Some (connectedUsers s !! user_id usr))
  ∧ (∀ sid now conversationId text senderId target row,
       sid ∈ sockets s →
       IoTo target (MessageNew row conversationId Delivered)
         ∈ (handle (FromClient sid now (MessageSend conversationId text senderId)) s).2 →
       is_Some target).
Proof.
  apply (online_users_are_registered sample_db bob_in_background).
  repeat constructor.
Defined.

(** ** Messages are never rewritten *)

Lemma msg_kept_refl m : msg_kept m m.
Proof. by constructor. Qed.

Lemma msg_kept_trans m1 m2 m3 : msg_kept m1 m2 → msg_kept m2 m3 → msg_kept m1 m3.
Proof.
  intros [? ? ? ? ? Hd1 Hr1] [? ? ? ? ? Hd2 Hr2]. constructor; try congruence.
  - intros H. destruct (Hd1 H) as [H1 ?]. destruct (Hd2 H1). split; congruence.
  - intros H. destruct (Hr1 H) as [H1 ?]. destruct (Hr2 H1). split; congruence.
Qed.

Lemma msg_kept_deliver now m : is_delivered m = false → msg_kept m (deliver now m).
Proof. intros H. constructor; try done. cbn. congruence. Qed.

Lemma msg_kept_read now m : is_read m = false → msg_kept m (read now m).
Proof. intros H. constructor; try done. cbn. congruence. Qed.

Lemma Forall2_msg_kept_refl l : Forall2 msg_kept l l.
Proof. induction l; constructor; auto using msg_kept_refl. Qed.

Lemma Forall2_msg_kept_map (f : Message → Message) (l : list Message) :
  (∀ m, m ∈ l → msg_kept m (f m)) → Forall2 msg_kept l (map f l).
Proof.
  induction l as [|m l IH]; intros Hall; cbn [map]; constructor.
  - apply Hall. left.
  - apply IH. intros m' Hm'. apply Hall. by right.
Qed.

Lemma append_only_same d d' : messages d' = messages d → append_only d d'.
Proof.
  intros Heq. exists (messages d), []. rewrite app_nil_r.
  split; [done|apply Forall2_msg_kept_refl].
Qed.

Lemma append_only_map (f : Message → Message) d d' :
  messages d' = map f (messages d) →
  (∀ m, m ∈ messages d → msg_kept m (f m)) →
  append_only d d'.
Proof.
  intros Heq Hall. exists (map f (messages d)), []. rewrite app_nil_r.
  split; [done|by apply Forall2_msg_kept_map].
Qed.

Lemma append_only_trans d1 d2 d3 : append_only d1 d2 → append_only d2 d3 → append_only d1 d3.
Proof.
  intros (pre1 & ex1 & Hm1 & Hp1) (pre2 & ex2 & Hm2 & Hp2).
  rewrite Hm1 in Hp2. apply Forall2_app_inv_l in Hp2 as (pa & pb & Hpa & Hpb & ->).
  exists pa, (pb ++ ex2). split; [by rewrite Hm2, <- app_assoc|].
  clear -Hp1 Hpa. revert pa Hpa.
  induction Hp1 as [|m m' l l' Hm _ IH]; intros pa Hpa.
  - inversion Hpa. constructor.
  - inversion Hpa as [|? m'' ? l'' Hm' Hl']; subst. constructor; eauto using msg_kept_trans.
Qed.

Lemma NoDup_fmap_eq {A B} (f : A → B) (l : list A) x y :
  NoDup (f <$> l) → x ∈ l → y ∈ l → f x = f y → x = y.
Proof.
  induction l as [|a l IH]; [by intros _ ?%elem_of_nil|].
  rewrite fmap_cons. intros [Ha Hnd]%NoDup_cons [->|Hx]%elem_of_cons [->|Hy]%elem_of_cons Heq.
  - done.
  - destruct Ha. rewrite Heq. by apply list_elem_of_fmap_2.
  - destruct Ha. rewrite <- Heq. by apply list_elem_of_fmap_2.
  - by apply IH.
Qed.

(** The replay marks rows that were not yet delivered. *)
Lemma append_only_replay userId now d d' :
  wf_db d →
  messages d'
  = map (λ m, if bool_decide (msg_id m ∈ msg_id <$> select_pending userId d)
              then deliver now m else m) (messages d) →
  append_only d d'.
Proof.
  intros Hwf Hmsg. eapply append_only_map; [exact Hmsg|]. intros m Hm. cbn beta.
  case_bool_decide as Hid; [|apply msg_kept_refl].
  apply msg_kept_deliver.
  apply list_elem_of_fmap in Hid as (m0 & Hid & Hm0).
  apply elem_of_select_pending in Hm0 as (Hm0 & c & _ & Hp).
  assert (m = m0) as -> by (eapply NoDup_fmap_eq; eauto using wf_msg_ids).
  unfold pending_row in Hp. apply andb_true_iff in Hp as [_ Hp].
  by destruct (is_delivered m0).
Qed.

Lemma on_app_state_change_active_messages sid userId now s :
  userSockets s !! sid = Some userId → userId ≠ 0 →
  messages (db (on_app_state_change sid Active now s).1)
  = map (λ m, if bool_decide (msg_id m ∈ msg_id <$> select_pending userId (db s))
              then deliver now m else m) (messages (db s)).
Proof.
  intros Hsock Hne. unfold on_app_state_change. rewrite Hsock.
  unfold truthy. rewrite bool_decide_eq_true_2 by done.
  unfold deliverPendingMessages.
  match goal with |- context [deliver_rows ?rows now ?x] =>
    pose proof (deliver_rows_messages rows now x) as Hrows;
    destruct (deliver_rows rows now x) as [s2 out] end.
  by proj_simpl.
Qed.

Lemma on_message_send_append_only sid conversationId text senderId now s :
  wf_db (db s) →
  append_only (db s) (db (on_message_send sid conversationId text senderId now s).1).
Proof.
  intros Hwf. unfold on_message_send.
  assert (Hins : ∃ extra,
            messages (insert_message conversationId senderId text now (db s)).1
            = messages (db s) ++ extra
            ∧ ∀ row, (insert_message conversationId senderId text now (db s)).2 = inr row →
                msg_id row = messages_id_seq (db s)).
  { unfold insert_message. destruct text as [txt|]; [|by exists []; rewrite app_nil_r].
    destruct (fk_ok _ _ && fk_ok _ _); [|by exists []; rewrite app_nil_r].
    eexists. split; [reflexivity|]. by intros row [= <-]. }
  destruct Hins as (extra & Hmsg & Hrow).
  destruct (insert_message _ _ _ _ _) as [d1 [err|message]]; proj_simpl.
  { exists (messages (db s)), extra. split; [done|apply Forall2_msg_kept_refl]. }
  specialize (Hrow message eq_refl).
  destruct (select_conversation conversationId d1) as [|conv ?]; proj_simpl.
  { exists (messages (db s)), extra. split; [done|apply Forall2_msg_kept_refl]. }
  match goal with |- context [if ?b then _ else _] => destruct b end; proj_simpl.
  - unfold append_only, mark_delivered. proj_simpl. rewrite Hmsg, map_app.
    eexists _, _. split; [reflexivity|].
    apply Forall2_msg_kept_map. intros m Hm. rewrite decide_False; [apply msg_kept_refl|].
    pose proof (wf_seq _ Hwf) as Hseq. rewrite Forall_forall in Hseq.
    specialize (Hseq m Hm). cbn beta in Hseq. lia.
  - exists (messages (db s)), extra. split; [done|apply Forall2_msg_kept_refl].
Qed.

Lemma on_disconnect_messages sid now s :
  messages (db (on_disconnect sid now s).1) = messages (db s).
Proof.
  unfold on_disconnect. destruct (userSockets s !! sid) as [userId|]; [|done].
  destruct (truthy userId); [|done]. by destruct (userTypingStatus _ !! userId).
Qed.

Lemma handle_append_only i s :
  wf_db (db s) → append_only (db s) (db (handle i s).1).
Proof.
  intros Hwf. destruct i as [sid|sid now e|now]; cbn [handle].
  - by apply append_only_same.
  - case_decide as Hopen; [|by apply append_only_same].
    destruct e as [token| |state|c u|c u|c text sender|c u|c u|]; cbn [dispatch].
    + destruct token as [userId|]; [|by apply append_only_same].
      eapply append_only_replay; [done|]. apply on_authenticate_replay.
    + apply append_only_same. unfold on_heartbeat.
      destruct (userSockets s !! sid) as [userId|]; [|done]. by destruct (truthy userId).
    + destruct (userSockets s !! sid) as [userId|] eqn:Hsock;
        [|by apply append_only_same; unfold on_app_state_change; rewrite Hsock].
      destruct (decide (userId = 0)) as [->|Hne];
        [by apply append_only_same; unfold on_app_state_change; rewrite Hsock|].
      destruct state.
      * eapply append_only_replay; [done|]. by apply on_app_state_change_active_messages.
      * apply append_only_same. unfold on_app_state_change. rewrite Hsock.
        by destruct (truthy userId).
      * apply append_only_same. unfold on_app_state_change. rewrite Hsock.
        by destruct (truthy userId).
      * apply append_only_same. unfold on_app_state_change. rewrite Hsock.
        by destruct (truthy userId).
    + by apply append_only_same.
    + by apply append_only_same.
    + by apply on_message_send_append_only.
    + rewrite on_message_read_state. proj_simpl. eapply append_only_map; [reflexivity|].
      intros m Hm. cbn beta. destruct (unread_from_other c u m) eqn:Hu; [|apply msg_kept_refl].
      apply msg_kept_read. unfold unread_from_other in Hu.
      apply andb_true_iff in Hu as [_ Hu]. by destruct (is_read m).
    + by apply append_only_same.
    + apply append_only_same. by rewrite on_disconnect_messages.
  - apply append_only_same. unfold heartbeatCleanup.
    by destruct (cleanup_entries_spec (userHeartbeats s) now s) as (_ & _ & _ & Hms & _).
Qed.

Lemma run_append_only inputs s :
  wf_db (db s) → append_only (db s) (db (run inputs s).1).
Proof.
  revert s. induction inputs as [|i rest IH]; intros s Hwf; cbn [run].
  - by apply append_only_same.
  - pose proof (handle_append_only i s Hwf) as H1. pose proof (handle_wf i s Hwf) as Hwf1.
    destruct (handle i s) as [s1 out1]. specialize (IH s1 Hwf1).
    destruct (run rest s1) as [s2 out2]. proj_simpl. eauto using append_only_trans.
Qed.

(** X12.  When every handler runs to completion before the next input is
    taken, no handler and no sweep deletes or rewrites a message.  Over any
    sequence of connections, socket events and sweeps that are handled one
    after the other, the [messages] table only grows at its end: every row
    that was there is still there, in its place, with the same id,
    conversation, author, text and creation time, and a delivery or read
    mark that was set keeps its time.  The conversations and the ids of the
    users do not change at all. *)
Theorem messages_are_never_rewritten (inputs : list Input) (s : State) :
  wf_db (db s) →
  let s' := (run inputs s).1 in
  (∃ pre extra, messages (db s') = pre ++ extra ∧ Forall2 msg_kept (messages (db s)) pre)
  ∧ conversations (db s') = conversations (db s)
  ∧ user_id <$> users (db s') = user_id <$> users (db s).
Proof.
  intros Hwf s'. split_and!.
  - by apply run_append_only.
  - apply (ev_conversations _ _ (run_evolves inputs s)).
  - apply (ev_users _ _ (run_evolves inputs s)).
Qed.

Lemma messages_are_never_rewritten_witness :
  let s := (run message_waiting (init sample_db)).1 in
  let s' := (run (bob_online ++ [FromClient 2%positive 9 (MessageReadEv 10 2);
                                  FromClient 2%positive 10 Disconnect;
                                  CleanupTick 50000]) s).1 in
  (∃ pre extra, messages (db s') = pre ++ extra ∧ Forall2 msg_kept (messages (db s)) pre)
  ∧ conversations (db s') = conversations (db s)
  ∧ user_id <$> users (db s') = user_id <$> users (db s).
Proof.
  apply (messages_are_never_rewritten _ (run message_waiting (init sample_db)).1).
  apply run_wf, sample_db_wf.
Defined.

(** ** Delivery without interleaving *)

Lemma inert_no_copy k e : inert e = true → is_recipient_copy k e = false.
Proof.
  unfold inert. destruct e as [? ev|? ? ev|? ev|ev| | |w]; try done.
  destruct ev as [| | | |row ? status| | | | | | | |]; try done. by destruct status, row.
Qed.

Lemma count_copy_inert k (out : list Effect) :
  Forall (λ e, inert e = true) out → count (is_recipient_copy k) out = 0%nat.
Proof.
  induction 1 as [|e out He _ IH]; [done|].
  by rewrite count_cons, (inert_no_copy k e He), IH.
Qed.

Lemma copies_inert k (out : list Effect) :
  Forall (λ e, inert e = true) out →
  (count (is_recipient_copy k) out ≤ count (is_delivered_write k) out)%nat.
Proof. intros Hall. rewrite (count_copy_inert k out Hall). lia. Qed.

Lemma count_copy_rows k registry now (rows : list Message) :
  count (is_recipient_copy k) (rows ≫= row_effects registry now) = 0%nat.
Proof.
  induction rows as [|x rows IH]; [done|]. rewrite bind_cons, count_app, IH.
  unfold row_effects. by destruct (sender_id x ≫= _).
Qed.

Lemma on_authenticate_copies k sid token now s :
  count (is_recipient_copy k) (on_authenticate sid token now s).2 = 0%nat.
Proof.
  destruct token as [userId|]; [|apply count_copy_inert; repeat constructor].
  destruct (on_authenticate_replay sid userId now s) as [_ ->].
  rewrite !count_app, count_copy_rows.
  rewrite (count_copy_inert k _ (cleanup_existing_inert sid userId now s)).
  rewrite (count_copy_inert k _ (sendUpdatedConversationData_inert userId _)).
  done.
Qed.

Lemma on_app_state_change_copies k sid state now s :
  count (is_recipient_copy k) (on_app_state_change sid state now s).2 = 0%nat.
Proof.
  unfold on_app_state_change.
  destruct (userSockets s !! sid) as [userId|]; [|done].
  destruct (truthy userId); [|done].
  destruct state; try solve [apply count_copy_inert; repeat constructor].
  pose proof (count_copy_rows k
                (connectedUsers (set_db (set_user_online userId true now (db s)) s)) now
                (select_pending userId (set_user_online userId true now (db s)))) as Hd.
  rewrite <- deliver_rows_effects in Hd.
  change (deliver_rows _ now _) with
    (deliverPendingMessages userId now (set_db (set_user_online userId true now (db s)) s))
    in Hd.
  destruct (deliverPendingMessages userId now _) as [s2 out]. proj_simpl.
  rewrite count_app, Hd. apply count_copy_inert.
  apply Forall_app. split; [apply sendUpdatedConversationData_inert|repeat constructor].
Qed.

Lemma on_message_send_copies k sid conversationId text senderId now s :
  wf_db (db s) →
  (count (is_recipient_copy k) (on_message_send sid conversationId text senderId now s).2
   ≤ count (is_delivered_write k) (on_message_send sid conversationId text senderId now s).2)%nat.
Proof.
  intros Hwf.
  destruct text as [txt|]; cycle 1.
  { destruct (on_message_send_rejected sid conversationId None senderId now s) as [_ ->];
      [auto|]. apply copies_inert; repeat constructor. }
  destruct (fk_ok conversationId (conv_id <$> conversations (db s))) eqn:Hfc; cycle 1.
  { destruct (on_message_send_rejected sid conversationId (Some txt) senderId now s) as [_ ->];
      [auto|]. apply copies_inert; repeat constructor. }
  destruct (fk_ok senderId (user_id <$> users (db s))) eqn:Hfs; cycle 1.
  { destruct (on_message_send_rejected sid conversationId (Some txt) senderId now s) as [_ ->];
      [auto|]. apply copies_inert; repeat constructor. }
  destruct (select_conversation conversationId (db s)) as [|conv rest] eqn:Hsel.
  { unfold on_message_send. rewrite insert_message_accepted by done.
    assert (Hsel' : select_conversation conversationId
              (mkDatabase (users (db s)) (conversations (db s))
                 (messages (db s) ++ [sent_row (db s) conversationId senderId txt now])
                 (messages_id_seq (db s) + 1)) = []).
    { rewrite <- Hsel. by destruct conversationId. }
    rewrite Hsel'. apply copies_inert; repeat constructor. }
  rewrite (on_message_send_accepted _ _ _ _ _ _ conv rest) by done.
  destruct (store_online _ _); proj_simpl;
    [|apply copies_inert; repeat constructor].
  rewrite !count_cons.
  cbn [is_delivered_write is_recipient_copy sent_row deliver msg_id].
  change (count _ []) with 0%nat.
  destruct (bool_decide (messages_id_seq (db s) = k)); lia.
Qed.

Lemma handle_copies k i s :
  wf_db (db s) →
  (count (is_recipient_copy k) (handle i s).2 ≤ count (is_delivered_write k) (handle i s).2)%nat.
Proof.
  intros Hwf. destruct i as [sid|sid now e|now]; cbn [handle].
  - by apply copies_inert.
  - case_decide; [|by apply copies_inert].
    destruct e; cbn [dispatch].
    + rewrite on_authenticate_copies. lia.
    + apply copies_inert. unfold on_heartbeat.
      destruct (userSockets s !! sid); [|done]. by destruct (truthy _).
    + rewrite on_app_state_change_copies. lia.
    + apply copies_inert. constructor; [done|apply emitTypingStatus_inert].
    + apply copies_inert. constructor; [done|apply emitTypingStatus_inert].
    + by apply on_message_send_copies.
    + apply copies_inert. unfold on_message_read.
      destruct (mark_read _ _ _ _) as [d1 ids]. cbn [snd]. constructor; [done|].
      apply Forall_app. split; [|repeat constructor].
      destruct ids; [done|]. destruct (select_conversation _ _); [done|].
      destruct (connectedUsers s !! _); repeat constructor.
    + apply copies_inert. repeat constructor.
    + apply copies_inert. apply (on_disconnect_inert sid now (set_sockets _ s)).
  - apply copies_inert. apply cleanup_entries_inert.
Qed.

Lemma run_copies k inputs s :
  wf_db (db s) →
  (count (is_recipient_copy k) (run inputs s).2 ≤ count (is_delivered_write k) (run inputs s).2)%nat.
Proof.
  revert s. induction inputs as [|i rest IH]; intros s Hwf; cbn [run].
  - by apply copies_inert.
  - pose proof (handle_copies k i s Hwf) as H1. pose proof (handle_wf i s Hwf) as Hwf1.
    destruct (handle i s) as [s1 out1]. proj_simpl. specialize (IH s1 Hwf1).
    destruct (run rest s1) as [s2 out2]. proj_simpl. rewrite !count_app. lia.
Qed.

(** X13.  When every handler runs to completion before the next input is
    taken, no delivery is written twice: over any run, the delivery of a
    message is written at most once.  The ['message:delivered'] events for
    the message and the delivered ['message:new'] answers on the sending
    socket together number no more than the writes, and so do, counted
    apart, the delivered ['message:new'] copies that are addressed to the
    socket registered for the other participant; where that socket is the
    sending socket, it is sent both an answer and a copy for the one write.
    A message that is already marked delivered is not written again, and
    none of these three is sent for it again. *)
Theorem sequential_delivery_is_unique (messageId : Z) (inputs : list Input) (s : State) :
  wf_db (db s) →
  let out := (run inputs s).2 in
  (count (is_delivered_write messageId) out ≤ 1)%nat
  ∧ (count (is_sender_notice messageId) out ≤ count (is_delivered_write messageId) out)%nat
  ∧ (count (is_recipient_copy messageId) out ≤ count (is_delivered_write messageId) out)%nat
  ∧ (∀ m, m ∈ messages (db s) → msg_id m = messageId → is_delivered m = true →
       count (is_delivered_write messageId) out = 0%nat
       ∧ count (is_sender_notice messageId) out = 0%nat
       ∧ count (is_recipient_copy messageId) out = 0%nat).
Proof.
  intros Hwf out. destruct (run_delivers_once messageId inputs s Hwf) as (Hw & Hn & Hcan).
  pose proof (run_copies messageId inputs s Hwf) as Hc.
  fold out in Hw, Hn, Hcan, Hc. split_and!; [done|done|done|].
  intros m Hm Hid Hd.
  destruct (decide (0 < count (is_delivered_write messageId) out)%nat) as [Hpos|Hzero];
    [|lia].
  destruct (Hcan Hpos) as [[Hseq|(m' & Hm' & Hid' & Hd')] _].
  - pose proof (wf_seq _ Hwf) as Hlt. rewrite Forall_forall in Hlt.
    specialize (Hlt m Hm). cbn beta in Hlt. lia.
  - assert (m' = m) as -> by (eapply NoDup_fmap_eq; eauto using wf_msg_ids; congruence).
    congruence.
Qed.

Lemma sequential_delivery_is_unique_witness :
  let s := (run (message_waiting ++ bob_online) (init sample_db)).1 in
  let out := (run (bob_online ++ alice_online
                   ++ [FromClient 2%positive 20 (AppStateChange Active)]) s).2 in
  (count (is_delivered_write 1) out ≤ 1)%nat
  ∧ (count (is_sender_notice 1) out ≤ count (is_delivered_write 1) out)%nat
  ∧ (count (is_recipient_copy 1) out ≤ count (is_delivered_write 1) out)%nat
  ∧ (∀ m, m ∈ messages (db s) → msg_id m = 1 → is_delivered m = true →
       count (is_delivered_write 1) out = 0%nat
       ∧ count (is_sender_notice 1) out = 0%nat
       ∧ count (is_recipient_copy 1) out = 0%nat).
Proof.
  apply (sequential_delivery_is_unique 1 _ (run (message_waiting ++ bob_online)
                                                (init sample_db)).1).
  apply run_wf, sample_db_wf.
Defined.

(** ** The conversation snapshot *)

Lemma elem_of_conversation_entry userId d conv cd :
  cd ∈ conversation_entry userId d conv →
  cd_conversation_id cd = conv_id conv
  ∧ cd_other_user_id cd = (if decide (user1_id conv = userId) then user2_id conv
                           else user1_id conv)
  ∧ ∃ usr, usr ∈ users d ∧ user_id usr = cd_other_user_id cd
           ∧ cd_other_user_name cd = name usr
           ∧ cd_other_user_online cd = is_online usr
           ∧ cd_other_user_last_seen cd = last_seen usr.
Proof.
  unfold conversation_entry.
  set (other := if decide (user1_id conv = userId) then user2_id conv else user1_id conv).
  destruct (select_user other d) as [|usr [|]] eqn:Hsel;
    [by intros ?%elem_of_nil| |by intros ?%elem_of_nil].
  intros ->%list_elem_of_singleton. cbn.
  assert (usr ∈ select_user other d) as Hin by (rewrite Hsel; left).
  apply list_elem_of_filter in Hin as [Hid Hin]. split_and!; [done|done|].
  exists usr. by split_and!.
Qed.

Lemma elem_of_sendUpdatedConversationData userId s target convs uid :
  IoTo target (ConversationsUpdated convs uid) ∈ sendUpdatedConversationData userId s →
  uid = userId ∧ target = connectedUsers s !! userId ∧ is_Some target
  ∧ convs = select_conversations_of userId (db s) ≫= conversation_entry userId (db s).
Proof.
  unfold sendUpdatedConversationData.
  destruct (select_conversations_of userId (db s)) as [|conv rest];
    [by intros ?%elem_of_nil|].
  destruct (connectedUsers s !! userId) as [userSocketId|]; [|by intros ?%elem_of_nil].
  intros [= -> -> ->]%list_elem_of_singleton. by split_and!.
Qed.

(** X14.  The conversation snapshot is private and current.  A
    ['conversations_updated'] event sent by ['authenticate'], or by an
    ['app_state_change'] to [active] from the user's registered socket, is
    addressed to the registered connection of that user and to no one else;
    each of its entries stands for a conversation the user takes part in,
    and shows the id, name, online flag and last-seen time of the other
    participant as the store has them after the handler. *)
Theorem snapshot_is_private (s : State) (sid : SocketId) (now userId : Z) (e : ClientEvent)
    (target : option SocketId) (convs : list ConvData) (uid : Z) :
  sid ∈ sockets s →
  e = Authenticate (SignedFor userId)
  ∨ (e = AppStateChange Active ∧ userSockets s !! sid = Some userId ∧ userId ≠ 0) →
  let r := handle (FromClient sid now e) s in
  IoTo target (ConversationsUpdated convs uid) ∈ r.2 →
  uid = userId
  ∧ target = connectedUsers (r.1) !! userId
  ∧ is_Some target
  ∧ ∀ cd, cd ∈ convs →
      ∃ conv usr,
        conv ∈ conversations (db s)
        ∧ (user1_id conv = userId ∨ user2_id conv = userId)
        ∧ cd_conversation_id cd = conv_id conv
        ∧ cd_other_user_id cd = (if decide (user1_id conv = userId) then user2_id conv
                                 else user1_id conv)
        ∧ usr ∈ users (db (r.1))
        ∧ user_id usr = cd_other_user_id cd
        ∧ cd_other_user_name cd = name usr
        ∧ cd_other_user_online cd = is_online usr
        ∧ cd_other_user_last_seen cd = last_seen usr.
Proof.
  intros Hopen He r Hin.
  assert (Hconv : conversations (db (r.1)) = conversations (db s)).
  { apply (ev_conversations _ _ (handle_evolves _ s)). }
  assert (Hsnap : IoTo target (ConversationsUpdated convs uid)
                    ∈ sendUpdatedConversationData userId (r.1)).
  { revert Hin. subst r. rewrite handle_connected by done.
    destruct He as [->|(-> & Hsock & Hne)]; cbn [dispatch].
    - destruct (on_authenticate_replay sid userId now s) as [_ Hout].
      cbn zeta in Hout. rewrite Hout. clear Hout.
      rewrite !elem_of_app. intros [Hin|[Hin|[Hin|Hin]]]; [| |done|].
      + exfalso. rewrite cleanup_existing_spec in Hin.
        destruct (connectedUsers s !! userId) as [old|]; [|by apply elem_of_nil in Hin].
        destruct (decide (old ≠ sid)); proj_simpl; [|by apply elem_of_nil in Hin].
        destruct (decide (old ∈ sockets s)); [|by apply elem_of_nil in Hin].
        by apply list_elem_of_singleton in Hin.
      + exfalso. apply list_elem_of_bind in Hin as (m & Hin & _).
        unfold row_effects in Hin. apply elem_of_cons in Hin as [?|Hin]; [done|].
        destruct (sender_id m ≫= _); [|by apply elem_of_nil in Hin].
        by apply list_elem_of_singleton in Hin.
      + exfalso. rewrite !elem_of_cons in Hin.
        destruct Hin as [?|[?|[?|?%elem_of_nil]]]; done.
    - unfold on_app_state_change. rewrite Hsock.
      unfold truthy. rewrite bool_decide_eq_true_2 by done.
      unfold deliverPendingMessages.
      match goal with |- context [deliver_rows ?rows now ?x] =>
        pose proof (deliver_rows_effects rows now x) as Hrows;
        destruct (deliver_rows rows now x) as [s2 out] end.
      proj_simpl. rewrite Hrows.
      rewrite !elem_of_app. intros [Hin|[Hin|Hin]]; [|done|].
      + exfalso. apply list_elem_of_bind in Hin as (m & Hin & _).
        unfold row_effects in Hin. apply elem_of_cons in Hin as [?|Hin]; [done|].
        destruct (sender_id m ≫= _); [|by apply elem_of_nil in Hin].
        by apply list_elem_of_singleton in Hin.
      + exfalso. by apply list_elem_of_singleton in Hin. }
  apply elem_of_sendUpdatedConversationData in Hsnap as (-> & -> & Hsome & ->).
  split_and!; [done|done|done|].
  intros cd (conv & Hcd & Hconvs)%list_elem_of_bind.
  apply list_elem_of_filter in Hconvs as [Hpart Hconvs]. rewrite Hconv in Hconvs.
  apply elem_of_conversation_entry in Hcd as (Hid & Hother & usr & Hu1 & Hu2 & Hu3 & Hu4 & Hu5).
  exists conv, usr. by split_and!.
Qed.

Lemma snapshot_is_private_witness :
  let s := (run [Connection 1%positive] (init sample_db)).1 in
  let r := handle (FromClient 1%positive 5 (Authenticate (SignedFor 1))) s in
  let convs := [mkConvData 10 0 2 "Bob" 0 false] in
  1 = 1
  ∧ Some 1%positive = connectedUsers (r.1) !! 1
  ∧ is_Some (Some 1%positive)
  ∧ ∀ cd, cd ∈ convs →
      ∃ conv usr,
        conv ∈ conversations (db s)
        ∧ (user1_id conv = 1 ∨ user2_id conv = 1)
        ∧ cd_conversation_id cd = conv_id conv
        ∧ cd_other_user_id cd = (if decide (user1_id conv = 1) then user2_id conv
                                 else user1_id conv)
        ∧ usr ∈ users (db (r.1))
        ∧ user_id usr = cd_other_user_id cd
        ∧ cd_other_user_name cd = name usr
        ∧ cd_other_user_online cd = is_online usr
        ∧ cd_other_user_last_seen cd = last_seen usr.
Proof.
  apply (snapshot_is_private (run [Connection 1%positive] (init sample_db)).1
           1%positive 5 1 (Authenticate (SignedFor 1)) (Some 1%positive)
           [mkConvData 10 0 2 "Bob" 0 false] 1).
  - apply (bool_decide_unpack _); vm_compute; exact I.
  - by left.
  - vm_compute. repeat first [apply list_elem_of_here | apply list_elem_of_further].
Defined.

(** ** Where a registration comes from *)

Lemma handle_connectedUsers_origin i s userId sid :
  connectedUsers (handle i s).1 !! userId = Some sid →
  connectedUsers s !! userId = Some sid
  ∨ ∃ now, i = FromClient sid now (Authenticate (SignedFor userId)).
Proof.
  destruct i as [sid0|sid0 now e|now]; cbn [handle].
  - by left.
  - case_decide as Hopen; [|by left].
    destruct e as [token| |state|c u|c u|c text sender|c u|c u|]; cbn [dispatch].
    + destruct token as [u|]; [|by left].
      destruct (on_authenticate_maps sid0 u now s) as (Hcu & _). rewrite Hcu.
      destruct (decide (u = userId)) as [->|Hne].
      * rewrite lookup_insert_eq. intros [= ->]. right. by exists now.
      * rewrite lookup_insert_ne by done. by left.
    + unfold on_heartbeat. destruct (userSockets s !! sid0) as [u|]; [|by left].
      destruct (truthy u); by left.
    + unfold on_app_state_change. destruct (userSockets s !! sid0) as [u|]; [|by left].
      destruct (truthy u); [|by left].
      destruct state; try by left.
      match goal with |- context [deliverPendingMessages ?u ?n ?x] =>
        pose proof (deliverPendingMessages_frame u n x) as (Hcu & _);
        destruct (deliverPendingMessages u n x) as [s2 out] end.
      proj_simpl. rewrite Hcu. by left.
    + by left.
    + by left.
    + destruct (on_message_send_users sid0 c text sender now s) as [_ Hcu].
      rewrite Hcu. by left.
    + rewrite on_message_read_state. by left.
    + by left.
    + unfold on_disconnect. proj_simpl.
      destruct (userSockets s !! sid0) as [u|]; [|by left].
      destruct (truthy u); [|by left].
      destruct (userTypingStatus s !! u); proj_simpl;
        intros [_ ?]%lookup_delete_Some; by left.
  - unfold heartbeatCleanup.
    destruct (cleanup_entries_spec (userHeartbeats s) now s) as (_ & Hcu & _).
    rewrite Hcu. case_decide; [done|by left].
Qed.

Lemma run_connectedUsers_origin inputs s userId sid :
  connectedUsers (run inputs s).1 !! userId = Some sid →
  connectedUsers s !! userId = Some sid
  ∨ ∃ now, FromClient sid now (Authenticate (SignedFor userId)) ∈ inputs.
Proof.
  revert s. induction inputs as [|i rest IH]; intros s; cbn [run]; [by left|].
  pose proof (handle_connectedUsers_origin i s userId sid) as H1.
  destruct (handle i s) as [s1 out1]. specialize (IH s1).
  destruct (run rest s1) as [s2 out2]. proj_simpl. intros Hreg.
  destruct (IH Hreg) as [Hold|[now Hin]].
  - destruct (H1 Hold) as [?|[now ->]]; [by left|]. right. exists now. left.
  - right. exists now. by right.
Qed.

(** X15.  A registration is always backed by a token.  After any sequence
    of connections, socket events and sweeps from server start, a socket is
    bound to a user in [connectedUsers] or in [userSockets] only if that
    very socket sent an ['authenticate'] with a token that verifies for that
    user; no other event registers anyone. *)
Theorem registration_requires_token (db0 : Database) (inputs : list Input)
    (userId : Z) (sid : SocketId) :
  let s := (run inputs (init db0)).1 in
  connectedUsers s !! userId = Some sid ∨ userSockets s !! sid = Some userId →
  ∃ now, FromClient sid now (Authenticate (SignedFor userId)) ∈ inputs.
Proof.
  intros s Hreg.
  assert (Hcu : connectedUsers s !! userId = Some sid).
  { destruct Hreg as [?|Hus]; [done|].
    by apply (run_registry inputs (init db0) (registry_inv_init db0)). }
  destruct (run_connectedUsers_origin inputs (init db0) userId sid Hcu) as [Hinit|?]; [|done].
  cbn in Hinit. by rewrite lookup_empty in Hinit.
Qed.

Lemma registration_requires_token_witness :
  ∃ now, FromClient 2%positive now (Authenticate (SignedFor 2)) ∈ bob_in_background.
Proof.
  apply (registration_requires_token sample_db bob_in_background 2 2%positive).
  left. vm_compute; reflexivity.
Defined.

(** ** A socket shared by two users *)




(** * Properties of the HTTP routes *)

(** ** The token in the [Authorization] header *)

Lemma split_space_nonempty s : split_space s ≠ [].
Proof.
  destruct s as [|c rest]; cbn; [done|].
  destruct (Ascii.eqb c Ascii.Space); [done|]. by destruct (split_space rest).
Qed.

Lemma split_space_word w : no_space w = true → split_space w = [w].
Proof.
  induction w as [|c rest IH]; cbn; [done|].
  intros [Hc Hrest]%andb_true_iff. apply negb_true_iff in Hc. rewrite Hc.
  by rewrite (IH Hrest).
Qed.

Lemma split_space_app w rest :
  no_space w = true → split_space (w +:+ String Ascii.Space rest) = w :: split_space rest.
Proof.
  induction w as [|c w IH]; cbn [no_space].
  - done.
  - intros [Hc Hw]%andb_true_iff. apply negb_true_iff in Hc.
    change (split_space (String c (w +:+ String Ascii.Space rest))
            = String c w :: split_space rest).
    cbn [split_space]. by rewrite Hc, (IH Hw).
Qed.

(** X17.  The middleware lets a request through only with a verified
    token, which it takes to be the second word of the [Authorization]
    header, whatever the first word is.  Without a header, or with a header
    of one word only, the answer is 401 and the route is not run; with a
    second word that does not verify, the answer is 403 and the route is not
    run; otherwise the route runs for the user id that the token was signed
    for.  The route never runs otherwise. *)
Theorem authenticateToken_reads_second_word {A : Type} (decode : string → Token)
    (next : Z → Store → Store * Response A) (st : Store) :
  authenticateToken decode None next st = (st, Status 401)
  ∧ (∀ word, no_space word = true →
       authenticateToken decode (Some word) next st = (st, Status 401))
  ∧ (∀ scheme token, no_space scheme = true → no_space token = true → token ≠ EmptyString →
       authenticateToken decode (Some (scheme +:+ String Ascii.Space token)) next st
       = match jwt_verify (decode token) with
         | Some userId => next userId st
         | None => (st, Status 403)
         end)
  ∧ (∀ authHeader,
       let r := authenticateToken decode authHeader next st in
       r = (st, Status 401) ∨ r = (st, Status 403)
       ∨ ∃ h token userId,
           authHeader = Some h ∧ split_space h !! 1%nat = Some token
           ∧ jwt_verify (decode token) = Some userId ∧ r = next userId st).
Proof.
  split_and!.
  - done.
  - intros word Hword. unfold authenticateToken, header_token.
    case_bool_decide as Hempty; [by subst|].
    by rewrite (split_space_word _ Hword).
  - intros scheme token Hscheme Htoken Hne. unfold authenticateToken, header_token.
    rewrite bool_decide_eq_false_2 by (by destruct scheme).
    rewrite (split_space_app _ _ Hscheme), (split_space_word _ Htoken). cbn.
    by rewrite bool_decide_eq_false_2.
  - intros authHeader r. subst r. unfold authenticateToken, header_token.
    destruct authHeader as [h|]; [|by left].
    case_bool_decide as Hempty.
    { left. by rewrite bool_decide_eq_true_2. }
    destruct (split_space h !! 1%nat) as [token|] eqn:Htoken; [|by left].
    case_bool_decide; [by left|].
    destruct (jwt_verify (decode token)) as [userId|] eqn:Hverify; [|by right; left].
    right. right. by exists h, token, userId.
Qed.

(** ** Getting or creating a conversation *)

Lemma select_conversation_between_sym a b d :
  select_conversation_between a b d = select_conversation_between b a d.
Proof.
  unfold select_conversation_between.
  induction (conversations d) as [|c l IH]; [done|].
  rewrite !filter_cons, IH. by repeat case_decide; try tauto.
Qed.

Lemma elem_of_select_conversation_between a b d c :
  c ∈ select_conversation_between a b d ↔ between a b c ∧ c ∈ conversations d.
Proof. unfold select_conversation_between, between. by rewrite list_elem_of_filter. Qed.

Lemma select_conversation_between_none a b d c :
  select_conversation_between a b d = [] → c ∈ conversations d → ¬ between a b c.
Proof.
  intros Hnone Hc Hb.
  assert (c ∈ select_conversation_between a b d) as Hin
    by by apply elem_of_select_conversation_between.
  rewrite Hnone in Hin. by apply elem_of_nil in Hin.
Qed.

Lemma insert_conversation_accepted user1 user2 now st :
  seq_ahead st →
  user1 ∈ user_id <$> users (tables st) →
  user2 ∈ user_id <$> users (tables st) →
  (∀ c, c ∈ conversations (tables st) → ¬ (user1_id c = user1 ∧ user2_id c = user2)) →
  insert_conversation user1 user2 now st
  = (mkStore (mkDatabase (users (tables st))
                (conversations (tables st)
                 ++ [mkConversation (conversations_id_seq st) user1 user2 now])
                (messages (tables st)) (messages_id_seq (tables st)))
             (conversations_id_seq st + 1),
     Some (mkConversation (conversations_id_seq st) user1 user2 now)).
Proof.
  intros Hseq H1 H2 Huniq. unfold insert_conversation.
  rewrite (bool_decide_eq_true_2 (_ ∉ _)), (bool_decide_eq_true_2 (user1 ∈ _)),
    (bool_decide_eq_true_2 (user2 ∈ _)), (bool_decide_eq_true_2 (Forall _ _)); try done.
  - by apply Forall_forall.
  - intros (c & Hid & Hc)%list_elem_of_fmap. unfold seq_ahead in Hseq.
    rewrite Forall_forall in Hseq. specialize (Hseq c Hc). cbn beta in Hseq. lia.
Qed.

Lemma insert_conversation_frame user1 user2 now st :
  let r := insert_conversation user1 user2 now st in
  users (tables (r.1)) = users (tables st)
  ∧ messages (tables (r.1)) = messages (tables st)
  ∧ messages_id_seq (tables (r.1)) = messages_id_seq (tables st)
  ∧ conversations_id_seq (r.1) = conversations_id_seq st + 1
  ∧ match r.2 with
    | Some row =>
        row = mkConversation (conversations_id_seq st) user1 user2 now
        ∧ conversations (tables (r.1)) = conversations (tables st) ++ [row]
        ∧ (conversations_id_seq st ∉ conv_id <$> conversations (tables st))
        ∧ user1 ∈ user_id <$> users (tables st)
        ∧ user2 ∈ user_id <$> users (tables st)
        ∧ ∀ c, c ∈ conversations (tables st) → ¬ (user1_id c = user1 ∧ user2_id c = user2)
    | None => conversations (tables (r.1)) = conversations (tables st)
    end.
Proof.
  unfold insert_conversation.
  destruct (bool_decide (_ ∉ _)) eqn:H1; cbn [andb]; [|done].
  destruct (bool_decide (user1 ∈ _)) eqn:H2; cbn [andb]; [|done].
  destruct (bool_decide (user2 ∈ _)) eqn:H3; cbn [andb]; [|done].
  destruct (bool_decide (Forall _ _)) eqn:H4; [|done].
  apply bool_decide_eq_true in H1, H2, H3, H4. rewrite Forall_forall in H4.
  cbn. by split_and!.
Qed.

(** X18.  Asking for the conversation with another user creates it once and
    finds it ever after, from either side.  When both users exist, the
    request is answered with a conversation between the two that is in the
    table afterwards; the same request repeated, and the request of the
    other user for the first, are answered with that same conversation and
    change nothing. *)
Theorem conversation_is_created_once (st : Store) (currentUserId other now now' : Z) :
  seq_ahead st →
  currentUserId ∈ user_id <$> users (tables st) →
  other ∈ user_id <$> users (tables st) →
  let r := get_or_create_conversation (Some other) now currentUserId st in
  ∃ conversation,
    r.2 = Json conversation
    ∧ conversation ∈ conversations (tables (r.1))
    ∧ between currentUserId other conversation
    ∧ get_or_create_conversation (Some other) now' currentUserId (r.1)
      = (r.1, Json conversation)
    ∧ get_or_create_conversation (Some currentUserId) now' other (r.1)
      = (r.1, Json conversation).
Proof.
  intros Hseq Hcur Hother r. subst r. unfold get_or_create_conversation.
  destruct (select_conversation_between currentUserId other (tables st))
    as [|conversation rest] eqn:Hsel; cbn [get_or_create_after_select].
  - rewrite insert_conversation_accepted; [|done|done|done|].
    2:{ intros c Hc [H1 H2]. apply (select_conversation_between_none _ _ _ c Hsel Hc).
        by left. }
    set (row := mkConversation (conversations_id_seq st) currentUserId other now).
    cbn [fst snd tables].
    assert (Hfound : select_conversation_between currentUserId other
              (mkDatabase (users (tables st)) (conversations (tables st) ++ [row])
                 (messages (tables st)) (messages_id_seq (tables st))) = [row]).
    { unfold select_conversation_between in *. cbn [conversations].
      rewrite filter_app, Hsel, app_nil_l, filter_cons, decide_True; [done|].
      by left. }
    exists row. split_and!.
    + done.
    + cbn. apply elem_of_app. right. by apply list_elem_of_singleton.
    + by left.
    + by rewrite Hfound.
    + by rewrite (select_conversation_between_sym other currentUserId), Hfound.
  - exists conversation.
    assert (conversation ∈ select_conversation_between currentUserId other (tables st))
      as [Hb Hin]%elem_of_select_conversation_between by (rewrite Hsel; left).
    cbn [fst snd]. split_and!; [done|done|done| |].
    + by rewrite Hsel.
    + by rewrite (select_conversation_between_sym other currentUserId), Hsel.
Qed.

Lemma conversation_is_created_once_witness :
  let r := get_or_create_conversation (Some 3) 50 1 sample_store in
  ∃ conversation,
    r.2 = Json conversation
    ∧ conversation ∈ conversations (tables (r.1))
    ∧ between 1 3 conversation
    ∧ get_or_create_conversation (Some 3) 60 1 (r.1) = (r.1, Json conversation)
    ∧ get_or_create_conversation (Some 1) 60 3 (r.1) = (r.1, Json conversation).
Proof.
  apply (conversation_is_created_once sample_store 1 3 50 60).
  - repeat constructor.
  - apply (bool_decide_unpack _); vm_compute; exact I.
  - apply (bool_decide_unpack _); vm_compute; exact I.
Defined.

Lemma authenticateToken_cases {A : Type} (decode : string → Token) (authHeader : option string)
    (next : Z → Store → Store * Response A) (st : Store) :
  authenticateToken decode authHeader next st = (st, Status 401)
  ∨ authenticateToken decode authHeader next st = (st, Status 403)
  ∨ ∃ h token userId,
      authHeader = Some h ∧ split_space h !! 1%nat = Some token
      ∧ jwt_verify (decode token) = Some userId
      ∧ authenticateToken decode authHeader next st = next userId st.
Proof.
  unfold authenticateToken, header_token. destruct authHeader as [h|]; [|by left].
  case_bool_decide as Hempty.
  { left. by rewrite bool_decide_eq_true_2. }
  destruct (split_space h !! 1%nat) as [token|] eqn:Htoken; [|by left].
  case_bool_decide; [by left|].
  destruct (jwt_verify (decode token)) as [userId|] eqn:Hverify; [|by right; left].
  right. right. by exists h, token, userId.
Qed.

Lemma get_or_create_keeps otherUserId now currentUserId st :
  seq_ahead st → one_conversation_per_pair (tables st) →
  let r := get_or_create_conversation otherUserId now currentUserId st in
  seq_ahead (r.1) ∧ one_conversation_per_pair (tables (r.1))
  ∧ users (tables (r.1)) = users (tables st)
  ∧ messages (tables (r.1)) = messages (tables st)
  ∧ ∃ new, conversations (tables (r.1)) = conversations (tables st) ++ new
           ∧ (length new ≤ 1)%nat.
Proof.
  intros Hseq [Hnd Hpair] r. subst r. unfold get_or_create_conversation.
  assert (Hsame : seq_ahead st ∧ one_conversation_per_pair (tables st)
    ∧ users (tables st) = users (tables st) ∧ messages (tables st) = messages (tables st)
    ∧ ∃ new, conversations (tables st) = conversations (tables st) ++ new
             ∧ (length new ≤ 1)%nat).
  { split_and!; try done. exists []. rewrite app_nil_r. split; [done|cbn; lia]. }
  destruct otherUserId as [other|]; [|done].
  destruct (select_conversation_between currentUserId other (tables st))
    as [|conversation rest] eqn:Hsel; cbn [get_or_create_after_select]; [|done].
  pose proof (insert_conversation_frame currentUserId other now st) as Hins.
  cbn zeta in Hins.
  destruct (insert_conversation currentUserId other now st) as [st1 [row|]];
    cbn [fst snd] in *; destruct Hins as (Hus & Hms & _ & Hsq & Hrow).
  - destruct Hrow as (Hrow & Hcs & Hfresh & _ & _ & _).
    unfold seq_ahead, one_conversation_per_pair. rewrite Hcs, Hsq.
    split_and!; [| | |done|done|].
    + apply Forall_app. split.
      * eapply Forall_impl; [exact Hseq|]. intros c Hc. cbn beta in *. lia.
      * apply Forall_singleton. rewrite Hrow. cbn. lia.
    + rewrite fmap_app. apply NoDup_app. split_and!; [done| |apply NoDup_singleton].
      intros i Hi ->%list_elem_of_singleton. rewrite Hrow in Hi. by apply Hfresh.
    + assert (Hold : ∀ c, c ∈ conversations (tables st) → ¬ between currentUserId other c).
      { intros c Hc. by apply (select_conversation_between_none _ _ (tables st)). }
      intros c1 c2 [H1| ->%list_elem_of_singleton]%elem_of_app
                   [H2| ->%list_elem_of_singleton]%elem_of_app Hb.
      * by apply Hpair.
      * destruct (Hold c1 H1). rewrite Hrow in Hb. unfold between in *. cbn in Hb.
        naive_solver.
      * destruct (Hold c2 H2). rewrite Hrow in Hb. unfold between in *. cbn in Hb.
        naive_solver.
      * done.
    + exists [row]. split; [done|cbn; lia].
  - unfold seq_ahead, one_conversation_per_pair. rewrite Hrow, Hsq.
    split_and!; [|done|done|done|done|].
    + eapply Forall_impl; [exact Hseq|]. intros c Hc. cbn beta in *. lia.
    + exists []. rewrite app_nil_r. split; [done|cbn; lia].
Qed.

(** X19.  When each request runs to completion before the next one starts,
    the route never makes a second conversation for two users: whatever the
    [Authorization] header and the path parameter, a store in which no two
    conversations are between the same two users, in either order, and in
    which the ids are unique and behind the sequence, is again such a store
    after the request.  The request adds at most one conversation and
    touches no user and no message. *)
Theorem one_conversation_per_pair_is_kept (decode : string → Token)
    (authHeader : option string) (otherUserId : option Z) (now : Z) (st : Store) :
  seq_ahead st → one_conversation_per_pair (tables st) →
  let r := authenticateToken decode authHeader
             (get_or_create_conversation otherUserId now) st in
  seq_ahead (r.1) ∧ one_conversation_per_pair (tables (r.1))
  ∧ users (tables (r.1)) = users (tables st)
  ∧ messages (tables (r.1)) = messages (tables st)
  ∧ ∃ new, conversations (tables (r.1)) = conversations (tables st) ++ new
           ∧ (length new ≤ 1)%nat.
Proof.
  intros Hseq Hpair r. subst r.
  assert (Hsame : seq_ahead st ∧ one_conversation_per_pair (tables st)
    ∧ users (tables st) = users (tables st) ∧ messages (tables st) = messages (tables st)
    ∧ ∃ new, conversations (tables st) = conversations (tables st) ++ new
             ∧ (length new ≤ 1)%nat).
  { split_and!; try done. exists []. rewrite app_nil_r. split; [done|cbn; lia]. }
  destruct (authenticateToken_cases decode authHeader
              (get_or_create_conversation otherUserId now) st)
    as [->|[->|(h & token & userId & _ & _ & _ & ->)]]; [done|done|].
  by apply get_or_create_keeps.
Qed.

Lemma sample_store_pairs : one_conversation_per_pair (tables sample_store).
Proof.
  split; [repeat constructor; by intros ?%elem_of_nil|].
  intros c1 c2 Hc1%list_elem_of_singleton Hc2%list_elem_of_singleton _. congruence.
Qed.

Lemma one_conversation_per_pair_is_kept_witness :
  let r := authenticateToken sample_decode (Some "Bearer bob")
             (get_or_create_conversation (Some 1) 50) sample_store in
  seq_ahead (r.1) ∧ one_conversation_per_pair (tables (r.1))
  ∧ users (tables (r.1)) = users (tables sample_store)
  ∧ messages (tables (r.1)) = messages (tables sample_store)
  ∧ ∃ new, conversations (tables (r.1)) = conversations (tables sample_store) ++ new
           ∧ (length new ≤ 1)%nat.
Proof.
  apply (one_conversation_per_pair_is_kept sample_decode (Some "Bearer bob") (Some 1) 50
           sample_store).
  - repeat constructor.
  - apply sample_store_pairs.
Defined.

(** X20.  Two requests for the same two users that interleave at the
    [await] between the SELECT and the INSERT are not kept apart by the
    [UNIQUE(user1_id, user2_id)] constraint when they come from the two
    sides: both SELECTs find nothing, both INSERTs are accepted, and the
    table holds two conversations between the two users.  When both
    requests come from the same side, the second INSERT is rejected and the
    request is answered 500. *)
Theorem racing_requests_make_two_conversations (st : Store) (a b now1 now2 : Z) :
  seq_ahead st →
  a ≠ b →
  a ∈ user_id <$> users (tables st) →
  b ∈ user_id <$> users (tables st) →
  select_conversation_between a b (tables st) = [] →
  let rows_a := select_conversation_between a b (tables st) in
  let rows_b := select_conversation_between b a (tables st) in
  let r1 := get_or_create_after_select rows_a b now1 a st in
  let r2 := get_or_create_after_select rows_b a now2 b (r1.1) in
  let r2' := get_or_create_after_select rows_a b now2 a (r1.1) in
  (∃ c1 c2,
     r1.2 = Json c1 ∧ r2.2 = Json c2
     ∧ conv_id c1 ≠ conv_id c2
     ∧ between a b c1 ∧ between a b c2
     ∧ c1 ∈ conversations (tables (r2.1)) ∧ c2 ∈ conversations (tables (r2.1))
     ∧ ¬ one_conversation_per_pair (tables (r2.1)))
  ∧ r2'.2 = Status 500
  ∧ conversations (tables (r2'.1)) = conversations (tables (r1.1)).
Proof.
  intros Hseq Hab Ha Hb Hsel rows_a rows_b r1 r2 r2'.
  assert (Hrows_b : rows_b = []).
  { subst rows_b. by rewrite select_conversation_between_sym. }
  assert (Hold : ∀ c, c ∈ conversations (tables st) → ¬ between a b c).
  { intros c Hc. by apply (select_conversation_between_none _ _ (tables st)). }
  set (c1 := mkConversation (conversations_id_seq st) a b now1).
  set (st1 := mkStore (mkDatabase (users (tables st)) (conversations (tables st) ++ [c1])
                         (messages (tables st)) (messages_id_seq (tables st)))
                      (conversations_id_seq st + 1)).
  assert (Hr1 : r1 = (st1, Json c1)).
  { subst r1 rows_a. rewrite Hsel. cbn [get_or_create_after_select].
    rewrite insert_conversation_accepted; [done..|].
    intros c Hc [H1 H2]. apply (Hold c Hc). by left. }
  assert (Hseq1 : seq_ahead st1).
  { unfold seq_ahead. cbn. apply Forall_app. split.
    - eapply Forall_impl; [exact Hseq|]. intros c Hc. cbn beta in *. lia.
    - apply Forall_singleton. cbn. lia. }
  set (c2 := mkConversation (conversations_id_seq st + 1) b a now2).
  assert (Hr2 : r2 = (mkStore (mkDatabase (users (tables st))
                                 ((conversations (tables st) ++ [c1]) ++ [c2])
                                 (messages (tables st)) (messages_id_seq (tables st)))
                              (conversations_id_seq st + 1 + 1), Json c2)).
  { subst r2. rewrite Hr1, Hrows_b. cbn [fst get_or_create_after_select].
    rewrite insert_conversation_accepted; [done|done|done|done|].
    intros c [Hc| ->%list_elem_of_singleton]%elem_of_app [H1 H2].
    - apply (Hold c Hc). by right.
    - cbn in H1. done. }
  split_and!.
  - exists c1, c2. rewrite Hr1, Hr2. cbn [fst snd tables conversations].
    split_and!; [done|done| | | | | |].
    + cbn. lia.
    + by left.
    + by right.
    + apply elem_of_app. left. apply elem_of_app. right. by apply list_elem_of_singleton.
    + apply elem_of_app. right. by apply list_elem_of_singleton.
    + intros [_ Hpair].
      assert (c1 = c2) as Heq; [|by injection Heq; lia].
      apply Hpair; cbn [conversations].
      * apply elem_of_app. left. apply elem_of_app. right. by apply list_elem_of_singleton.
      * apply elem_of_app. right. by apply list_elem_of_singleton.
      * by right.
  - subst r2' rows_a. rewrite Hsel, Hr1. cbn [fst get_or_create_after_select].
    pose proof (insert_conversation_frame a b now2 st1) as Hins. cbn zeta in Hins.
    destruct (insert_conversation a b now2 st1) as [st2 [row|]]; [|done].
    exfalso. cbn [fst snd] in Hins. destruct Hins as (_ & _ & _ & _ & _ & _ & _ & _ & _ & Hu).
    apply (Hu c1); [|done]. cbn. apply elem_of_app. right. by apply list_elem_of_singleton.
  - subst r2' rows_a. rewrite Hsel, Hr1. cbn [fst get_or_create_after_select].
    pose proof (insert_conversation_frame a b now2 st1) as Hins. cbn zeta in Hins.
    destruct (insert_conversation a b now2 st1) as [st2 [row|]]; cbn [fst snd] in *.
    + exfalso. destruct Hins as (_ & _ & _ & _ & _ & _ & _ & _ & _ & Hu).
      apply (Hu c1); [|done]. cbn. apply elem_of_app. right. by apply list_elem_of_singleton.
    + by destruct Hins as (_ & _ & _ & _ & Hcs).
Qed.

Lemma racing_requests_make_two_conversations_witness :
  let st := sample_store in
  let rows_a := select_conversation_between 1 3 (tables st) in
  let rows_b := select_conversation_between 3 1 (tables st) in
  let r1 := get_or_create_after_select rows_a 3 50 1 st in
  let r2 := get_or_create_after_select rows_b 1 51 3 (r1.1) in
  let r2' := get_or_create_after_select rows_a 3 51 1 (r1.1) in
  (∃ c1 c2,
     r1.2 = Json c1 ∧ r2.2 = Json c2
     ∧ conv_id c1 ≠ conv_id c2
     ∧ between 1 3 c1 ∧ between 1 3 c2
     ∧ c1 ∈ conversations (tables (r2.1)) ∧ c2 ∈ conversations (tables (r2.1))
     ∧ ¬ one_conversation_per_pair (tables (r2.1)))
  ∧ r2'.2 = Status 500
  ∧ conversations (tables (r2'.1)) = conversations (tables (r1.1)).
Proof.
  apply (racing_requests_make_two_conversations sample_store 1 3 50 51).
  - repeat constructor.
  - lia.
  - apply (bool_decide_unpack _); vm_compute; exact I.
  - apply (bool_decide_unpack _); vm_compute; exact I.
  - vm_compute; reflexivity.
Defined.

(** X21.  A request that names a user who does not exist, or that comes
    with a token for a user who does not exist, creates nothing: when both
    ids fit the INTEGER columns and every conversation refers to existing
    users, the INSERT is rejected, the answer is 500, and the tables are as
    before; only the id sequence has advanced.  A path parameter that is no
    integer is answered 500 as well, with nothing changed, the sequence
    included. *)
Theorem unknown_user_gets_no_conversation (st : Store) (currentUserId other now : Z) :
  Forall (λ c, user1_id c ∈ user_id <$> users (tables st)
               ∧ user2_id c ∈ user_id <$> users (tables st))
         (conversations (tables st)) →
  in_INTEGER other → in_INTEGER currentUserId →
  other ∉ user_id <$> users (tables st) ∨ currentUserId ∉ user_id <$> users (tables st) →
  let r := get_or_create_conversation (Some other) now currentUserId st in
  r.2 = Status 500
  ∧ users (tables (r.1)) = users (tables st)
  ∧ conversations (tables (r.1)) = conversations (tables st)
  ∧ messages (tables (r.1)) = messages (tables st)
  ∧ conversations_id_seq (r.1) = conversations_id_seq st + 1
  ∧ get_or_create_conversation None now currentUserId st = (st, Status 500).
Proof.
  intros Hfk _ _ Hunknown r. subst r. unfold get_or_create_conversation.
  assert (Hsel : select_conversation_between currentUserId other (tables st) = []).
  { apply filter_none. intros c Hc Hb. rewrite Forall_forall in Hfk.
    destruct (Hfk c Hc) as [H1 H2].
    destruct Hb as [[<- <-]|[<- <-]]; tauto. }
  rewrite Hsel. cbn [get_or_create_after_select].
  pose proof (insert_conversation_frame currentUserId other now st) as Hins.
  cbn zeta in Hins.
  destruct (insert_conversation currentUserId other now st) as [st1 [row|]];
    cbn [fst snd] in *.
  - exfalso. destruct Hins as (_ & _ & _ & _ & _ & _ & _ & H1 & H2 & _). tauto.
  - destruct Hins as (Hus & Hms & _ & Hsq & Hcs). by split_and!.
Qed.

Lemma unknown_user_gets_no_conversation_witness :
  let r := get_or_create_conversation (Some 9) 50 1 sample_store in
  r.2 = Status 500
  ∧ users (tables (r.1)) = users (tables sample_store)
  ∧ conversations (tables (r.1)) = conversations (tables sample_store)
  ∧ messages (tables (r.1)) = messages (tables sample_store)
  ∧ conversations_id_seq (r.1) = conversations_id_seq sample_store + 1
  ∧ get_or_create_conversation None 50 1 sample_store = (sample_store, Status 500).
Proof.
  apply (unknown_user_gets_no_conversation sample_store 1 9 50).
  - repeat constructor; apply (bool_decide_unpack _); vm_compute; exact I.
  - unfold in_INTEGER; lia.
  - unfold in_INTEGER; lia.
  - left. apply (bool_decide_unpack _); vm_compute; exact I.
Defined.

(** ** Reading the messages of a conversation *)

Lemma elem_of_select_messages_of conversationId d row :
  row ∈ select_messages_of conversationId d
  ↔ ∃ m u, m ∈ messages d ∧ u ∈ users d
           ∧ conversation_id m = Some conversationId
           ∧ sender_id m = Some (user_id u)
           ∧ row = mkMessageRow m (name u).
Proof.
  unfold select_messages_of. rewrite merge_sort_Permutation.
  rewrite list_elem_of_bind. split.
  - intros (m & (u & Hrow & Hu)%list_elem_of_bind & Hm).
    destruct (bool_decide (sender_id m = _) && bool_decide (conversation_id m = _)) eqn:Hb;
      [|by apply elem_of_nil in Hrow].
    apply andb_true_iff in Hb as [Hs%bool_decide_eq_true Hc%bool_decide_eq_true].
    apply list_elem_of_singleton in Hrow. by exists m, u.
  - intros (m & u & Hm & Hu & Hc & Hs & ->). exists m. split; [|done].
    apply list_elem_of_bind. exists u. split; [|done].
    rewrite (bool_decide_eq_true_2 _ Hs), (bool_decide_eq_true_2 _ Hc).
    by apply list_elem_of_singleton.
Qed.

Lemma select_own_conversation_participant conversationId currentUserId d :
  select_own_conversation conversationId currentUserId d ≠ []
  ↔ participant d conversationId currentUserId.
Proof.
  unfold select_own_conversation, participant. split.
  - destruct (filter _ _) as [|conv rest] eqn:Hf; [done|]. intros _.
    assert (conv ∈ conv :: rest) as Hin by left. rewrite <- Hf in Hin.
    apply list_elem_of_filter in Hin as [[Hid Hp] Hin]. by exists conv.
  - intros (conv & Hin & Hid & Hp) Hnone.
    assert (conv ∈ filter (λ c, conv_id c = conversationId
                                ∧ (user1_id c = currentUserId ∨ user2_id c = currentUserId))
                          (conversations d)) as Hf by by apply list_elem_of_filter.
    rewrite Hnone in Hf. by apply elem_of_nil in Hf.
Qed.

(** X22.  The messages of a conversation are handed out to its
    participants only.  When the route answers a request with messages, the
    [Authorization] header carried, as its second word, a token that
    verifies for a user who takes part in the conversation; the rows are
    then exactly the join of the messages of that conversation with the
    user rows of their senders, one row for each pair of a message and a
    user row with the sender's id and no row besides or twice, each with
    the name of its sender, in the order of their creation times.  The
    request changes nothing. *)
Theorem messages_only_for_participants (decode : string → Token)
    (authHeader : option string) (conversationId : Z) (st : Store) (rows : list MessageRow) :
  let r := authenticateToken decode authHeader (get_messages (Some conversationId)) st in
  r.2 = Json rows →
  (∃ h token userId,
     authHeader = Some h ∧ split_space h !! 1%nat = Some token
     ∧ jwt_verify (decode token) = Some userId
     ∧ participant (tables st) conversationId userId)
  ∧ (∀ row, row ∈ rows
        ↔ ∃ m u, m ∈ messages (tables st) ∧ u ∈ users (tables st)
                 ∧ conversation_id m = Some conversationId
                 ∧ sender_id m = Some (user_id u)
                 ∧ row = mkMessageRow m (name u))
  ∧ rows ≡ₚ (m ← messages (tables st);
             u ← users (tables st);
             if bool_decide (sender_id m = Some (user_id u))
                && bool_decide (conversation_id m = Some conversationId)
             then [mkMessageRow m (name u)] else [])
  ∧ StronglySorted earlier rows
  ∧ r.1 = st.
Proof.
  intros r Hjson. subst r.
  destruct (authenticateToken_cases decode authHeader (get_messages (Some conversationId)) st)
    as [Heq|[Heq|(h & token & userId & Hh & Htoken & Hverify & Heq)]];
    rewrite Heq in Hjson |- *; [done|done|].
  unfold get_messages in *.
  pose proof (select_own_conversation_participant conversationId userId (tables st)) as Hpart.
  destruct (select_own_conversation conversationId userId (tables st)) as [|conv rest];
    [done|].
  cbn [snd fst] in *. injection Hjson as <-. split_and!.
  - exists h, token, userId. split_and!; [done|done|done|]. by apply Hpart.
  - intros row. apply elem_of_select_messages_of.
  - unfold select_messages_of. apply merge_sort_Permutation.
  - apply StronglySorted_merge_sort; apply _.
  - done.
Qed.

Lemma messages_only_for_participants_witness :
  let st := mkStore (db (run message_waiting (init sample_db)).1) 11 in
  let rows := [mkMessageRow (mkMessage 1 (Some 10) (Some 1) "hi" false false None None 8)
                            "Alice"] in
  let r := authenticateToken sample_decode (Some "Bearer bob") (get_messages (Some 10)) st in
  (∃ h token userId,
     Some "Bearer bob" = Some h ∧ split_space h !! 1%nat = Some token
     ∧ jwt_verify (sample_decode token) = Some userId
     ∧ participant (tables st) 10 userId)
  ∧ (∀ row, row ∈ rows
        ↔ ∃ m u, m ∈ messages (tables st) ∧ u ∈ users (tables st)
                 ∧ conversation_id m = Some 10
                 ∧ sender_id m = Some (user_id u)
                 ∧ row = mkMessageRow m (name u))
  ∧ rows ≡ₚ (m ← messages (tables st);
             u ← users (tables st);
             if bool_decide (sender_id m = Some (user_id u))
                && bool_decide (conversation_id m = Some 10)
             then [mkMessageRow m (name u)] else [])
  ∧ StronglySorted earlier rows
  ∧ r.1 = st.
Proof.
  apply (messages_only_for_participants sample_decode (Some "Bearer bob") 10
           (mkStore (db (run message_waiting (init sample_db)).1) 11)).
  vm_compute; reflexivity.
Defined.

(** ** The conversation list *)

Lemma elem_of_select_conversation_list currentUserId d row :
  row ∈ select_conversation_list currentUserId d
  ↔ ∃ c u, c ∈ conversations d
           ∧ (user1_id c = currentUserId ∨ user2_id c = currentUserId)
           ∧ u ∈ users d
           ∧ user_id u = (if decide (user1_id c = currentUserId) then user2_id c
                          else user1_id c)
           ∧ row = mkConversationRow (conv_id c) (user_id u) (name u) (is_online u)
                     (last_seen u) (last_message_time (conv_id c) d)
                     (unread_count (conv_id c) currentUserId d).
Proof.
  unfold select_conversation_list. rewrite merge_sort_Permutation.
  rewrite list_elem_of_bind. split.
  - intros (c & (u & Hrow & Hu)%list_elem_of_bind & Hc).
    apply list_elem_of_filter in Hc as [Hp Hc]. apply list_elem_of_filter in Hu as [Hid Hu].
    apply list_elem_of_singleton in Hrow. exists c, u. rewrite Hid. by split_and!.
  - intros (c & u & Hc & Hp & Hu & Hid & ->). exists c. split.
    + apply list_elem_of_bind. exists u. split.
      * rewrite Hid. by apply list_elem_of_singleton.
      * by apply list_elem_of_filter.
    + by apply list_elem_of_filter.
Qed.

(** X23.  The unread badge and the read receipt count the same messages.
    In the conversation list of a user, every row stands for a conversation
    of that user, and its [unread_count] is the number of messages that a
    ['message:read'] of that user for the conversation would mark.  After
    such a ['message:read'], the list of the user shows an [unread_count]
    of 0 for the conversation. *)
Theorem unread_count_is_cleared_by_reading (s : State) (sid : SocketId) (now : Z)
    (conversationId userId : Z) :
  sid ∈ sockets s →
  let s' := (handle (FromClient sid now (MessageReadEv conversationId userId)) s).1 in
  (∀ row, row ∈ select_conversation_list userId (db s) →
     participant (db s) (cr_conversation_id row) userId
     ∧ cr_unread_count row = length (unread_ids (db s) (cr_conversation_id row) userId))
  ∧ (∀ row, row ∈ select_conversation_list userId (db s') →
       cr_conversation_id row = conversationId → cr_unread_count row = 0%nat).
Proof.
  intros Hopen s'. split.
  - intros row (c & u & Hc & Hp & Hu & Hid & ->)%elem_of_select_conversation_list.
    cbn. split.
    + by exists c.
    + unfold unread_count, unread_ids. by rewrite length_fmap.
  - intros row (c & u & Hc & Hp & Hu & Hid & ->)%elem_of_select_conversation_list.
    cbn. intros ->. unfold unread_count. rewrite filter_none; [done|].
    intros m Hm Hunread. subst s'. rewrite handle_connected in Hm by done.
    cbn [dispatch] in Hm. rewrite on_message_read_state in Hm. proj_simpl.
    by rewrite (mark_read_settled _ _ _ _ m Hm) in Hunread.
Qed.

Lemma unread_count_is_cleared_by_reading_witness :
  let s := (run (message_waiting ++ bob_online) (init sample_db)).1 in
  let s' := (handle (FromClient 2%positive 20 (MessageReadEv 10 2)) s).1 in
  (∀ row, row ∈ select_conversation_list 2 (db s) →
     participant (db s) (cr_conversation_id row) 2
     ∧ cr_unread_count row = length (unread_ids (db s) (cr_conversation_id row) 2))
  ∧ (∀ row, row ∈ select_conversation_list 2 (db s') →
       cr_conversation_id row = 10 → cr_unread_count row = 0%nat).
Proof.
  apply (unread_count_is_cleared_by_reading _ 2%positive 20 10 2).
  apply (bool_decide_unpack _); vm_compute; exact I.
Defined.

(** ** From the route to the socket *)

Lemma get_or_create_wf otherUserId now currentUserId st :
  seq_ahead st → wf_db (tables st) →
  wf_db (tables (get_or_create_conversation otherUserId now currentUserId st).1).
Proof.
  intros Hseq Hwf. unfold get_or_create_conversation.
  destruct otherUserId as [other|]; [|done].
  destruct (select_conversation_between currentUserId other (tables st))
    as [|conversation rest]; cbn [get_or_create_after_select]; [|done].
  pose proof (insert_conversation_frame currentUserId other now st) as Hins.
  cbn zeta in Hins.
  destruct (insert_conversation currentUserId other now st) as [st1 [row|]];
    cbn [fst snd] in *; destruct Hins as (Hus & Hms & Hsq & _ & Hrow).
  - destruct Hrow as (Hrow & Hcs & Hfresh & _).
    destruct Hwf as [Hids Hcids Hmseq Hfk]. constructor.
    + by rewrite Hms.
    + rewrite Hcs, fmap_app. apply NoDup_app. split_and!; [done| |apply NoDup_singleton].
      intros i Hi ->%list_elem_of_singleton. rewrite Hrow in Hi. by apply Hfresh.
    + by rewrite Hms, Hsq.
    + rewrite Hms, Hcs. eapply Forall_impl; [exact Hfk|]. intros m Hm. cbn beta in *.
      destruct (conversation_id m) as [k|]; [|done]. cbn in *.
      apply bool_decide_eq_true. apply bool_decide_eq_true in Hm.
      rewrite fmap_app. apply elem_of_app. by left.
  - destruct Hwf as [Hids Hcids Hmseq Hfk]. constructor.
    + by rewrite Hms.
    + by rewrite Hrow.
    + by rewrite Hms, Hsq.
    + by rewrite Hms, Hrow.
Qed.

Lemma get_or_create_answers st currentUserId other now :
  seq_ahead st →
  currentUserId ∈ user_id <$> users (tables st) →
  other ∈ user_id <$> users (tables st) →
  let r := get_or_create_conversation (Some other) now currentUserId st in
  ∃ conversation, r.2 = Json conversation ∧ conversation ∈ conversations (tables (r.1)).
Proof.
  intros Hseq Hcur Hother r. subst r. unfold get_or_create_conversation.
  destruct (select_conversation_between currentUserId other (tables st))
    as [|conversation rest] eqn:Hsel; cbn [get_or_create_after_select].
  - rewrite insert_conversation_accepted; [|done|done|done|].
    2:{ intros c Hc [H1 H2].
        apply (select_conversation_between_none _ _ (tables st) c Hsel Hc). by left. }
    eexists. split; [done|]. cbn. apply elem_of_app. right. by apply list_elem_of_singleton.
  - exists conversation. split; [done|].
    assert (conversation ∈ select_conversation_between currentUserId other (tables st))
      as [_ Hin]%elem_of_select_conversation_between by (rewrite Hsel; left).
    done.
Qed.

(** X24.  A conversation obtained from the route can be written to at
    once.  When both users exist, the conversation that the route answers
    with is accepted by ['message:send']: a message sent to it by the
    requesting user is stored under the next message id, as sent or as
    delivered, and the sender is answered with ['message:new'] and not with
    ['message:error']. *)
Theorem created_conversation_takes_messages (st : Store) (currentUserId other now : Z)
    (s : State) (sid : SocketId) (t : Z) (txt : string) :
  seq_ahead st →
  wf_db (tables st) →
  currentUserId ∈ user_id <$> users (tables st) →
  other ∈ user_id <$> users (tables st) →
  let r := get_or_create_conversation (Some other) now currentUserId st in
  db s = tables (r.1) →
  sid ∈ sockets s →
  ∃ conversation,
    r.2 = Json conversation
    ∧ let out := handle (FromClient sid t (MessageSend (Some (conv_id conversation)) (Some txt)
                                                      (Some currentUserId))) s in
      let row := sent_row (db s) (Some (conv_id conversation)) (Some currentUserId) txt t in
      (row ∈ messages (db (out.1)) ∨ deliver t row ∈ messages (db (out.1)))
      ∧ (∃ m status, SocketEmit sid (MessageNew (Some m) (Some (conv_id conversation)) status)
                       ∈ out.2
                     ∧ msg_id m = messages_id_seq (db s))
      ∧ (SocketEmit sid MessageError ∉ out.2).
Proof.
  intros Hseq Hwf Hcur Hother r Hdb Hopen.
  destruct (get_or_create_answers st currentUserId other now Hseq Hcur Hother)
    as (conversation & Hjson & Hin).
  fold r in Hjson, Hin. exists conversation. split; [done|].
  assert (Hwf' : wf_db (db s)).
  { rewrite Hdb. by apply get_or_create_wf. }
  assert (Husers : users (db s) = users (tables st)).
  { rewrite Hdb. subst r. unfold get_or_create_conversation.
    destruct (select_conversation_between currentUserId other (tables st));
      cbn [get_or_create_after_select]; [|done].
    pose proof (insert_conversation_frame currentUserId other now st) as Hins.
    cbn zeta in Hins.
    destruct (insert_conversation currentUserId other now st) as [st1 [row|]];
      by destruct Hins as (Hus & _). }
  rewrite <- Hdb in Hin.
  pose proof (select_conversation_unique (conv_id conversation) (db s) conversation
                (wf_conv_ids _ Hwf') Hin eq_refl) as Hsel.
  cbn zeta. rewrite handle_connected by done. cbn [dispatch].
  rewrite (on_message_send_accepted sid _ txt _ t s conversation [] Hwf' Hsel)
    by (cbn; apply bool_decide_eq_true; by rewrite Husers).
  destruct (store_online (db s) _); cbn [fst snd db set_db messages].
  - split_and!.
    + right. apply elem_of_app. right. by apply list_elem_of_singleton.
    + eexists _, _. split; [right; right; left|done].
    + rewrite !elem_of_cons. intros [?|[?|[?|[?|?%elem_of_nil]]]]; done.
  - split_and!.
    + left. apply elem_of_app. right. by apply list_elem_of_singleton.
    + eexists _, _. split; [right; left|done].
    + rewrite !elem_of_cons. intros [?|[?|?%elem_of_nil]]; done.
Qed.

Lemma created_conversation_takes_messages_witness :
  let r := get_or_create_conversation (Some 3) 50 1 sample_store in
  let s := (run [Connection 1%positive] (init (tables (r.1)))).1 in
  ∃ conversation,
    r.2 = Json conversation
    ∧ let out := handle (FromClient 1%positive 60
                           (MessageSend (Some (conv_id conversation)) (Some "hello")
                                        (Some 1))) s in
      let row := sent_row (db s) (Some (conv_id conversation)) (Some 1) "hello" 60 in
      (row ∈ messages (db (out.1)) ∨ deliver 60 row ∈ messages (db (out.1)))
      ∧ (∃ m status, SocketEmit 1%positive
                       (MessageNew (Some m) (Some (conv_id conversation)) status) ∈ out.2
                     ∧ msg_id m = messages_id_seq (db s))
      ∧ (SocketEmit 1%positive MessageError ∉ out.2).
Proof.
  apply (created_conversation_takes_messages sample_store 1 3 50
           (run [Connection 1%positive]
                (init (tables (get_or_create_conversation (Some 3) 50 1 sample_store).1))).1
           1%positive 60 "hello").
  - repeat constructor.
  - apply sample_db_wf.
  - apply (bool_decide_unpack _); vm_compute; exact I.
  - apply (bool_decide_unpack _); vm_compute; exact I.
  - reflexivity.
  - apply (bool_decide_unpack _); vm_compute; exact I.
Defined.

(** * Properties of the start of the server *)

(** X25.  What the callback of [server.listen] does depends on the first
    query alone.  The heartbeat sweep is started exactly when the query of
    [testSupabaseConnection] returns without error, also when
    [checkTablesExist] then finds tables missing; otherwise the server keeps
    listening without a sweep.  The branch that calls [process.exit(1)] is
    never taken.  The tables count as ready exactly when each of the three
    queries for [users], [conversations] and [messages] returns without
    error. *)
Theorem sweep_starts_when_first_query_succeeds (first : Probe) (probe : string → Probe) :
  on_listen first probe ≠ Exited
  ∧ (on_listen first probe = ListeningAndSweeping ↔ first = ProbeOk)
  ∧ (on_listen first probe = Listening ↔ first ≠ ProbeOk)
  ∧ (tablesReady (testDBConnection first probe) = Some true
     ↔ first = ProbeOk ∧ probe "users" = ProbeOk ∧ probe "conversations" = ProbeOk
       ∧ probe "messages" = ProbeOk)
  ∧ (connected (testDBConnection first probe) = true ↔ first = ProbeOk).
Proof.
  assert (Htables : checkTablesExist probe = true
                    ↔ probe "users" = ProbeOk ∧ probe "conversations" = ProbeOk
                      ∧ probe "messages" = ProbeOk).
  { unfold checkTablesExist. cbn zeta. rewrite bool_decide_eq_true.
    rewrite !filter_cons, filter_nil.
    destruct (decide (probe "users" = ProbeOk)) as [Hu|Hu];
      destruct (decide (probe "conversations" = ProbeOk)) as [Hc|Hc];
      destruct (decide (probe "messages" = ProbeOk)) as [Hm|Hm]; cbn;
      split; try done; try lia; tauto. }
  unfold on_listen, testDBConnection.
  destruct first; cbn [testSupabaseConnection];
    destruct (checkTablesExist probe) eqn:Hc; cbn; split_and!; try done;
    try (split; [done|by intros [? _]]); try (split; congruence).
  - split; [intros _|done]. split; [done|]. by apply Htables.
  - split; [done|]. intros [_ Ht]. apply Htables in Ht. congruence.
Qed.

(** * Properties of the Supabase schema *)

(** X26.  The trigger on [messages] never counts a message of a
    participant as unread.  It leaves the rows of all other conversations
    as they are and records content, time, sender and flags of the new
    message in the row of its conversation; the [unread_count] of that row
    is raised by one only when the sender is known and differs from both
    [user1_id] and [user2_id], and is left as it is when the sender is one
    of the two participants. *)
Theorem trigger_does_not_count_participants (new : Message) (cs : list ConversationRecord) :
  Forall2
    (λ c c',
       cs_id c' = cs_id c ∧ cs_user1_id c' = cs_user1_id c ∧ cs_user2_id c' = cs_user2_id c
       ∧ (conversation_id new ≠ Some (cs_id c) → c' = c)
       ∧ (conversation_id new = Some (cs_id c) →
            cs_last_message c' = Some (content new)
            ∧ cs_last_message_time c' = Some (created_at new)
            ∧ cs_last_message_sender_id c' = sender_id new
            ∧ cs_last_message_delivered c' = Some (is_delivered new)
            ∧ cs_last_message_read c' = Some (is_read new)
            ∧ cs_unread_count c'
              = (if sql_differs (sender_id new) (cs_user1_id c)
                    && sql_differs (sender_id new) (cs_user2_id c)
                 then (λ n, n + 1) <$> cs_unread_count c
                 else cs_unread_count c)
            ∧ (sender_id new = cs_user1_id c ∨ sender_id new = cs_user2_id c →
                 cs_unread_count c' = cs_unread_count c)))
    cs (update_conversation_last_message new cs).
Proof.
  unfold update_conversation_last_message. cbn zeta. rewrite map_map.
  induction cs as [|c cs IH]; cbn [map]; constructor; [|exact IH]. clear IH.
  destruct (bool_decide (conversation_id new = Some (cs_id c))) eqn:Hid;
    cbn [cs_id cs_user1_id cs_user2_id cs_last_message_sender_id]; rewrite ?Hid;
    cbn [andb].
  - apply bool_decide_eq_true in Hid.
    assert (Hpart : sender_id new = cs_user1_id c ∨ sender_id new = cs_user2_id c →
                    sql_differs (sender_id new) (cs_user1_id c)
                    && sql_differs (sender_id new) (cs_user2_id c) = false).
    { intros [<-|<-]; destruct (sender_id new) as [x|]; cbn [sql_differs andb];
        repeat match goal with
               | |- context [bool_decide (?y ≠ ?y)] =>
                   rewrite (bool_decide_eq_false_2 (y ≠ y)) by (intros H; by apply H)
               end;
        rewrite ?andb_false_r; try done; by destruct (cs_user1_id c). }
    destruct (sql_differs (sender_id new) (cs_user1_id c)
              && sql_differs (sender_id new) (cs_user2_id c)) eqn:Hout; cbn;
      (split_and!; [done|done|done|done|]); intros _;
      (split_and!; [done|done|done|done|done|done|]).
    + intros Hp. by specialize (Hpart Hp).
    + done.
  - apply bool_decide_eq_false in Hid. by split_and!.
Qed.
